(** * MaiBot: expression selector and PFC reply generator

    A shallow embedding of [src/chat/express/expression_selector.py] and
    [src/plugins/PFC/reply_generator.py].

    Conventions of the embedding:
    - a Python [str] is a Rocq [string] holding its UTF-8 bytes;
    - a Python [float] weight or counter is a rational ([Q]): addition and
      comparison are exact and rounding is not modelled; overflow is (a
      total above the largest float is not finite), and a statement that
      rounding could break carries the conditions under which it holds
      of the rounded arithmetic too (sums that stay finite, weights out
      of the subnormal range, draws at most [1 - 2^-53]);
    - the conversion of a timestamp by [datetime] is a call of the
      standard library that may raise: it is a parameter;
    - a query without [ORDER BY] is answered in the order of the table;
      the statements about retrieval speak of the rows and of distinct
      places of the pool, not of their order;
    - a Python [int] is a [Z];
    - a call that may raise returns a [result];
    - the random generator, the clock, the database, the configuration and
      the LLM client are explicit: pure code takes them as arguments, the
      selector threads a [World] through a state-and-exception monad;
    - logging changes nothing that is modelled and is left out; failures
      of the database driver and of the prompt registry are not modelled;
    - a dictionary under the selector always holds a string under
      ["type"] when it has that key. *)

From Stdlib Require Import String Ascii ZArith QArith Lia Lqa Bool Arith.
From Stdlib Require Import Numbers.DecimalString Sorting.Permutation List.
Import ListNotations.

Set Implicit Arguments.
Close Scope Q_scope.
Open Scope nat_scope.

(* ================================================================== *)
(** * Python values shared by both modules *)

(** Exceptions the modelled code can meet, by class. *)
Inductive exn : Type :=
| ValueError
| KeyError
| TypeError
| IndexError
| OverflowError
| OSError
| JSONDecodeError
| RuntimeError
| CancelledError.

(** [isinstance(e, Exception)]: what [except Exception] catches.
    [asyncio.CancelledError] derives from [BaseException] only. *)
Definition is_Exception (e : exn) : bool :=
  match e with
  | CancelledError => false
  | _ => true
  end.

(** The outcome of an expression that may raise. *)
Inductive result (A : Type) : Type :=
| Ok (a : A)
| Raise (e : exn).
Arguments Ok {A} a.
Arguments Raise {A} e.

Definition result_map {A B : Type} (f : A -> B) (r : result A) : result B :=
  match r with
  | Ok a => Ok (f a)
  | Raise e => Raise e
  end.

(** [list.pop(i)] for [0 <= i]: the element at [i] and the list without
    it; [None] stands for the [IndexError] of an index out of range. *)
Fixpoint pop {A : Type} (i : nat) (l : list A) : option (A * list A) :=
  match l with
  | [] => None
  | x :: t =>
      match i with
      | O => Some (x, t)
      | S j =>
          match pop j t with
          | Some (y, t') => Some (y, x :: t')
          | None => None
          end
      end
  end.

(** [x < y] on floats. *)
Definition Qlt_bool (x y : Q) : bool := negb (Qle_bool y x).

(* ================================================================== *)
(** * The standard library's [random.choices] and [bisect] *)

Module PyRandom.

(** The generator: the stream of the values [random.random()] will
    return, each in [[0, 1)] for a real generator.  The code never seeds
    it, so theorems quantify over every stream. *)
Definition rng : Type := nat -> Q.

(** [random.random()]: the head of the stream, and the rest. *)
Definition random (g : rng) : Q * rng := (g O, fun i => g (S i)).

(** [itertools.accumulate(weights)]: running sums. *)
Fixpoint accumulate_from (acc : Q) (ws : list Q) : list Q :=
  match ws with
  | [] => []
  | w :: t => (acc + w)%Q :: accumulate_from (acc + w)%Q t
  end.

Definition accumulate (ws : list Q) : list Q :=
  match ws with
  | [] => []
  | w :: t => w :: accumulate_from w t
  end.

(** [bisect.bisect_right(a, x, lo, hi)]: the binary search of CPython,
<<
      while lo < hi:
          mid = (lo + hi) // 2
          if x < a[mid]: hi = mid
          else: lo = mid + 1
      return lo
>>
    The loop runs at most [hi - lo] times, which is the fuel. *)
Fixpoint bisect_loop (fuel : nat) (a : list Q) (x : Q) (lo hi : nat) : nat :=
  match fuel with
  | O => lo
  | S fuel' =>
      if lo <? hi then
        let mid := (lo + hi) / 2 in
        if Qlt_bool x (nth mid a 0%Q) then bisect_loop fuel' a x lo mid
        else bisect_loop fuel' a x (mid + 1) hi
      else lo
  end.

Definition bisect (a : list Q) (x : Q) (lo hi : nat) : nat :=
  bisect_loop (hi - lo) a x lo hi.

(** The largest finite float, [(2 - 2^-52) * 2^1023]. *)
Definition float_max : Q := inject_Z (2 ^ 1024 - 2 ^ 971).

(** [math.isfinite(total)] for a sum of floats: the sum has overflowed
    to [inf] when it is above the largest float. *)
Definition isfinite (total : Q) : bool := Qle_bool total float_max.

(** [random.choices(range(n), weights=weights)[0]] (Python 3.9 and later):
<<
      cum_weights = list(accumulate(weights))
      if len(cum_weights) != n: raise ValueError
      total = cum_weights[-1] + 0.0
      if total <= 0.0: raise ValueError
      if not isfinite(total): raise ValueError
      hi = n - 1
      return [population[bisect(cum_weights, random() * total, 0, hi)]]
>>
    [range(n)[i]] is [i].  The generator is read only when the checks
    pass. *)
Definition choices_range (n : nat) (weights : list Q) (g : rng)
  : result nat * rng :=
  let cum_weights := accumulate weights in
  if negb (length cum_weights =? n) then (Raise ValueError, g)
  else
    match rev cum_weights with
    | [] => (Raise IndexError, g)
    | total :: _ =>
        if Qle_bool total 0%Q then (Raise ValueError, g)
        else if negb (isfinite total) then (Raise ValueError, g)
        else
          let (r, g') := random g in
          (Ok (bisect cum_weights (r * total)%Q 0 (n - 1)), g')
    end.

End PyRandom.

(* ================================================================== *)
(** * [weighted_sample] *)

Module Sampler.
Import PyRandom.

Section WeightedSample.
Variable A : Type.

(** The body of [for _ in range(k)], with [k] the iterations left. *)
Fixpoint sample_loop (k : nat) (population_copy : list A)
         (weights_copy : list Q) (selected : list A) (g : rng)
  : result (list A) * rng :=
  match k with
  | O => (Ok selected, g)
  | S k' =>
      match population_copy with
      | [] => (Ok selected, g)                       (* break *)
      | _ :: _ =>
          match choices_range (length population_copy) weights_copy g with
          | (Raise e, g') => (Raise e, g')
          | (Ok chosen_idx, g') =>
              match pop chosen_idx population_copy,
                    pop chosen_idx weights_copy with
              | Some (x, population_copy'), Some (_, weights_copy') =>
                  sample_loop k' population_copy' weights_copy'
                              (selected ++ [x]) g'
              | _, _ => (Raise IndexError, g')
              end
          end
      end
  end.

Definition weighted_sample (population : list A) (weights : list Q)
           (k : Z) (g : rng) : result (list A) * rng :=
  match population, weights with
  | [], _ => (Ok [], g)
  | _, [] => (Ok [], g)
  | _ :: _, _ :: _ =>
      if (k <=? 0)%Z then (Ok [], g)
      else if (Z.of_nat (length population) <=? k)%Z then (Ok population, g)
      else sample_loop (Z.to_nat k) population weights [] g
  end.
End WeightedSample.

End Sampler.

(* ================================================================== *)
(** * Python strings *)

Module PyStr.
Local Open Scope string_scope.

(** [s.split(sep)] for a separator of one character: the fields between
    the separators, empty fields kept; never the empty list. *)
Fixpoint split (sep : ascii) (s : string) : list string :=
  match s with
  | EmptyString => [EmptyString]
  | String c t =>
      if Ascii.eqb c sep then EmptyString :: split sep t
      else
        match split sep t with
        | [] => [String c EmptyString]
        | field :: fields => String c field :: fields
        end
  end.

(** [sep.join(parts)]. *)
Fixpoint join (sep : string) (parts : list string) : string :=
  match parts with
  | [] => EmptyString
  | [p] => p
  | p :: rest => p ++ sep ++ join sep rest
  end.

(** Truth value of a [str]: false exactly for the empty string. *)
Definition truthy (s : string) : bool := negb (String.eqb s EmptyString).

(** Truth value of an [Optional[str]]: [None] and [""] are false. *)
Definition truthy_opt (o : option string) : bool :=
  match o with
  | None => false
  | Some s => truthy s
  end.

(** [str(n)] for an [int]. *)
Definition str_of_int (n : Z) : string := NilEmpty.string_of_int (Z.to_int n).

(** How many times [c] occurs in [s]. *)
Fixpoint count_char (c : ascii) (s : string) : nat :=
  match s with
  | EmptyString => O
  | String d t => (if Ascii.eqb d c then 1 else 0) + count_char c t
  end.

End PyStr.

(* ================================================================== *)
(** * [hashlib.md5] (RFC 1321) *)

Module MD5.
Local Open Scope Z_scope.

Definition mask32 : Z := 0xffffffff.
Definition add32 (x y : Z) : Z := Z.land (x + y) mask32.
Definition not32 (x : Z) : Z := Z.lxor x mask32.
Definition rotl32 (x n : Z) : Z :=
  Z.land (Z.lor (Z.shiftl x n) (Z.shiftr x (32 - n))) mask32.

(** [K[i] = floor(2^32 * abs(sin(i + 1)))]. *)
Definition K : list Z :=
  [ 0xd76aa478; 0xe8c7b756; 0x242070db; 0xc1bdceee;
    0xf57c0faf; 0x4787c62a; 0xa8304613; 0xfd469501;
    0x698098d8; 0x8b44f7af; 0xffff5bb1; 0x895cd7be;
    0x6b901122; 0xfd987193; 0xa679438e; 0x49b40821;
    0xf61e2562; 0xc040b340; 0x265e5a51; 0xe9b6c7aa;
    0xd62f105d; 0x02441453; 0xd8a1e681; 0xe7d3fbc8;
    0x21e1cde6; 0xc33707d6; 0xf4d50d87; 0x455a14ed;
    0xa9e3e905; 0xfcefa3f8; 0x676f02d9; 0x8d2a4c8a;
    0xfffa3942; 0x8771f681; 0x6d9d6122; 0xfde5380c;
    0xa4beea44; 0x4bdecfa9; 0xf6bb4b60; 0xbebfbc70;
    0x289b7ec6; 0xeaa127fa; 0xd4ef3085; 0x04881d05;
    0xd9d4d039; 0xe6db99e5; 0x1fa27cf8; 0xc4ac5665;
    0xf4292244; 0x432aff97; 0xab9423a7; 0xfc93a039;
    0x655b59c3; 0x8f0ccc92; 0xffeff47d; 0x85845dd1;
    0x6fa87e4f; 0xfe2ce6e0; 0xa3014314; 0x4e0811a1;
    0xf7537e82; 0xbd3af235; 0x2ad7d2bb; 0xeb86d391 ].

(** Per-round left rotations. *)
Definition shifts : list Z :=
  [ 7; 12; 17; 22; 7; 12; 17; 22; 7; 12; 17; 22; 7; 12; 17; 22;
    5;  9; 14; 20; 5;  9; 14; 20; 5;  9; 14; 20; 5;  9; 14; 20;
    4; 11; 16; 23; 4; 11; 16; 23; 4; 11; 16; 23; 4; 11; 16; 23;
    6; 10; 15; 21; 6; 10; 15; 21; 6; 10; 15; 21; 6; 10; 15; 21 ].

(** The four chaining words. *)
Record state : Type := State { sa : Z; sb : Z; sc : Z; sd : Z }.

Definition init : state :=
  State 0x67452301 0xefcdab89 0x98badcfe 0x10325476.

(** The bytes of a [str.encode()]: the string already holds UTF-8. *)
Fixpoint bytes_of_string (s : string) : list Z :=
  match s with
  | EmptyString => []
  | String c t => Z.of_N (N_of_ascii c) :: bytes_of_string t
  end.

(** [n] as [count] little-endian bytes. *)
Fixpoint le_bytes (count : nat) (n : Z) : list Z :=
  match count with
  | O => []
  | S c => Z.land n 0xff :: le_bytes c (Z.shiftr n 8)
  end.

(** The message, a 1 bit, zeros up to 56 mod 64, the bit length on 64 bits. *)
Definition pad (msg : list Z) : list Z :=
  let len := Z.of_nat (length msg) in
  msg ++ [0x80] ++ repeat 0 (Z.to_nat ((55 - len) mod 64))
      ++ le_bytes 8 (8 * len).

(** A little-endian 32-bit word from 4 bytes. *)
Definition word_of (b0 b1 b2 b3 : Z) : Z :=
  Z.lor b0 (Z.lor (Z.shiftl b1 8) (Z.lor (Z.shiftl b2 16) (Z.shiftl b3 24))).

Fixpoint words_of (fuel : nat) (bs : list Z) : list Z :=
  match fuel, bs with
  | S f, b0 :: b1 :: b2 :: b3 :: rest => word_of b0 b1 b2 b3 :: words_of f rest
  | _, _ => []
  end.

(** One of the 64 operations on block [M]. *)
Definition step (M : list Z) (st : state) (i : nat) : state :=
  let '(State A B C D) := st in
  let '(F, g) :=
    if (i <? 16)%nat then
      (Z.lor (Z.land B C) (Z.land (not32 B) D), i)
    else if (i <? 32)%nat then
      (Z.lor (Z.land D B) (Z.land (not32 D) C), ((5 * i + 1) mod 16)%nat)
    else if (i <? 48)%nat then
      (Z.lxor (Z.lxor B C) D, ((3 * i + 5) mod 16)%nat)
    else
      (Z.lxor C (Z.lor B (not32 D)), ((7 * i) mod 16)%nat) in
  let F' := add32 (add32 (add32 F A) (nth i K 0)) (nth g M 0) in
  State D (add32 B (rotl32 F' (nth i shifts 0))) B C.

Definition process_block (st : state) (M : list Z) : state :=
  let '(State A B C D) := fold_left (step M) (seq 0 64) st in
  State (add32 (sa st) A) (add32 (sb st) B)
        (add32 (sc st) C) (add32 (sd st) D).

(** The padded message cut in blocks of 16 words. *)
Fixpoint blocks (fuel : nat) (ws : list Z) : list (list Z) :=
  match fuel, ws with
  | S f, _ :: _ => firstn 16 ws :: blocks f (skipn 16 ws)
  | _, _ => []
  end.

Definition digest_state (msg : list Z) : state :=
  let bs := pad msg in
  let ws := words_of (length bs) bs in
  fold_left process_block (blocks (length ws) ws) init.

Definition hex_digit (n : Z) : ascii :=
  if n <? 10 then ascii_of_N (Z.to_N (48 + n))
  else ascii_of_N (Z.to_N (87 + n)).

Definition hex_byte (b : Z) (rest : string) : string :=
  String (hex_digit (Z.shiftr b 4)) (String (hex_digit (Z.land b 0xf)) rest).

Definition hex_word (w : Z) (rest : string) : string :=
  hex_byte (Z.land w 0xff)
    (hex_byte (Z.land (Z.shiftr w 8) 0xff)
       (hex_byte (Z.land (Z.shiftr w 16) 0xff)
          (hex_byte (Z.land (Z.shiftr w 24) 0xff) rest))).

(** [hashlib.md5(data).hexdigest()] of the UTF-8 bytes of [s]. *)
Definition hexdigest (s : string) : string :=
  let st := digest_state (bytes_of_string s) in
  hex_word (sa st) (hex_word (sb st) (hex_word (sc st)
    (hex_word (sd st) EmptyString))).

End MD5.

(* ================================================================== *)
(** * JSON values, as [json.loads] returns them *)

#[local] Set Warnings "-register-all".
Inductive json : Type :=
| JNull
| JBool (b : bool)
| JInt (n : Z)
| JFloat (q : Q)
| JStr (s : string)
| JList (items : list json)
| JDict (fields : list (string * json)).

Module PyJson.

(** [isinstance(v, int)], with the value when it holds.  In Python [bool]
    is a subclass of [int]: [True] is an [int] equal to 1 and [False] one
    equal to 0. *)
Definition as_int (v : json) : option Z :=
  match v with
  | JInt n => Some n
  | JBool true => Some 1%Z
  | JBool false => Some 0%Z
  | _ => None
  end.

(** [for x in v]: the items of a list, the characters of a string, the
    keys of a dict; anything else is not iterable. *)
Definition iterate (v : json) : result (list json) :=
  match v with
  | JList items => Ok items
  | JStr s => Ok (map (fun c => JStr (String c EmptyString)) (list_ascii_of_string s))
  | JDict fields => Ok (map (fun kv => JStr (fst kv)) fields)
  | JNull | JBool _ | JInt _ | JFloat _ => Raise TypeError
  end.

(** [d[key]] on the fields of a dict, [None] when the key is absent. *)
Fixpoint lookup (key : string) (fields : list (string * json)) : option json :=
  match fields with
  | [] => None
  | (k, v) :: rest => if String.eqb k key then Some v else lookup key rest
  end.

End PyJson.

(* ================================================================== *)
(** * The expression selector *)

Module Selector.
Import PyRandom PyStr.
Local Open Scope string_scope.

(** ** Data *)

(** A row of the [Expression] table. *)
Record Expression : Type := mkExpression {
  id : Z;
  chat_id : string;
  type : string;
  situation : string;
  style : string;
  count : Q;
  last_active_time : Q;
  create_date : option Q
}.

(** The dictionaries the selector passes around.  A field is [None] when
    the key is absent: [d.get(k)] reads the field, [d[k]] raises
    [KeyError] on [None]. *)
Record expr_dict : Type := mkDict {
  d_id : option Z;
  d_situation : option string;
  d_style : option string;
  d_count : option Q;
  d_last_active_time : option Q;
  d_source_id : option string;
  d_type : option string;
  d_create_date : option Q
}.

(** [d[k]]. *)
Definition subscript {A : Type} (field : option A) : result A :=
  match field with
  | Some v => Ok v
  | None => Raise KeyError
  end.

(** The key of a reinforcement: (source chat_id, type, situation, style). *)
Definition key : Type := (string * string * string * string)%type.

Definition key_eqb (k1 k2 : key) : bool :=
  let '(a1, b1, c1, d1) := k1 in
  let '(a2, b2, c2, d2) := k2 in
  String.eqb a1 a2 && String.eqb b1 b2 && String.eqb c1 c2 && String.eqb d1 d2.

Definition row_key (r : Expression) : key :=
  (chat_id r, type r, situation r, style r).

(** A [save()] as the store sees it: row, new count, time written. *)
Record write : Type := mkWrite {
  w_id : Z;
  w_count : Q;
  w_time : Q
}.

(** What the selector reads and changes: the table, the random generator,
    the readings [time.time()] will return, and two logs kept for the
    statements below (the rows saved and the prompts sent to the LLM). *)
Record World : Type := mkWorld {
  db : list Expression;
  gen : rng;
  clock : nat -> Q;
  writes : list write;
  llm_prompts : list string
}.

(** Configuration and collaborators, read only.  [expression_config] is
    the first component of
    [global_config.expression.get_expression_config_for_chat(chat_id)];
    [llm_content] is the content [generate_response_async] answers to a
    prompt; [loads_repaired] is [repair_json] followed by [json.loads]. *)
Record Env : Type := mkEnv {
  expression_config : string -> result bool;
  expression_groups : list (list string);
  bot_nickname : string;
  llm_content : string -> result string;
  loads_repaired : string -> result json
}.

(** ** The state-and-exception monad *)

Definition M (A : Type) : Type := World -> result A * World.

Definition ret {A : Type} (a : A) : M A := fun w => (Ok a, w).

Definition bind {A B : Type} (m : M A) (f : A -> M B) : M B :=
  fun w =>
    match m w with
    | (Ok a, w') => f a w'
    | (Raise e, w') => (Raise e, w')
    end.

(** [try: m  except Exception: h]: what [m] wrote before raising stays. *)
Definition try_except {A : Type} (m : M A) (h : exn -> M A) : M A :=
  fun w =>
    match m w with
    | (Ok a, w') => (Ok a, w')
    | (Raise e, w') => if is_Exception e then h e w' else (Raise e, w')
    end.

Definition lift {A : Type} (r : result A) : M A := fun w => (r, w).

Declare Scope py_scope.
Delimit Scope py_scope with py.
Notation "x <- m ;; f" := (bind m (fun x => f))
  (at level 61, m at next level, right associativity) : py_scope.
Notation "m ;;; f" := (bind m (fun _ => f))
  (at level 61, right associativity) : py_scope.
Local Open Scope py_scope.

(** ** Permission check *)

Definition can_use_expression_for_chat (env : Env) (cid : string) : bool :=
  match expression_config env cid with
  | Ok use_expression => use_expression
  | Raise _ => false
  end.

(** ** Stream descriptors and groups *)

Definition _parse_stream_config_to_chat_id (stream_config_str : string)
  : option string :=
  match split ":" stream_config_str with
  | [platform; id_str; stream_type] =>
      let is_group := String.eqb stream_type "group" in
      let components :=
        if is_group then [platform; id_str]
        else [platform; id_str; "private"] in
      Some (MD5.hexdigest (join "_" components))
  | _ => None
  end.

(** The inner loop of [get_related_chat_ids]: the chat_ids of one group.
    The walrus test drops [None] and the empty string. *)
Fixpoint group_chat_ids_of (group : list string) : list string :=
  match group with
  | [] => []
  | stream_config_str :: rest =>
      match _parse_stream_config_to_chat_id stream_config_str with
      | Some chat_id_candidate =>
          if truthy chat_id_candidate
          then chat_id_candidate :: group_chat_ids_of rest
          else group_chat_ids_of rest
      | None => group_chat_ids_of rest
      end
  end.

(** [x in l] for strings. *)
Definition str_in (x : string) (l : list string) : bool :=
  existsb (String.eqb x) l.

Fixpoint related_in (groups : list (list string)) (cid : string)
  : list string :=
  match groups with
  | [] => [cid]
  | group :: rest =>
      let group_chat_ids := group_chat_ids_of group in
      if str_in cid group_chat_ids then group_chat_ids
      else related_in rest cid
  end.

Definition get_related_chat_ids (env : Env) (cid : string) : list string :=
  related_in (expression_groups env) cid.


(** ** Weighted retrieval *)

(** The dictionary [get_random_expressions] builds for a row. *)
Definition dict_of_row (expr : Expression) : expr_dict :=
  {| d_id := Some (id expr);
     d_situation := Some (situation expr);
     d_style := Some (style expr);
     d_count := Some (count expr);
     d_last_active_time := Some (last_active_time expr);
     d_source_id := Some (chat_id expr);
     d_type := Some "style";
     d_create_date :=
       match create_date expr with
       | Some d => Some d
       | None => Some (last_active_time expr)
       end |}.

(** [Expression.select().where(chat_id.in_(ids) & (type == "style"))].
    The query has no [ORDER BY]: the store may answer in any order, and
    the embedding takes the order of the table.  What is stated about
    retrieval does not depend on that choice: it speaks of the rows
    and of distinct places of the pool, never of their order. *)
Definition style_query (related_chat_ids : list string)
           (table : list Expression) : list Expression :=
  filter (fun expr => str_in (chat_id expr) related_chat_ids
                      && String.eqb (type expr) "style") table.

(** [expr.get("count", 1)]. *)
Definition weight_of (expr : expr_dict) : Q :=
  match d_count expr with
  | Some c => c
  | None => 1%Q
  end.

Definition get_random_expressions (env : Env) (cid : string) (total_num : Z)
  : M (list expr_dict) :=
  fun w =>
    let related_chat_ids := get_related_chat_ids env cid in
    let style_exprs := map dict_of_row (style_query related_chat_ids (db w)) in
    match style_exprs with
    | _ :: _ =>
        let style_weights := map weight_of style_exprs in
        let (selected_style, g') :=
          Sampler.weighted_sample style_exprs style_weights total_num (gen w) in
        (selected_style,
         {| db := db w; gen := g'; clock := clock w;
            writes := writes w; llm_prompts := llm_prompts w |})
    | [] => (Ok [], w)
    end.

(** ** Batch reinforcement *)

(** [min(x, y)] of Python: [y] when [y < x], else [x]. *)
Definition py_min (x y : Q) : Q := if Qlt_bool y x then y else x.

(** The key of an entry, or [None] when the guard
    [not source_id or not situation or not style] skips it. *)
Definition entry_key (expr : expr_dict) : option key :=
  let source_id := d_source_id expr in
  let expr_type := match d_type expr with Some t => t | None => "style" end in
  let situation := d_situation expr in
  let style := d_style expr in
  if negb (truthy_opt source_id) || negb (truthy_opt situation)
     || negb (truthy_opt style)
  then None
  else
    match source_id, situation, style with
    | Some a, Some c, Some d => Some (a, expr_type, c, d)
    | _, _, _ => None
    end.

(** [updates_by_key]: a dict in insertion order. *)
Definition key_in (k : key) (updates_by_key : list (key * expr_dict)) : bool :=
  existsb (fun kv => key_eqb (fst kv) k) updates_by_key.

(** The first loop: one entry per key, the first one met. *)
Fixpoint collect_updates (expressions_to_update : list expr_dict)
         (updates_by_key : list (key * expr_dict)) : list (key * expr_dict) :=
  match expressions_to_update with
  | [] => updates_by_key
  | expr :: rest =>
      match entry_key expr with
      | None => collect_updates rest updates_by_key          (* continue *)
      | Some k =>
          if key_in k updates_by_key
          then collect_updates rest updates_by_key
          else collect_updates rest (updates_by_key ++ [(k, expr)])
      end
  end.

(** The rows of the query on the four fields of a key, in table order. *)
Definition key_query (k : key) (table : list Expression) : list Expression :=
  filter (fun r => key_eqb (row_key r) k) table.

(** [query.get()]: the first row, when [query.exists()]. *)
Definition query_get (k : key) (table : list Expression) : option Expression :=
  match key_query k table with
  | [] => None
  | r :: _ => Some r
  end.

(** [expr_obj.save()]: the row of that primary key is rewritten. *)
Definition save (expr_obj : Expression) (table : list Expression)
  : list Expression :=
  map (fun r => if Z.eqb (id r) (id expr_obj) then expr_obj else r) table.

(** [time.time()]. *)
Definition time_time (w : World) : Q * World :=
  (clock w O,
   {| db := db w; gen := gen w; clock := fun i => clock w (S i);
      writes := writes w; llm_prompts := llm_prompts w |}).

(** The body of the second loop, for one key. *)
Definition update_one (increment : Q) (w : World) (k : key) : World :=
  match query_get k (db w) with
  | Some expr_obj =>
      let current_count := count expr_obj in
      let new_count := py_min (current_count + increment)%Q 5%Q in
      let (now, w1) := time_time w in
      let expr_obj' :=
        {| id := id expr_obj; chat_id := chat_id expr_obj;
           type := type expr_obj; situation := situation expr_obj;
           style := style expr_obj; count := new_count;
           last_active_time := now; create_date := create_date expr_obj |} in
      {| db := save expr_obj' (db w1); gen := gen w1; clock := clock w1;
         writes := writes w1 ++ [mkWrite (id expr_obj) new_count now];
         llm_prompts := llm_prompts w1 |}
  | None => w
  end.

Definition update_expressions_count_batch
           (expressions_to_update : list expr_dict) (increment : Q) : M unit :=
  fun w =>
    match expressions_to_update with
    | [] => (Ok tt, w)
    | _ :: _ =>
        let updates_by_key := collect_updates expressions_to_update [] in
        (Ok tt, fold_left (update_one increment) (map fst updates_by_key) w)
    end.

(** ** LLM-driven selection *)

Definition nl : string := String (ascii_of_nat 10) EmptyString.
Definition dquote : string := String (ascii_of_nat 34) EmptyString.

(** The template registered by [init_prompt], filled by [format]. *)
Definition expression_evaluation_prompt
           (chat_observe_info bot_name target_message all_situations : string)
           (max_num : Z) (target_message_extra_block : string) : string :=
  nl ++ "以下是正在进行的聊天内容：" ++ nl
  ++ chat_observe_info ++ nl
  ++ nl
  ++ "你的名字是" ++ bot_name ++ target_message ++ nl
  ++ nl
  ++ "以下是可选的表达情境：" ++ nl
  ++ all_situations ++ nl
  ++ nl
  ++ "请你分析聊天内容的语境、情绪、话题类型，从上述情境中选择最适合当前聊天情境的，最多"
  ++ str_of_int max_num ++ "个情境。" ++ nl
  ++ "考虑因素包括：" ++ nl
  ++ "1. 聊天的情绪氛围（轻松、严肃、幽默等）" ++ nl
  ++ "2. 话题类型（日常、技术、游戏、情感等）" ++ nl
  ++ "3. 情境与当前语境的匹配度" ++ nl
  ++ target_message_extra_block ++ nl
  ++ nl
  ++ "请以JSON格式输出，只需要输出选中的情境编号：" ++ nl
  ++ "例如：" ++ nl
  ++ "{" ++ nl
  ++ "    " ++ dquote ++ "selected_situations" ++ dquote
  ++ ": [2, 3, 5, 7, 19]" ++ nl
  ++ "}" ++ nl
  ++ nl
  ++ "请严格按照JSON格式输出，不要包含其他内容：" ++ nl.

(** The loop that numbers the candidates:
    [f"{len(all_expressions)}.当 {expr['situation']} 时，使用 {expr['style']}"]. *)
Fixpoint render_situations (n : Z) (style_exprs : list expr_dict)
  : result (list string) :=
  match style_exprs with
  | [] => Ok []
  | expr :: rest =>
      match subscript (d_situation expr), subscript (d_style expr) with
      | Ok sit, Ok sty =>
          result_map
            (cons (str_of_int n ++ ".当 " ++ sit ++ " 时，使用 " ++ sty))
            (render_situations (n + 1) rest)
      | Raise e, _ => Raise e
      | _, Raise e => Raise e
      end
  end.

(** The world once a prompt is sent. *)
Definition prompt_sent (prompt : string) (w : World) : World :=
  {| db := db w; gen := gen w; clock := clock w; writes := writes w;
     llm_prompts := llm_prompts w ++ [prompt] |}.

(** [generate_response_async(prompt)]: the prompt is logged as sent. *)
Definition generate_response (env : Env) (prompt : string) : M string :=
  fun w => (llm_content env prompt, prompt_sent prompt w).

(** The loop over [selected_indices], with its two accumulators. *)
Fixpoint pick_loop (all_expressions : list expr_dict)
         (selected_indices : list json)
         (valid_expressions : list expr_dict) (selected_ids : list Z)
  : result (list expr_dict * list Z) :=
  match selected_indices with
  | [] => Ok (valid_expressions, selected_ids)
  | idx :: rest =>
      match PyJson.as_int idx with
      | Some i =>
          if ((1 <=? i) && (i <=? Z.of_nat (length all_expressions)))%Z then
            match nth_error all_expressions (Z.to_nat (i - 1)) with
            | Some expression =>
                match subscript (d_id expression) with
                | Ok eid =>
                    pick_loop all_expressions rest
                              (valid_expressions ++ [expression])
                              (selected_ids ++ [eid])
                | Raise e => Raise e
                end
            | None => Raise IndexError
            end
          else pick_loop all_expressions rest valid_expressions selected_ids
      | None => pick_loop all_expressions rest valid_expressions selected_ids
      end
  end.

Definition empty_selection : list expr_dict * list Z := ([], []).

(** The guarded part of [select_suitable_expressions_llm]. *)
Definition select_from_llm (env : Env) (all_expressions : list expr_dict)
           (prompt : string) : M (list expr_dict * list Z) :=
  content <- generate_response env prompt ;;
  if negb (truthy content) then ret empty_selection
  else
    result <- lift (loads_repaired env content) ;;
    match result with
    | JDict fields =>
        match PyJson.lookup "selected_situations" fields with
        | None => ret empty_selection
        | Some selected_indices =>
            items <- lift (PyJson.iterate selected_indices) ;;
            picked <- lift (pick_loop all_expressions items [] []) ;;
            let '(valid_expressions, selected_ids) := picked in
            match valid_expressions with
            | _ :: _ =>
                update_expressions_count_batch valid_expressions (3 # 500) ;;;
                ret (valid_expressions, selected_ids)
            | [] => ret (valid_expressions, selected_ids)
            end
        end
    | _ => ret empty_selection
    end.

(** The prompt, from the numbered lines of the candidates. *)
Definition selection_prompt (env : Env) (chat_info : string) (max_num : Z)
           (target_message : option string) (all_situations : list string)
  : string :=
  let all_situations_str := join nl all_situations in
  let '(target_message_str, target_message_extra_block) :=
    if truthy_opt target_message then
      ("，现在你想要回复消息："
         ++ match target_message with Some t => t | None => "" end,
       "4.考虑你要回复的目标消息")
    else ("", "") in
  expression_evaluation_prompt chat_info (bot_nickname env)
    target_message_str all_situations_str max_num
    target_message_extra_block.

Definition select_suitable_expressions_llm (env : Env) (cid chat_info : string)
           (max_num : Z) (target_message : option string)
  : M (list expr_dict * list Z) :=
  if negb (can_use_expression_for_chat env cid) then ret empty_selection
  else
    style_exprs <- get_random_expressions env cid 10 ;;
    if (length style_exprs <? 10)%nat then ret empty_selection
    else
      let all_expressions := style_exprs in
      all_situations <- lift (render_situations 1 style_exprs) ;;
      match all_expressions with
      | [] => ret empty_selection
      | _ :: _ =>
          let prompt :=
            selection_prompt env chat_info max_num target_message
                             all_situations in
          try_except (select_from_llm env all_expressions prompt)
                     (fun _ => ret empty_selection)
      end.

End Selector.

(* ================================================================== *)
(** * The PFC reply generator *)

Module ReplyGenerator.
Import PyStr.
Local Open Scope string_scope.

(** [UserInfo.from_dict(msg.get("user_info", {}))]: absent fields are
    [None]. *)
Record UserInfo : Type := mkUserInfo {
  user_id : option string;
  user_nickname : option string
}.

(** A message of the observed history: a dict whose keys may be absent. *)
Record message : Type := mkMessage {
  msg_time : option Q;
  msg_user_info : option UserInfo;
  msg_processed_plain_text : option string
}.

(** The knowledge cache: annotated as a dict, a list is accepted too. *)
Inductive knowledge : Type :=
| KDict (items : list (string * string))
| KList (items : list string).

(** The generator's fields and collaborators.  The three observer calls
    and the LLM call may raise.  [format_time t] is
    [datetime.datetime.fromtimestamp(t).strftime("%H:%M:%S")], a call of
    the standard library in the local time zone of the process: it
    raises ([ValueError], [OverflowError] or [OSError]) on a timestamp
    the platform or [datetime] cannot represent. *)
Record Env : Type := mkEnv {
  name : string;
  personality_info : string;
  trigger_update : result unit;
  wait_for_update : result bool;
  get_message_history : Z -> result (list message);
  llm_generate : string -> result string;
  format_time : Q -> result string
}.

Definition rbind {A B : Type} (r : result A) (f : A -> result B) : result B :=
  match r with
  | Ok a => f a
  | Raise e => Raise e
  end.

Declare Scope result_scope.
Delimit Scope result_scope with result.
Notation "x <- r ;; f" := (rbind r (fun x => f))
  (at level 61, r at next level, right associativity) : result_scope.

(** [try: r  except Exception: h]. *)
Definition try_except {A : Type} (r : result A) (h : exn -> result A)
  : result A :=
  match r with
  | Ok a => Ok a
  | Raise e => if is_Exception e then h e else Raise e
  end.

(** [str(x)] of an optional string: [None] prints as ["None"]. *)
Definition py_str (o : option string) : string :=
  match o with
  | Some s => s
  | None => "None"
  end.

(** One line of [chat_history_text]; [msg["time"]] raises [KeyError] when
    the key is absent and the conversion of the timestamp may raise;
    the other fields are read with [get]. *)
Definition render_message (env : Env) (msg : message) : result string :=
  match msg_time msg with
  | None => Raise KeyError
  | Some t =>
      match format_time env t with
      | Raise e => Raise e
      | Ok time_str =>
          let user_info :=
            match msg_user_info msg with
            | Some u => u
            | None => mkUserInfo None None
            end in
          let sender :=
            if truthy_opt (user_nickname user_info)
            then py_str (user_nickname user_info)
            else "用户" ++ py_str (user_id user_info) in
          let sender :=
            if String.eqb sender (name env) then "你说" else sender in
          Ok (time_str ++ "," ++ sender ++ ":"
                ++ match msg_processed_plain_text msg with
                   | Some s => s
                   | None => ""
                   end
                ++ Selector.nl)
      end
  end.

Fixpoint render_history (env : Env) (messages : list message)
         (chat_history_text : string) : result string :=
  match messages with
  | [] => Ok chat_history_text
  | msg :: rest =>
      match render_message env msg with
      | Ok line => render_history env rest (chat_history_text ++ line)
      | Raise e => Raise e
      end
  end.

Definition knowledge_text_of (knowledge_cache : knowledge) : string :=
  let nl := Selector.nl in
  match knowledge_cache with
  | KDict [] | KList [] => ""
  | KDict items =>
      fold_left (fun acc kv => acc ++ nl ++ snd kv) items (nl ++ "相关知识：")
  | KList items =>
      fold_left (fun acc item => acc ++ nl ++ item) items (nl ++ "相关知识：")
  end.

Definition apology : string := "抱歉，我现在有点混乱，让我重新思考一下...".

Definition build_prompt (env : Env) (goal knowledge_text previous_reply_text
                         chat_history_text : string) (has_previous : bool)
  : string :=
  let nl := Selector.nl in
  let q := Selector.dquote in
  let personality_text := "你的名字是" ++ name env ++ "，" ++ personality_info env in
  personality_text ++ "。现在你在参与一场QQ聊天，请根据以下信息生成回复：" ++ nl
  ++ nl
  ++ "当前对话目标：" ++ goal ++ nl
  ++ knowledge_text ++ nl
  ++ previous_reply_text ++ nl
  ++ "最近的聊天记录：" ++ nl
  ++ chat_history_text ++ nl
  ++ nl
  ++ "请根据上述信息，以你的性格特征生成一个自然、得体的回复。回复应该：" ++ nl
  ++ "1. 符合对话目标，以" ++ q ++ "你" ++ q ++ "的角度发言" ++ nl
  ++ "2. 体现你的性格特征" ++ nl
  ++ "3. 自然流畅，像正常聊天一样，简短" ++ nl
  ++ "4. 适当利用相关知识，但不要生硬引用" ++ nl
  ++ (if has_previous then "5. 改进上一次回复中的问题" else "") ++ nl
  ++ nl
  ++ "请注意把握聊天内容，不要回复的太有条理，可以有个性。请分清" ++ q ++ "你" ++ q
  ++ "和对方说的话，不要把" ++ q ++ "你" ++ q
  ++ "说的话当做对方说的话，这是你自己说的话。" ++ nl
  ++ "请你回复的平淡一些，简短一些，说中文，不要刻意突出自身学科背景，尽量不要说你说过的话 " ++ nl
  ++ "请你注意不要输出多余内容(包括前后缀，冒号和引号，括号，表情等)，只输出回复内容。" ++ nl
  ++ "不要输出多余内容(包括前后缀，冒号和引号，括号，表情包，at或 @等 )。" ++ nl
  ++ nl
  ++ "请直接输出回复内容，不需要任何额外格式。".

(** The part of [generate] before its [try]: the observer is refreshed,
    the history is read and rendered, the prompt is composed.  Nothing
    here is guarded. *)
Definition compose_prompt (env : Env) (goal : string)
           (knowledge_cache : knowledge) (previous_reply : option string)
  : result string :=
  (_ <- trigger_update env ;;
   _ <- wait_for_update env ;;
   messages <- get_message_history env 20 ;;
   chat_history_text <- render_history env messages "" ;;
   let knowledge_text := knowledge_text_of knowledge_cache in
   let previous_reply_text :=
     if truthy_opt previous_reply
     then Selector.nl ++ "上一次生成的回复（需要改进）：" ++ Selector.nl
          ++ py_str previous_reply
     else "" in
   Ok (build_prompt env goal knowledge_text previous_reply_text
                    chat_history_text (truthy_opt previous_reply)))%result.

(** [ReplyGenerator.generate].  [chat_history] and [retry_count] are
    accepted and never read. *)
Definition generate (env : Env) (goal : string) (chat_history : list message)
           (knowledge_cache : knowledge) (previous_reply : option string)
           (retry_count : Z) : result string :=
  (prompt <- compose_prompt env goal knowledge_cache previous_reply ;;
   try_except (llm_generate env prompt) (fun _ => Ok apology))%result.

End ReplyGenerator.

(* ================================================================== *)
(** * Vocabulary of the statements *)

(** Where position [j] of a list after [pop(i)] was before it. *)
Definition unpop (i j : nat) : nat := if j <? i then j else S j.

(** The running sums of [ws] started at [acc], [acc] included:
    [accumulate (w :: t)] is [cumfrom w t]. *)
Definition cumfrom (acc : Q) (ws : list Q) : list Q :=
  acc :: PyRandom.accumulate_from acc ws.

(** How many weights are greater than zero. *)
Definition positives (ws : list Q) : nat :=
  length (filter (fun w => Qlt_bool 0%Q w) ws).

(** The exact sum of the weights. *)
Definition total_weight (ws : list Q) : Q := fold_right Qplus 0%Q ws.

(** The weights are small enough for their float sums to stay finite.
    A float sum of non-negative weights is at most twice their exact
    sum (an addition rounds up by at most what it adds), so under this
    bound neither a running sum nor the total overflows, in the exact
    arithmetic of the embedding and in the rounded one. *)
Definition sums_stay_finite (ws : list Q) : Prop :=
  (2 * total_weight ws <= PyRandom.float_max)%Q.

(** Twice the smallest normal float, [2^-1021]: a weight of at least
    this much keeps the total out of the subnormal range, where the
    product [r * total] can round up to the total itself. *)
Definition float_tiny : Q := 1 # (2 ^ 1021).

(** The largest value [random.random()] returns, [1 - 2^-53]. *)
Definition random_max : Q := 1 - (1 # (2 ^ 53)).

(** What the sampler needs with [k] draws to go: non-negative weights
    of finite total, at least [k] of them positive, and draws in
    [[0, 1)]. *)
Definition enough_positive (k : nat) (wc : list Q) (g : PyRandom.rng) : Prop :=
  Forall (fun w => (0 <= w)%Q) wc
  /\ k <= positives wc
  /\ (forall j, (0 <= g j < 1)%Q)
  /\ (total_weight wc <= PyRandom.float_max)%Q.

(** [c] is one of [0-9a-f]. *)
Definition is_lower_hex (c : ascii) : bool :=
  let n := nat_of_ascii c in
  ((48 <=? n) && (n <=? 57)) || ((97 <=? n) && (n <=? 102)).

(** Every character of [s] satisfies [p]. *)
Fixpoint all_chars (p : ascii -> bool) (s : string) : bool :=
  match s with
  | EmptyString => true
  | String c t => p c && all_chars p t
  end.

(** The chat_ids a group stands for: one per descriptor that parses, in
    the order of the descriptors. *)
Definition derived_chat_ids (group : list string) : list string :=
  flat_map (fun descriptor =>
              match Selector._parse_stream_config_to_chat_id descriptor with
              | Some cid => [cid]
              | None => []
              end) group.

(** The keys a batch is reduced to, in the order the second loop of
    [update_expressions_count_batch] visits them. *)
Definition batch_keys (batch : list Selector.expr_dict) : list Selector.key :=
  map fst (Selector.collect_updates batch []).

(** The primary keys of the rows the keys match in a table, key by key:
    the row [query.get()] returns, nothing for a key without row. *)
Definition matched_ids (keys : list Selector.key)
           (table : list Selector.Expression) : list Z :=
  flat_map (fun k => match Selector.query_get k table with
                     | Some r => [Selector.id r]
                     | None => []
                     end) keys.

(** The candidate an entry of [selected_situations] designates: entry [i]
    designates candidate [i - 1] when it is an [int] with
    [1 <= i <= len(all_expressions)], and nothing otherwise. *)
Definition designated (all_expressions : list Selector.expr_dict) (idx : json)
  : option Selector.expr_dict :=
  match PyJson.as_int idx with
  | Some i =>
      if ((1 <=? i) && (i <=? Z.of_nat (length all_expressions)))%Z
      then nth_error all_expressions (Z.to_nat (i - 1))
      else None
  | None => None
  end.

Definition designated_all (all_expressions : list Selector.expr_dict)
           (items : list json) : list Selector.expr_dict :=
  flat_map (fun idx => match designated all_expressions idx with
                       | Some expression => [expression]
                       | None => []
                       end) items.

(** The row [update_expressions_count_batch] saves in place of [r] when
    the clock reads [now]. *)
Definition reinforced (increment now : Q) (r : Selector.Expression)
  : Selector.Expression :=
  {| Selector.id := Selector.id r;
     Selector.chat_id := Selector.chat_id r;
     Selector.type := Selector.type r;
     Selector.situation := Selector.situation r;
     Selector.style := Selector.style r;
     Selector.count := Selector.py_min (Selector.count r + increment)%Q 5%Q;
     Selector.last_active_time := now;
     Selector.create_date := Selector.create_date r |}.

(** The world after [n] successive calls of
    [update_expressions_count_batch] with the same batch. *)
Fixpoint reinforce_times (n : nat) (batch : list Selector.expr_dict)
         (increment : Q) (w : Selector.World) : Selector.World :=
  match n with
  | O => w
  | S n' =>
      reinforce_times n' batch increment
        (snd (Selector.update_expressions_count_batch batch increment w))
  end.

(* ================================================================== *)
(** * Sample worlds *)

Module Fixtures.
Import Selector.
Local Open Scope string_scope.

Definition style_row (i : Z) (sit sty : string) (c : Q) : Expression :=
  {| id := i; chat_id := "chat"; type := "style"; situation := sit;
     style := sty; count := c; last_active_time := 1700000000%Q;
     create_date := None |}.

(** Ten style rows of the chat ["chat"]; the first has situation [sit1]. *)
Definition table_with (sit1 : string) : list Expression :=
  [ style_row 1 sit1 "t1" 1%Q;         style_row 2 "s2" "t2" 1%Q;
    style_row 3 "s3" "t3" (3 # 2)%Q;   style_row 4 "s4" "t4" 1%Q;
    style_row 5 "s5" "t5" 2%Q;         style_row 6 "s6" "t6" 1%Q;
    style_row 7 "s7" "t7" 1%Q;         style_row 8 "s8" "t8" (499 # 100)%Q;
    style_row 9 "s9" "t9" 1%Q;         style_row 10 "s10" "t10" 5%Q ].

Definition table : list Expression := table_with "s1".

Definition world_of (rows : list Expression) : World :=
  {| db := rows;
     gen := fun _ => (1 # 2)%Q;
     clock := fun n => inject_Z (1700000100 + Z.of_nat n);
     writes := [];
     llm_prompts := [] |}.

(** An LLM whose answer parses to [{"selected_situations": items}]. *)
Definition env_of (allowed : bool) (groups : list (list string))
           (items : list json) : Env :=
  {| expression_config := fun _ => Ok allowed;
     expression_groups := groups;
     bot_nickname := "bot";
     llm_content := fun _ => Ok "answer";
     loads_repaired :=
       fun _ => Ok (JDict [("selected_situations", JList items)]) |}.

Definition heard (t : option Q) (text : string) : ReplyGenerator.message :=
  {| ReplyGenerator.msg_time := t;
     ReplyGenerator.msg_user_info :=
       Some (ReplyGenerator.mkUserInfo (Some "42") (Some "alice"));
     ReplyGenerator.msg_processed_plain_text := Some text |}.

(** A reply generator over a fixed history and LLM.  Its clock accepts
    the timestamps from 1970 to the end of the year 9999 and prints
    them all alike; beyond, it raises as [datetime.fromtimestamp] does
    on a 64-bit platform. *)
Definition generator_of (history : list ReplyGenerator.message)
           (llm : string -> result string) : ReplyGenerator.Env :=
  {| ReplyGenerator.name := "bot";
     ReplyGenerator.personality_info := "calm";
     ReplyGenerator.trigger_update := Ok tt;
     ReplyGenerator.wait_for_update := Ok true;
     ReplyGenerator.get_message_history := fun _ => Ok history;
     ReplyGenerator.llm_generate := llm;
     ReplyGenerator.format_time :=
       fun t => if Qle_bool 0 t && Qle_bool t 253402300799
                then Ok "12:00:00"
                else if Qle_bool t (2 ^ 63) then Raise ValueError
                     else Raise OverflowError |}.

End Fixtures.

(* ################################################################## *)
(** * Properties *)

(** ** Test vectors of RFC 1321 for the MD5 model *)

Example md5_empty :
  MD5.hexdigest "" = "d41d8cd98f00b204e9800998ecf8427e"%string.
Proof. vm_compute. reflexivity. Qed.

Example md5_abc :
  MD5.hexdigest "abc" = "900150983cd24fb0d6963f7d28e17f72"%string.
Proof. vm_compute. reflexivity. Qed.

Example md5_two_blocks :
  MD5.hexdigest "aaaaaaaaaaaaaaaaaaaaaaaaaaaaaaaaaaaaaaaaaaaaaaaaaaaaaaaa"
  = "3b0c8ac703f828b04c6c197006d17218"%string.
Proof. vm_compute. reflexivity. Qed.

(* ================================================================== *)
(** ** The weighted sampler *)

Section SamplerFacts.
Import PyRandom Sampler.

(** *** [list.pop] *)

Lemma pop_some (A : Type) (i : nat) (l : list A) :
  i < length l ->
  exists x l', pop i l = Some (x, l')
               /\ nth_error l i = Some x
               /\ length l = S (length l')
               /\ forall j, nth_error l' j = nth_error l (unpop i j).
Proof.
  revert i; induction l as [| a l IH]; intros i Hi; simpl in Hi.
  - lia.
  - destruct i as [| i].
    + exists a, l. repeat split.
    + destruct (IH i) as (x & l' & Hp & Hn & Hl & Hj); [lia |].
      exists x, (a :: l'). simpl. rewrite Hp.
      split; [reflexivity |]. split; [assumption |].
      split; [now rewrite Hl |].
      intros [| j]; [reflexivity |].
      simpl. rewrite Hj. unfold unpop.
      change (S j <? S i) with (j <? i). now destruct (j <? i).
Qed.

Lemma pop_In (A : Type) (i : nat) (l l' : list A) (x y : A) :
  pop i l = Some (x, l') -> In y l' -> In y l.
Proof.
  revert i l' x; induction l as [| a l IH]; intros i l' x Hp Hy.
  - destruct i; discriminate.
  - destruct i as [| i]; simpl in Hp.
    + inversion Hp; subst. now right.
    + destruct (pop i l) as [[z t] |] eqn:E; [| discriminate].
      inversion Hp; subst. destruct Hy as [-> | Hy]; [now left |].
      right. eapply IH; eauto.
Qed.

Lemma unpop_inj (i j1 j2 : nat) : unpop i j1 = unpop i j2 -> j1 = j2.
Proof.
  unfold unpop.
  destruct (Nat.ltb_spec j1 i), (Nat.ltb_spec j2 i); lia.
Qed.

Lemma unpop_neq (i j : nat) : unpop i j <> i.
Proof. unfold unpop. destruct (Nat.ltb_spec j i); lia. Qed.

(** *** [bisect] stays between its bounds *)

Lemma half_between (lo hi : nat) : lo < hi -> lo <= (lo + hi) / 2 < hi.
Proof.
  intros H. split.
  - apply Nat.div_le_lower_bound; lia.
  - apply Nat.Div0.div_lt_upper_bound; lia.
Qed.

Lemma bisect_loop_bounds (fuel : nat) (a : list Q) (x : Q) (lo hi : nat) :
  lo <= hi -> lo <= bisect_loop fuel a x lo hi <= hi.
Proof.
  revert lo hi; induction fuel as [| fuel IH]; intros lo hi Hle;
    cbn [bisect_loop].
  - lia.
  - destruct (Nat.ltb_spec lo hi) as [Hlt | Hge]; [| lia].
    pose proof (half_between Hlt) as Hmid.
    destruct (Qlt_bool x (nth ((lo + hi) / 2) a 0%Q)).
    + specialize (IH lo ((lo + hi) / 2)). lia.
    + specialize (IH ((lo + hi) / 2 + 1) hi). lia.
Qed.

Lemma bisect_bounds (a : list Q) (x : Q) (hi : nat) : bisect a x 0 hi <= hi.
Proof. unfold bisect. apply bisect_loop_bounds. lia. Qed.

(** *** Running sums of positive weights *)

Lemma accumulate_from_length (acc : Q) (ws : list Q) :
  length (accumulate_from acc ws) = length ws.
Proof. revert acc; induction ws; intros; simpl; auto. Qed.

Lemma accumulate_length (ws : list Q) : length (accumulate ws) = length ws.
Proof. destruct ws; simpl; [| rewrite accumulate_from_length]; auto. Qed.

Lemma accumulate_from_pos (acc : Q) (ws : list Q) :
  (0 < acc)%Q -> Forall (fun w => (0 < w)%Q) ws ->
  Forall (fun c => (0 < c)%Q) (accumulate_from acc ws).
Proof.
  revert acc; induction ws as [| w ws IH]; intros acc Hacc Hws; simpl.
  - constructor.
  - inversion Hws; subst.
    assert (0 < acc + w)%Q.
    { rewrite <- (Qplus_0_l 0). apply Qplus_lt_le_compat; auto.
      now apply Qlt_le_weak. }
    constructor; auto.
Qed.

Lemma accumulate_pos (ws : list Q) :
  Forall (fun w => (0 < w)%Q) ws ->
  Forall (fun c => (0 < c)%Q) (accumulate ws).
Proof.
  destruct ws as [| w ws]; intros H; simpl; [constructor |].
  inversion H; subst. constructor; auto using accumulate_from_pos.
Qed.

(** *** The total of the weights *)

Lemma last_default (A : Type) (l : list A) (d d' : A) :
  l <> [] -> last l d = last l d'.
Proof.
  induction l as [| y l IH]; intros H; [contradiction |].
  destruct l as [| z l]; [reflexivity |].
  change (last (z :: l) d = last (z :: l) d'). apply IH. discriminate.
Qed.

Lemma list_last_cons (A : Type) (l : list A) (x d : A) :
  l <> [] -> last (x :: l) d = last l x.
Proof.
  intros H. destruct l as [| y l]; [contradiction |].
  change (last (y :: l) d = last (y :: l) x). now apply last_default.
Qed.

Lemma accumulate_from_last (ws : list Q) :
  forall acc : Q,
    (last (accumulate_from acc ws) acc == acc + total_weight ws)%Q.
Proof.
  unfold total_weight.
  induction ws as [| w t IH]; intros acc.
  - simpl. ring.
  - cbn [accumulate_from fold_right].
    destruct t as [| w' t'].
    + simpl. ring.
    + rewrite list_last_cons by discriminate. rewrite IH. ring.
Qed.

Lemma rev_head_last (A : Type) (l : list A) (x d : A) (r : list A) :
  rev l = x :: r -> last l d = x.
Proof.
  intros H. apply (f_equal (@rev A)) in H. rewrite rev_involutive in H.
  subst l. simpl. apply last_last.
Qed.

(** The last running sum is the sum of the weights. *)
Lemma accumulate_total (ws : list Q) (total : Q) (r : list Q) :
  rev (accumulate ws) = total :: r -> (total == total_weight ws)%Q.
Proof.
  destruct ws as [| w t]; [discriminate |].
  intros H. apply rev_head_last with (d := w) in H.
  cbn [accumulate] in H. rewrite <- H.
  destruct t as [| w' t'].
  - unfold total_weight. simpl. ring.
  - rewrite list_last_cons by discriminate.
    rewrite accumulate_from_last. unfold total_weight. cbn [fold_right].
    reflexivity.
Qed.

Lemma float_max_pos : (0 < float_max)%Q.
Proof. reflexivity. Qed.

Lemma sums_stay_finite_total (ws : list Q) :
  sums_stay_finite ws -> (total_weight ws <= float_max)%Q.
Proof.
  unfold sums_stay_finite. pose proof float_max_pos.
  generalize dependent float_max. intros M HM H. lra.
Qed.

Lemma isfinite_total (ws : list Q) (total : Q) (r : list Q) :
  rev (accumulate ws) = total :: r ->
  (total_weight ws <= float_max)%Q ->
  isfinite total = true.
Proof.
  intros Hr Hb. apply accumulate_total in Hr.
  unfold isfinite. apply Qle_bool_iff. now rewrite Hr.
Qed.

Lemma pop_total (i : nat) (ws ws' : list Q) (w : Q) :
  pop i ws = Some (w, ws') ->
  (total_weight ws == w + total_weight ws')%Q.
Proof.
  unfold total_weight. revert i ws' w.
  induction ws as [| a t IH]; intros i ws' w H.
  - destruct i; discriminate.
  - destruct i as [| i]; simpl in H.
    + inversion H; subst. reflexivity.
    + destruct (pop i t) as [[y t'] |] eqn:E; [| discriminate].
      inversion H; subst. cbn [fold_right]. rewrite (IH _ _ _ E). ring.
Qed.

(** With positive weights [random.choices] answers a position of the
    population, whatever the generator returns. *)
Lemma choices_range_positive (n : nat) (weights : list Q) (g : rng) :
  0 < n -> length weights = n ->
  Forall (fun w => (0 < w)%Q) weights ->
  (total_weight weights <= float_max)%Q ->
  exists idx, choices_range n weights g = (Ok idx, snd (random g))
              /\ idx < n.
Proof.
  intros Hn Hlen Hpos Hfin. unfold choices_range.
  rewrite accumulate_length, Hlen, Nat.eqb_refl. simpl negb. cbv iota.
  pose proof (accumulate_pos Hpos) as Hcum.
  pose proof (accumulate_length weights) as Hl.
  destruct (rev (accumulate weights)) as [| total rest] eqn:Er.
  - apply (f_equal (@length Q)) in Er. rewrite length_rev in Er.
    simpl in Er. lia.
  - assert (Htot : (0 < total)%Q).
    { rewrite Forall_forall in Hcum. apply Hcum.
      apply in_rev. rewrite Er. now left. }
    destruct (Qle_bool total 0) eqn:Eb.
    + apply Qle_bool_iff in Eb. exfalso. eapply Qlt_not_le; eauto.
    + rewrite (isfinite_total _ Er Hfin). cbn [negb random].
      eexists; split; [reflexivity |].
      pose proof (bisect_bounds (accumulate weights) (g O * total)%Q (n - 1)).
      lia.
Qed.
End SamplerFacts.

Section SamplerDraws.
Import PyRandom Sampler.

(** *** Running sums of non-negative weights *)

Lemma cumfrom_cons (acc w : Q) (t : list Q) :
  cumfrom acc (w :: t) = acc :: cumfrom (acc + w)%Q t.
Proof. reflexivity. Qed.

Lemma accumulate_cumfrom (w : Q) (t : list Q) : accumulate (w :: t) = cumfrom w t.
Proof. reflexivity. Qed.

Lemma cumfrom_step (ws : list Q) :
  forall (acc : Q) (j : nat),
    j < length ws ->
    nth (S j) (cumfrom acc ws) 0%Q = (nth j (cumfrom acc ws) 0%Q + nth j ws 0%Q)%Q.
Proof.
  induction ws as [| w t IH]; intros acc j Hj; simpl in Hj; [lia |].
  rewrite cumfrom_cons. destruct j as [| j].
  - reflexivity.
  - change (nth (S (S j)) (acc :: cumfrom (acc + w) t) 0%Q)
      with (nth (S j) (cumfrom (acc + w) t) 0%Q).
    rewrite IH by lia. reflexivity.
Qed.

Lemma cumfrom_mono (ws : list Q) (acc : Q) :
  Forall (fun w => (0 <= w)%Q) ws ->
  forall j1 j2, j1 <= j2 -> j2 <= length ws ->
    (nth j1 (cumfrom acc ws) 0 <= nth j2 (cumfrom acc ws) 0)%Q.
Proof.
  intros Hws j1 j2 Hle. induction Hle as [| j2 Hle IH]; intros Hlen.
  - apply Qle_refl.
  - rewrite cumfrom_step by lia.
    assert (0 <= nth j2 ws 0)%Q.
    { rewrite Forall_forall in Hws. apply Hws. apply nth_In. lia. }
    specialize (IH ltac:(lia)). lra.
Qed.

(** *** Binary search on a sorted list *)

(** On a non-decreasing list, between a lower part known to be at most
    [x] and an upper element known to be above [x], the search stops at
    the first element above [x]. *)
Lemma bisect_loop_spec (a : list Q) (x : Q) :
  (forall j1 j2, j1 <= j2 -> j2 < length a -> (nth j1 a 0 <= nth j2 a 0)%Q) ->
  forall fuel lo hi,
    hi - lo <= fuel -> lo <= hi -> hi < length a ->
    (forall j, j < lo -> (nth j a 0 <= x)%Q) ->
    (x < nth hi a 0)%Q ->
    lo <= bisect_loop fuel a x lo hi <= hi
    /\ (forall j, j < bisect_loop fuel a x lo hi -> (nth j a 0 <= x)%Q)
    /\ (x < nth (bisect_loop fuel a x lo hi) a 0)%Q.
Proof.
  intros Hsorted. induction fuel as [| fuel IH]; intros lo hi Hfuel Hle Hhi Hlow Hhigh; cbn [bisect_loop].
  - assert (lo = hi) by lia. subst. repeat split; auto.
  - destruct (Nat.ltb_spec lo hi) as [Hlt | Hge].
    + pose proof (half_between Hlt) as Hmid.
      destruct (Qlt_bool x (nth ((lo + hi) / 2) a 0%Q)) eqn:E.
      * unfold Qlt_bool in E. apply negb_true_iff in E.
        assert (x < nth ((lo + hi) / 2) a 0)%Q.
        { apply Qnot_le_lt. intros H. apply Qle_bool_iff in H. congruence. }
        destruct (IH lo ((lo + hi) / 2)) as (Hb & Hl & Hh); try lia; auto.
        repeat split; auto; lia.
      * unfold Qlt_bool in E. apply negb_false_iff in E. apply Qle_bool_iff in E.
        destruct (IH ((lo + hi) / 2 + 1) hi) as (Hb & Hl & Hh); try lia; auto.
        { intros j Hj. apply Qle_trans with (nth ((lo + hi) / 2) a 0%Q); auto.
          apply Hsorted; lia. }
        repeat split; auto; lia.
    + assert (lo = hi) by lia. subst. repeat split; auto.
Qed.

(** *** A draw lands on a positive weight *)

Lemma rev_head_is_last (A : Type) (l : list A) (x d : A) (r : list A) :
  rev l = x :: r -> nth (length l - 1) l d = x.
Proof.
  intros H. apply (f_equal (@rev A)) in H. rewrite rev_involutive in H.
  subst l. simpl. rewrite length_app. simpl.
  replace (length (rev r) + 1 - 1) with (length (rev r)) by lia.
  apply nth_middle.
Qed.

Lemma Qlt_bool_iff (x y : Q) : Qlt_bool x y = true <-> (x < y)%Q.
Proof.
  unfold Qlt_bool. rewrite negb_true_iff. split.
  - intros H. apply Qnot_le_lt. intros Hle. apply Qle_bool_iff in Hle. congruence.
  - intros H. destruct (Qle_bool y x) eqn:E; [| reflexivity].
    apply Qle_bool_iff in E. lra.
Qed.

Lemma positives_exists (ws : list Q) :
  0 < positives ws -> exists j, j < length ws /\ (0 < nth j ws 0)%Q.
Proof.
  unfold positives. induction ws as [| w t IH]; simpl; [lia |].
  destruct (Qlt_bool 0 w) eqn:E.
  - intros _. exists 0. split; [lia |]. now apply Qlt_bool_iff.
  - intros H. destruct (IH H) as (j & Hj & Hp). exists (S j). split; [lia | exact Hp].
Qed.

Lemma pop_positives (i : nat) (ws ws' : list Q) (w : Q) :
  pop i ws = Some (w, ws') ->
  positives ws = (if Qlt_bool 0%Q w then 1 else 0) + positives ws'.
Proof.
  unfold positives. revert i ws' w. induction ws as [| a t IH]; intros i ws' w H.
  - destruct i; discriminate.
  - destruct i as [| i]; simpl in H.
    + inversion H; subst. simpl. destruct (Qlt_bool 0 w); reflexivity.
    + destruct (pop i t) as [[y t'] |] eqn:E; [| discriminate].
      inversion H; subst. specialize (IH _ _ _ E). simpl.
      destruct (Qlt_bool 0 a), (Qlt_bool 0 w); simpl in *; lia.
Qed.

(** With non-negative weights whose total is positive and finite and a
    draw in [[0, 1)], [random.choices] answers a position of positive
    weight. *)
Lemma choices_range_nonneg (n : nat) (weights : list Q) (g : rng) :
  length weights = n ->
  Forall (fun w => (0 <= w)%Q) weights ->
  0 < positives weights ->
  (0 <= g O < 1)%Q ->
  (total_weight weights <= float_max)%Q ->
  exists idx, choices_range n weights g = (Ok idx, snd (random g))
              /\ idx < n /\ (0 < nth idx weights 0)%Q.
Proof.
  intros Hlen Hnn Hpos Hdraw Hfin.
  destruct (@positives_exists weights Hpos) as (jp & Hjp & Hwp).
  destruct weights as [| w0 t]; [simpl in Hjp; lia |].
  inversion Hnn as [| ? ? Hw0 Ht]; subst.
  unfold choices_range. rewrite accumulate_length, Nat.eqb_refl. cbn [negb].
  rewrite accumulate_cumfrom.
  assert (Hcl : length (cumfrom w0 t) = S (length t))
    by (unfold cumfrom; simpl; now rewrite accumulate_from_length).
  assert (Hsorted : forall j1 j2, j1 <= j2 -> j2 < length (cumfrom w0 t) ->
             (nth j1 (cumfrom w0 t) 0 <= nth j2 (cumfrom w0 t) 0)%Q).
  { intros j1 j2 H1 H2. apply cumfrom_mono; auto. lia. }
  destruct (rev (cumfrom w0 t)) as [| total rest] eqn:Er.
  { apply (f_equal (@length Q)) in Er. rewrite length_rev in Er. simpl in Er. lia. }
  assert (Hfinite : isfinite total = true)
    by (apply (@isfinite_total (w0 :: t) total rest); [exact Er | exact Hfin]).
  apply rev_head_is_last with (d := 0%Q) in Er. rewrite Hcl in Er.
  replace (S (length t) - 1) with (length t) in Er by lia.
  (* every running sum dominates the weight it adds *)
  assert (Hdom : forall j, j < S (length t) ->
             (nth j (w0 :: t) 0 <= nth j (cumfrom w0 t) 0)%Q).
  { intros [| j] Hj; [apply Qle_refl |].
    rewrite cumfrom_step by lia. simpl nth at 1.
    assert (0 <= nth j (cumfrom w0 t) 0)%Q.
    { apply Qle_trans with (nth 0 (cumfrom w0 t) 0%Q); [exact Hw0 |].
      apply Hsorted; lia. }
    lra. }
  assert (Htot : (0 < total)%Q).
  { rewrite <- Er.
    apply Qlt_le_trans with (nth jp (cumfrom w0 t) 0%Q).
    - eapply Qlt_le_trans; [exact Hwp | apply Hdom; simpl in Hjp; lia].
    - apply Hsorted; simpl in Hjp; lia. }
  destruct (Qle_bool total 0) eqn:Eb.
  { apply Qle_bool_iff in Eb. lra. }
  rewrite Hfinite. cbn [negb random].
  replace (length (w0 :: t) - 1) with (length t) by (simpl; lia).
  unfold bisect. rewrite Nat.sub_0_r.
  eexists. split; [reflexivity |].
  assert (Hx : (0 <= g O * total)%Q /\ (g O * total < total)%Q).
  { split; [apply Qmult_le_0_compat; lra | nra]. }
  destruct Hx as [Hx0 Hx1].
  destruct (@bisect_loop_spec (cumfrom w0 t) (g O * total)%Q Hsorted
              (length t) 0 (length t))
    as (Hb & Hl & Hh);
    [lia | lia | rewrite Hcl; lia | intros j Hj; lia | now rewrite Er |].
  set (i := bisect_loop (length t) (cumfrom w0 t) (g O * total)%Q 0 (length t))
    in *.
  split; [simpl; lia |].
  destruct i as [| j].
  - simpl nth in *. lra.
  - assert (Hj : j < length t) by lia.
    rewrite cumfrom_step in Hh by exact Hj.
    specialize (Hl j ltac:(lia)). simpl nth at 1. lra.
Qed.

(** *** The sampling loop *)

Lemma NoDup_map_unpop (i : nat) (positions : list nat) :
  NoDup positions -> NoDup (i :: map (unpop i) positions).
Proof.
  intros Hnd. constructor.
  - intros Hin. apply in_map_iff in Hin. destruct Hin as (j & Hj & _).
    now apply unpop_neq in Hj.
  - induction Hnd as [| j l Hj Hnd IH]; simpl; constructor; auto.
    intros Hin. apply in_map_iff in Hin. destruct Hin as (j' & Hj' & Hin).
    apply unpop_inj in Hj'. now subst.
Qed.

Lemma nth_error_all_positions (A : Type) (l : list A) :
  map (nth_error l) (seq 0 (length l)) = map Some l.
Proof.
  induction l as [| a l IH]; simpl; [reflexivity |].
  f_equal. rewrite <- seq_shift, map_map. exact IH.
Qed.

Section SamplerLoop.
Variable A : Type.

(** What is known of the weights and the generator with [k] draws to
    go, and why it lets one draw happen and holds again after it. *)
Variable I : nat -> list Q -> rng -> Prop.
Hypothesis I_draw :
  forall k wc g,
    I (S k) wc g -> wc <> [] ->
    exists idx,
      choices_range (length wc) wc g = (Ok idx, snd (random g))
      /\ idx < length wc
      /\ forall w wc', pop idx wc = Some (w, wc') -> I k wc' (snd (random g)).

Lemma sample_loop_invariant (k : nat) :
  forall (population_copy : list A) (weights_copy : list Q)
         (selected : list A) (g : rng),
    length weights_copy = length population_copy ->
    I k weights_copy g ->
    exists (picked : list A) (positions : list nat) (g' : rng),
      sample_loop k population_copy weights_copy selected g
        = (Ok (selected ++ picked), g')
      /\ length picked = Nat.min k (length population_copy)
      /\ NoDup positions
      /\ map (nth_error population_copy) positions = map Some picked.
Proof.
  induction k as [| k IH]; intros pc wc sel g Hlen Hinv.
  - exists [], [], g. simpl. rewrite app_nil_r.
    repeat split; constructor.
  - destruct pc as [| a pc0].
    + exists [], [], g. simpl. rewrite app_nil_r.
      repeat split; constructor.
    + cbn [sample_loop]. remember (a :: pc0) as pc eqn:Epc.
      assert (Hne : wc <> []).
      { intros ->. rewrite Epc in Hlen. discriminate. }
      destruct (@I_draw _ _ _ Hinv Hne) as (idx & Hc & Hidx & Hnext).
      rewrite Hlen in Hc. rewrite Hc.
      assert (Hidx' : idx < length pc) by lia.
      destruct (@pop_some A idx pc Hidx') as (x & pc' & Hp & Hx & Hl & Hj).
      destruct (@pop_some Q idx wc Hidx) as (y & wc' & Hp' & _ & Hl' & _).
      rewrite Hp, Hp'.
      destruct (IH pc' wc' (sel ++ [x]) (snd (random g)))
        as (picked & positions & g' & Hrun & Hlp & Hnd & Hmap);
        [lia | eapply Hnext; eauto |].
      exists (x :: picked), (idx :: map (unpop idx) positions), g'.
      rewrite Hrun, <- app_assoc.
      split; [reflexivity |].
      split; [cbn [length]; rewrite Hlp, Hl; reflexivity |].
      split; [now apply NoDup_map_unpop |].
      cbn [map]. rewrite Hx. f_equal. rewrite map_map, <- Hmap.
      apply map_ext. intros j. symmetry. apply Hj.
Qed.
End SamplerLoop.

Lemma pop_value (A : Type) (i : nat) (l l' : list A) (x d : A) :
  pop i l = Some (x, l') -> nth i l d = x.
Proof.
  revert i l' x. induction l as [| a l IH]; intros i l' x H.
  - destruct i; discriminate.
  - destruct i as [| i]; simpl in H.
    + now inversion H.
    + destruct (pop i l) as [[y t] |] eqn:E; [| discriminate].
      inversion H; subst. simpl. eapply IH; eauto.
Qed.

Lemma enough_positive_draw (k : nat) (wc : list Q) (g : rng) :
  enough_positive (S k) wc g -> wc <> [] ->
  exists idx,
    choices_range (length wc) wc g = (Ok idx, snd (random g))
    /\ idx < length wc
    /\ forall w wc', pop idx wc = Some (w, wc') ->
                     enough_positive k wc' (snd (random g)).
Proof.
  intros (Hnn & Hk & Hg & Hfin) _.
  destruct (@choices_range_nonneg (length wc) wc g eq_refl Hnn ltac:(lia) (Hg O)
              Hfin)
    as (idx & Hc & Hidx & Hw).
  exists idx. split; [assumption |]. split; [assumption |].
  intros w wc' Hp.
  rewrite (@pop_value Q idx wc wc' w 0%Q Hp) in Hw.
  split; [| split; [| split]].
  - rewrite Forall_forall in *. intros v Hv. apply Hnn. eapply pop_In; eauto.
  - rewrite (@pop_positives idx wc wc' w Hp) in Hk.
    apply Qlt_bool_iff in Hw. rewrite Hw in Hk. lia.
  - intros j. apply Hg.
  - pose proof (pop_total _ _ Hp) as Ht. lra.
Qed.

Lemma all_positive_draw (k : nat) (wc : list Q) (g : rng) :
  Forall (fun w => (0 < w)%Q) wc /\ (total_weight wc <= float_max)%Q ->
  wc <> [] ->
  exists idx,
    choices_range (length wc) wc g = (Ok idx, snd (random g))
    /\ idx < length wc
    /\ forall w wc', pop idx wc = Some (w, wc') ->
                     Forall (fun w => (0 < w)%Q) wc'
                     /\ (total_weight wc' <= float_max)%Q.
Proof.
  intros [Hpos Hfin] Hne.
  assert (Hn : 0 < length wc) by (destruct wc; [contradiction | simpl; lia]).
  destruct (@choices_range_positive (length wc) wc g Hn eq_refl Hpos Hfin)
    as (idx & Hc & Hidx).
  exists idx. split; [assumption |]. split; [assumption |].
  intros w wc' Hp. split.
  - rewrite Forall_forall in *. intros v Hv.
    apply Hpos. eapply pop_In; eauto.
  - pose proof (pop_total _ _ Hp) as Ht.
    assert (Hw : (0 < w)%Q).
    { rewrite Forall_forall in Hpos. apply Hpos.
      destruct (Nat.lt_ge_cases idx (length wc)) as [Hlt | Hge]; [| lia].
      destruct (@pop_some Q idx wc Hlt) as (x & l' & Hp' & Hx & _).
      rewrite Hp in Hp'. inversion Hp'; subst. eapply nth_error_In; eauto. }
    lra.
Qed.

End SamplerDraws.

Lemma weighted_sample_nothing_to_draw (A : Type) (population : list A)
      (weights : list Q) (k : Z) (g : PyRandom.rng) :
  population = [] \/ weights = [] \/ (k <= 0)%Z ->
  Sampler.weighted_sample population weights k g = (Ok [], g).
Proof.
  unfold Sampler.weighted_sample. intros [-> | [-> | Hk]].
  - reflexivity.
  - now destruct population.
  - destruct population, weights; try reflexivity.
    apply Z.leb_le in Hk. now rewrite Hk.
Qed.

Lemma weighted_sample_small_population (A : Type) (population : list A)
      (weights : list Q) (k : Z) (g : PyRandom.rng) :
  population <> [] -> weights <> [] -> (0 < k)%Z ->
  (Z.of_nat (length population) <= k)%Z ->
  Sampler.weighted_sample population weights k g = (Ok population, g).
Proof.
  unfold Sampler.weighted_sample. intros Hp Hw Hk Hlen.
  destruct population as [| a p]; [contradiction |].
  destruct weights as [| w ws]; [contradiction |].
  apply Z.leb_gt in Hk. rewrite Hk.
  apply Z.leb_le in Hlen. now rewrite Hlen.
Qed.

(** C6. [weighted_sample] on its edge cases: an empty population, an empty
    list of weights or [k <= 0] give the empty list; otherwise a population
    of at most [k] items is returned as it is, same items in the same
    order.  In both cases the generator is left untouched: nothing was
    sampled. *)
Theorem weighted_sample_edge_cases :
  forall (A : Type) (population : list A) (weights : list Q) (k : Z)
         (g : PyRandom.rng),
    (population = [] \/ weights = [] \/ (k <= 0)%Z ->
     Sampler.weighted_sample population weights k g = (Ok [], g))
    /\ (population <> [] -> weights <> [] -> (0 < k)%Z ->
        (Z.of_nat (length population) <= k)%Z ->
        Sampler.weighted_sample population weights k g = (Ok population, g)).
Proof.
  intros A population weights k g. split.
  - apply weighted_sample_nothing_to_draw.
  - apply weighted_sample_small_population.
Qed.

Lemma weighted_sample_edge_cases_witness :
  Sampler.weighted_sample [1%Z; 2%Z] [1%Q; 1%Q] 0 (fun _ => 0%Q)
  = (Ok [], fun _ => 0%Q)
  /\ Sampler.weighted_sample [1%Z; 2%Z; 3%Z] [1%Q; 1%Q; 1%Q] 3 (fun _ => 0%Q)
     = (Ok [1%Z; 2%Z; 3%Z], fun _ => 0%Q).
Proof.
  split.
  - apply (proj1 (weighted_sample_edge_cases
                    [1%Z; 2%Z] [1%Q; 1%Q] 0 (fun _ => 0%Q))).
    right; right. lia.
  - apply (proj2 (weighted_sample_edge_cases
                    [1%Z; 2%Z; 3%Z] [1%Q; 1%Q; 1%Q] 3 (fun _ => 0%Q)));
      [discriminate | discriminate | lia | simpl; lia].
Defined.

(** With strictly positive weights whose sums stay finite nothing is
    asked of the generator: the sampler returns
    [min k (length population)] items from pairwise distinct positions
    whatever the draws are. *)
Lemma weighted_sample_positive_weights :
  forall (A : Type) (population : list A) (weights : list Q) (k : Z)
         (g : PyRandom.rng),
    population <> [] ->
    length weights = length population ->
    (forall w, In w weights -> (0 < w)%Q) ->
    sums_stay_finite weights ->
    (0 < k)%Z ->
    exists (selected : list A) (positions : list nat),
      fst (Sampler.weighted_sample population weights k g) = Ok selected
      /\ length selected
         = Z.to_nat (Z.min k (Z.of_nat (length population)))
      /\ NoDup positions
      /\ map (nth_error population) positions = map Some selected.
Proof.
  intros A population weights k g Hne Hlen Hpos Hfin Hk.
  apply sums_stay_finite_total in Hfin.
  unfold Sampler.weighted_sample.
  destruct population as [| a p] eqn:Ep; [contradiction |].
  destruct weights as [| w ws] eqn:Ew; [discriminate |].
  rewrite <- Ep, <- Ew in *.
  apply Z.leb_gt in Hk as Hk'. rewrite Hk'.
  destruct (Z.leb_spec (Z.of_nat (length population)) k) as [Hle | Hgt].
  - exists population, (seq 0 (length population)). simpl.
    split; [reflexivity |]. split; [lia |].
    split; [apply seq_NoDup | apply nth_error_all_positions].
  - apply Forall_forall in Hpos.
    destruct (@sample_loop_invariant A
                (fun _ wc _ => Forall (fun w => (0 < w)%Q) wc
                               /\ (total_weight wc <= PyRandom.float_max)%Q)
                (fun k wc g => @all_positive_draw k wc g)
                (Z.to_nat k) population weights [] g Hlen (conj Hpos Hfin))
      as (picked & positions & g' & Hrun & Hlp & Hnd & Hmap).
    exists picked, positions. rewrite Hrun. simpl.
    split; [reflexivity |]. split; [lia |]. now split.
Qed.

(** C7, as amended.  Take a non-empty population with a parallel list of
    non-negative weights whose sums stay finite, [k > 0], and draws in
    [[0, 1)].  When the population holds more than [k] items, let at
    least [k] weights be strictly positive.  Then [weighted_sample]
    returns exactly [min k (length population)] items, each read at a
    position of the population, no position used twice. *)
Theorem weighted_sample_without_replacement :
  forall (A : Type) (population : list A) (weights : list Q) (k : Z)
         (g : PyRandom.rng),
    population <> [] ->
    length weights = length population ->
    (forall w, In w weights -> (0 <= w)%Q) ->
    sums_stay_finite weights ->
    (0 < k)%Z ->
    ((k < Z.of_nat (length population))%Z ->
     (k <= Z.of_nat (positives weights))%Z) ->
    (forall j, (0 <= g j < 1)%Q) ->
    exists (selected : list A) (positions : list nat),
      fst (Sampler.weighted_sample population weights k g) = Ok selected
      /\ length selected
         = Z.to_nat (Z.min k (Z.of_nat (length population)))
      /\ NoDup positions
      /\ map (nth_error population) positions = map Some selected.
Proof.
  intros A population weights k g Hne Hlen Hnn Hfin Hk Hpos Hg.
  apply sums_stay_finite_total in Hfin.
  unfold Sampler.weighted_sample.
  destruct population as [| a p] eqn:Ep; [contradiction |].
  destruct weights as [| w ws] eqn:Ew; [discriminate |].
  rewrite <- Ep, <- Ew in *.
  apply Z.leb_gt in Hk as Hk'. rewrite Hk'.
  destruct (Z.leb_spec (Z.of_nat (length population)) k) as [Hle | Hgt].
  - exists population, (seq 0 (length population)). simpl.
    split; [reflexivity |]. split; [lia |].
    split; [apply seq_NoDup | apply nth_error_all_positions].
  - apply Forall_forall in Hnn.
    destruct (@sample_loop_invariant A enough_positive enough_positive_draw
                (Z.to_nat k) population weights [] g Hlen)
      as (picked & positions & g' & Hrun & Hlp & Hnd & Hmap).
    { split; [assumption |]. split; [specialize (Hpos Hgt); lia |].
      split; assumption. }
    exists picked, positions. rewrite Hrun. simpl.
    split; [reflexivity |]. split; [lia |]. now split.
Qed.

Lemma weighted_sample_without_replacement_witness :
  exists (selected : list string) (positions : list nat),
    fst (Sampler.weighted_sample ["a"; "b"; "c"]%string [1%Q; 0%Q; (1 # 2)%Q]
                                 2 (fun _ => (1 # 2)%Q)) = Ok selected
    /\ length selected = 2
    /\ NoDup positions
    /\ map (nth_error ["a"; "b"; "c"]%string) positions = map Some selected.
Proof.
  apply (@weighted_sample_without_replacement string
           ["a"; "b"; "c"]%string [1%Q; 0%Q; (1 # 2)%Q] 2
           (fun _ => (1 # 2)%Q)).
  - discriminate.
  - reflexivity.
  - intros w [<- | [<- | [<- | []]]]; unfold Qle; simpl; lia.
  - vm_compute. discriminate.
  - lia.
  - intros _. unfold positives. simpl. lia.
  - intros j. split; [unfold Qle | unfold Qlt]; simpl; lia.
Defined.

(** C7 as stated fails on weights that are non-negative and all zero:
    two items, weights [0; 0], [k = 1].  The population is larger than
    [k], so the loop runs, and [random.choices] raises [ValueError] since
    the total of the weights is not greater than zero. *)
Lemma weighted_sample_zero_weights_raises :
  ["a"; "b"]%string <> []
  /\ length [0%Q; 0%Q] = length ["a"; "b"]%string
  /\ Forall (fun w => (0 <= w)%Q) [0%Q; 0%Q]
  /\ (0 < 1)%Z
  /\ fst (Sampler.weighted_sample ["a"; "b"]%string [0%Q; 0%Q] 1
                                  (fun _ => 0%Q)) = Raise ValueError.
Proof.
  split; [discriminate |]. split; [reflexivity |].
  split; [repeat constructor; apply Qle_refl |].
  split; [lia |]. reflexivity.
Qed.

(** One positive weight is not enough for two draws: the first draw takes
    it, the second finds a total of zero. *)
Example weighted_sample_one_positive_weight :
  fst (Sampler.weighted_sample ["a"; "b"; "c"]%string [0%Q; 1%Q; 0%Q] 2
                               (fun _ => (1 # 2)%Q)) = Raise ValueError.
Proof. reflexivity. Qed.

(* ================================================================== *)
(** ** Stream descriptors and chat_ids *)

Section SplitFacts.
Import PyStr.
Local Open Scope string_scope.

Lemma split_length (sep : ascii) (s : string) :
  length (split sep s) = S (count_char sep s).
Proof.
  induction s as [| c s IH]; simpl; [reflexivity |].
  destruct (Ascii.eqb c sep); simpl.
  - now rewrite IH.
  - destruct (split sep s); simpl in *; lia.
Qed.

Lemma count_char_cons_0 (sep c : ascii) (s : string) :
  count_char sep (String c s) = 0%nat ->
  Ascii.eqb c sep = false /\ count_char sep s = 0%nat.
Proof. simpl. destruct (Ascii.eqb c sep); simpl; intros; [lia | auto]. Qed.

(** A field without separator, then a separator: the field is the
    first one split off. *)
Lemma split_field (sep : ascii) (field rest : string) :
  count_char sep field = 0%nat ->
  split sep (field ++ String sep rest) = field :: split sep rest.
Proof.
  induction field as [| c field IH]; intros H; simpl.
  - now rewrite Ascii.eqb_refl.
  - apply count_char_cons_0 in H. destruct H as [Hc H].
    rewrite Hc, IH; auto.
Qed.

Lemma split_last_field (sep : ascii) (field : string) :
  count_char sep field = 0%nat -> split sep field = [field].
Proof.
  induction field as [| c field IH]; intros H; simpl; [reflexivity |].
  apply count_char_cons_0 in H. destruct H as [Hc H].
  rewrite Hc, IH; auto.
Qed.

End SplitFacts.

(** The digest is 32 characters long, so never the empty string. *)
Lemma hexdigest_length (s : string) : String.length (MD5.hexdigest s) = 32.
Proof.
  unfold MD5.hexdigest, MD5.hex_word, MD5.hex_byte. reflexivity.
Qed.

Lemma hexdigest_truthy (s : string) : PyStr.truthy (MD5.hexdigest s) = true.
Proof.
  unfold MD5.hexdigest, MD5.hex_word, MD5.hex_byte. reflexivity.
Qed.

(** The digits of the digest. *)

Lemma hex_digit_lower (n : Z) :
  (0 <= n < 16)%Z -> is_lower_hex (MD5.hex_digit n) = true.
Proof.
  intros H.
  assert (Hall : forallb (fun m => is_lower_hex (MD5.hex_digit (Z.of_nat m)))
                         (seq 0 16) = true) by reflexivity.
  rewrite forallb_forall in Hall.
  specialize (Hall (Z.to_nat n)). rewrite Z2Nat.id in Hall by lia.
  apply Hall. apply in_seq. lia.
Qed.

Lemma low_nibble_range (b : Z) : (0 <= Z.land b 0xf < 16)%Z.
Proof.
  change 0xf%Z with (Z.ones 4). rewrite Z.land_ones by lia.
  apply Z.mod_pos_bound. reflexivity.
Qed.

Lemma high_nibble_range (w : Z) : (0 <= Z.shiftr (Z.land w 0xff) 4 < 16)%Z.
Proof.
  change 0xff%Z with (Z.ones 8). rewrite Z.land_ones by lia.
  rewrite Z.shiftr_div_pow2 by lia.
  pose proof (Z.mod_pos_bound w (2 ^ 8) ltac:(reflexivity)) as Hb.
  change (2 ^ 8)%Z with 256%Z in *. change (2 ^ 4)%Z with 16%Z.
  split.
  - apply Z.div_pos; lia.
  - apply Z.div_lt_upper_bound; lia.
Qed.

Lemma hex_byte_lower (w : Z) (rest : string) :
  all_chars is_lower_hex rest = true ->
  all_chars is_lower_hex (MD5.hex_byte (Z.land w 0xff) rest) = true.
Proof.
  intros H. unfold MD5.hex_byte. cbn [all_chars].
  rewrite (hex_digit_lower (high_nibble_range w)).
  rewrite (hex_digit_lower (low_nibble_range (Z.land w 0xff))).
  exact H.
Qed.

Lemma hex_word_lower (w : Z) (rest : string) :
  all_chars is_lower_hex rest = true ->
  all_chars is_lower_hex (MD5.hex_word w rest) = true.
Proof.
  intros H. unfold MD5.hex_word. now repeat apply hex_byte_lower.
Qed.

Lemma hexdigest_lower_hex (s : string) :
  String.length (MD5.hexdigest s) = 32
  /\ all_chars is_lower_hex (MD5.hexdigest s) = true.
Proof.
  split; [apply hexdigest_length |].
  unfold MD5.hexdigest. now repeat apply hex_word_lower.
Qed.

(** A chat_id is 32 characters long, each one of [0-9a-f]. *)
Theorem chat_id_is_32_lowercase_hex :
  forall descriptor cid : string,
    Selector._parse_stream_config_to_chat_id descriptor = Some cid ->
    String.length cid = 32 /\ all_chars is_lower_hex cid = true.
Proof.
  intros descriptor cid. unfold Selector._parse_stream_config_to_chat_id.
  destruct (PyStr.split ":" descriptor) as [| a [| b [| c [| d l]]]];
    try discriminate.
  intros H. inversion H. apply hexdigest_lower_hex.
Qed.

Example chat_id_of_group_stream :
  Selector._parse_stream_config_to_chat_id "qq:12345:group"
  = Some "7deee6a540a5e383b216d80b7e89efa6"%string.
Proof. vm_compute. reflexivity. Qed.

Example chat_id_of_private_stream :
  Selector._parse_stream_config_to_chat_id "qq:12345:private"
  = Some "8c4afba13b1a12565d8762979a7a04ef"%string.
Proof. vm_compute. reflexivity. Qed.

Example chat_id_of_two_fields :
  Selector._parse_stream_config_to_chat_id "qq:12345" = None.
Proof. reflexivity. Qed.

Example chat_id_of_four_fields :
  Selector._parse_stream_config_to_chat_id "qq:12345:group:x" = None.
Proof. reflexivity. Qed.

(** C5. A descriptor that does not hold exactly two colons (three
    fields) has no chat_id.  A descriptor [platform:id:type] has the MD5
    hex digest of [platform_id] when the type is ["group"], and of
    [platform_id_private] for any other type.  The result is a function of
    the descriptor alone. *)
Theorem parse_stream_config_to_chat_id_spec :
  forall descriptor : string,
    (PyStr.count_char ":" descriptor <> 2 ->
     Selector._parse_stream_config_to_chat_id descriptor = None)
    /\ (forall platform id_str stream_type : string,
          descriptor = (platform ++ ":" ++ id_str ++ ":" ++ stream_type)%string ->
          PyStr.count_char ":" platform = 0 ->
          PyStr.count_char ":" id_str = 0 ->
          PyStr.count_char ":" stream_type = 0 ->
          (stream_type = "group"%string ->
           Selector._parse_stream_config_to_chat_id descriptor
           = Some (MD5.hexdigest (platform ++ "_" ++ id_str)%string))
          /\ (stream_type <> "group"%string ->
              Selector._parse_stream_config_to_chat_id descriptor
              = Some (MD5.hexdigest
                        (platform ++ "_" ++ id_str ++ "_private")%string)))
    /\ (forall other : string,
          other = descriptor ->
          Selector._parse_stream_config_to_chat_id other
          = Selector._parse_stream_config_to_chat_id descriptor).
Proof.
  intros descriptor. split; [| split].
  - intros Hcount. unfold Selector._parse_stream_config_to_chat_id.
    pose proof (split_length ":" descriptor) as Hlen.
    destruct (PyStr.split ":" descriptor) as [| a [| b [| c [| d l]]]];
      simpl in Hlen; try reflexivity.
    exfalso. apply Hcount. lia.
  - intros platform id_str stream_type -> Hp Hi Ht.
    unfold Selector._parse_stream_config_to_chat_id.
    change (platform ++ ":" ++ id_str ++ ":" ++ stream_type)%string
      with (platform ++ String ":" (id_str ++ String ":" stream_type))%string.
    rewrite (@split_field _ _ _ Hp), (@split_field _ _ _ Hi),
      (@split_last_field _ _ Ht).
    split.
    + intros ->. reflexivity.
    + intros Hne. apply String.eqb_neq in Hne. rewrite Hne. reflexivity.
  - intros other ->. reflexivity.
Qed.

Lemma parse_stream_config_to_chat_id_spec_witness :
  Selector._parse_stream_config_to_chat_id "qq:12345"%string = None
  /\ Selector._parse_stream_config_to_chat_id "qq:12345:group"%string
     = Some (MD5.hexdigest "qq_12345"%string)
  /\ Selector._parse_stream_config_to_chat_id "qq:12345:private"%string
     = Some (MD5.hexdigest "qq_12345_private"%string).
Proof.
  split; [| split].
  - apply (proj1 (parse_stream_config_to_chat_id_spec "qq:12345"%string)).
    simpl. lia.
  - apply (proj1 (proj2 (parse_stream_config_to_chat_id_spec
                           "qq:12345:group"%string))
             "qq"%string "12345"%string "group"%string);
      reflexivity.
  - apply (proj1 (proj2 (parse_stream_config_to_chat_id_spec
                           "qq:12345:private"%string))
             "qq"%string "12345"%string "private"%string);
      try reflexivity.
    discriminate.
Defined.

(* ================================================================== *)
(** ** Expression groups *)

Lemma parse_some_truthy (descriptor cid : string) :
  Selector._parse_stream_config_to_chat_id descriptor = Some cid ->
  PyStr.truthy cid = true.
Proof.
  unfold Selector._parse_stream_config_to_chat_id.
  destruct (PyStr.split ":" descriptor) as [| a [| b [| c [| d l]]]];
    try discriminate.
  intros H. inversion H. apply hexdigest_truthy.
Qed.

Lemma group_chat_ids_of_derived (group : list string) :
  Selector.group_chat_ids_of group = derived_chat_ids group.
Proof.
  induction group as [| descriptor group IH]; simpl; [reflexivity |].
  destruct (Selector._parse_stream_config_to_chat_id descriptor)
    as [cid |] eqn:E; simpl; [| exact IH].
  rewrite (parse_some_truthy _ E). now rewrite IH.
Qed.

Lemma str_in_iff (x : string) (l : list string) :
  Selector.str_in x l = true <-> In x l.
Proof.
  unfold Selector.str_in. rewrite existsb_exists. split.
  - intros (y & Hy & Heq). apply String.eqb_eq in Heq. now subst.
  - intros H. exists x. split; [assumption | apply String.eqb_refl].
Qed.

Lemma related_in_no_match (groups : list (list string)) (cid : string) :
  (forall group, In group groups -> ~ In cid (derived_chat_ids group)) ->
  Selector.related_in groups cid = [cid].
Proof.
  induction groups as [| g groups IH]; intros H; simpl; [reflexivity |].
  rewrite group_chat_ids_of_derived.
  destruct (Selector.str_in cid (derived_chat_ids g)) eqn:E.
  - apply str_in_iff in E. exfalso. apply (H g); simpl; auto.
  - apply IH. intros group Hg. apply H. now right.
Qed.

Lemma related_in_first_match (before after : list (list string))
      (group : list string) (cid : string) :
  (forall g, In g before -> ~ In cid (derived_chat_ids g)) ->
  In cid (derived_chat_ids group) ->
  Selector.related_in (before ++ group :: after) cid = derived_chat_ids group.
Proof.
  induction before as [| g before IH]; intros Hb Hin; simpl.
  - rewrite group_chat_ids_of_derived.
    apply str_in_iff in Hin. now rewrite Hin.
  - rewrite group_chat_ids_of_derived.
    destruct (Selector.str_in cid (derived_chat_ids g)) eqn:E.
    + apply str_in_iff in E. exfalso. apply (Hb g); simpl; auto.
    + apply IH; auto. intros g' Hg'. apply Hb. now right.
Qed.

(** C8. [get_related_chat_ids] answers the chat_ids derived from the
    first configured group whose derived chat_ids contain the given one,
    descriptors that do not parse left out; and the list holding just the
    given chat_id when no group contains it. *)
Theorem get_related_chat_ids_spec :
  forall (env : Selector.Env) (cid : string),
    (forall (before after : list (list string)) (group : list string),
        Selector.expression_groups env = before ++ group :: after ->
        (forall g, In g before -> ~ In cid (derived_chat_ids g)) ->
        In cid (derived_chat_ids group) ->
        Selector.get_related_chat_ids env cid = derived_chat_ids group)
    /\ ((forall g, In g (Selector.expression_groups env) ->
                   ~ In cid (derived_chat_ids g)) ->
        Selector.get_related_chat_ids env cid = [cid]).
Proof.
  intros env cid. unfold Selector.get_related_chat_ids. split.
  - intros before after group -> Hb Hin.
    now apply related_in_first_match.
  - apply related_in_no_match.
Qed.

(* ================================================================== *)
(** ** The reply generator's fallback *)

Section ReplyGeneratorFacts.
Import ReplyGenerator.

Lemma render_history_total (env : Env) (messages : list message) :
  Forall (fun msg => exists t s,
              msg_time msg = Some t /\ format_time env t = Ok s) messages ->
  forall acc, exists text, render_history env messages acc = Ok text.
Proof.
  induction 1 as [| msg messages (t & s & Ht & Hs) _ IH]; intros acc; simpl.
  - now exists acc.
  - unfold render_message. rewrite Ht, Hs. apply IH.
Qed.

(** The prompt is composed whenever the observer answers and every
    message of the history carries a time that can be formatted. *)
Lemma compose_prompt_total (env : Env) (goal : string)
      (knowledge_cache : knowledge) (previous_reply : option string)
      (updated : bool) (messages : list message) :
  trigger_update env = Ok tt ->
  wait_for_update env = Ok updated ->
  get_message_history env 20 = Ok messages ->
  Forall (fun msg => exists t s,
              msg_time msg = Some t /\ format_time env t = Ok s) messages ->
  exists prompt,
    compose_prompt env goal knowledge_cache previous_reply = Ok prompt.
Proof.
  intros Ht Hw Hh Hm. unfold compose_prompt. rewrite Ht, Hw, Hh. simpl.
  destruct (render_history_total env Hm EmptyString) as (text & ->).
  simpl. eauto.
Qed.
End ReplyGeneratorFacts.

(** C9, as amended.  Once the prompt is composed, [generate] does not
    raise on a failure of the LLM call: when the client raises an
    [Exception] the result is the fixed apology string, and when it
    answers, the result is its content. *)
Theorem generate_llm_fallback :
  forall (env : ReplyGenerator.Env) (goal : string)
         (chat_history : list ReplyGenerator.message)
         (knowledge_cache : ReplyGenerator.knowledge)
         (previous_reply : option string) (retry_count : Z) (prompt : string),
    ReplyGenerator.compose_prompt env goal knowledge_cache previous_reply
    = Ok prompt ->
    (forall e, ReplyGenerator.llm_generate env prompt = Raise e ->
               is_Exception e = true ->
               ReplyGenerator.generate env goal chat_history knowledge_cache
                                       previous_reply retry_count
               = Ok "抱歉，我现在有点混乱，让我重新思考一下..."%string)
    /\ (forall content, ReplyGenerator.llm_generate env prompt = Ok content ->
                        ReplyGenerator.generate env goal chat_history
                                                knowledge_cache previous_reply
                                                retry_count
                        = Ok content).
Proof.
  intros env goal chat_history knowledge_cache previous_reply retry_count
         prompt Hp.
  unfold ReplyGenerator.generate. rewrite Hp. simpl. split.
  - intros e He Hexc. rewrite He. simpl. now rewrite Hexc.
  - intros content Hc. now rewrite Hc.
Qed.

(* ================================================================== *)
(** ** The gates of the LLM selection *)

Section RetrievalFacts.
Import Selector.

(** Retrieval reads the table and draws random numbers; it saves
    nothing, reads no clock and sends nothing to the LLM. *)
Lemma get_random_expressions_frame (env : Env) (cid : string) (n : Z)
      (w w' : World) (r : result (list expr_dict)) :
  get_random_expressions env cid n w = (r, w') ->
  db w' = db w /\ clock w' = clock w /\ writes w' = writes w
  /\ llm_prompts w' = llm_prompts w.
Proof.
  unfold get_random_expressions.
  destruct (map dict_of_row (style_query (get_related_chat_ids env cid)
                                         (db w))) as [| d ds].
  - intros H; inversion H; subst; auto.
  - destruct (Sampler.weighted_sample (d :: ds) (map weight_of (d :: ds))
                                      n (gen w)) as [sel g'].
    intros H; inversion H; subst; simpl; auto.
Qed.

(** A pool of at most [n] style rows is returned whole, as the query
    answers it, and the world is left as it was. *)
Lemma get_random_expressions_small_pool (env : Env) (cid : string) (n : Z)
      (w : World) :
  (0 < n)%Z ->
  (Z.of_nat (length (style_query (get_related_chat_ids env cid) (db w)))
   <= n)%Z ->
  get_random_expressions env cid n w
  = (Ok (map dict_of_row (style_query (get_related_chat_ids env cid) (db w))),
     w).
Proof.
  intros Hn Hlen. unfold get_random_expressions.
  set (rows := style_query (get_related_chat_ids env cid) (db w)) in *.
  destruct (map dict_of_row rows) as [| d ds] eqn:E; [reflexivity |].
  assert (Hl : length (d :: ds) = length rows)
    by (rewrite <- E; apply length_map).
  rewrite weighted_sample_small_population; try discriminate; try lia.
  now destruct w.
Qed.
End RetrievalFacts.

(** C1. Whatever [max_num] the caller passes,
    [select_suitable_expressions_llm] returns two empty lists, sends no
    prompt to the LLM and saves no row, as soon as the chat may not use
    expressions, or retrieval returns fewer than 10 style expressions;
    the latter happens in particular when fewer than 10 style rows are
    stored for the chat and its related chats.  The threshold is the
    constant 10. *)
Theorem select_gates_skip_llm :
  forall (env : Selector.Env) (cid chat_info : string) (max_num : Z)
         (target_message : option string) (w : Selector.World),
    Selector.can_use_expression_for_chat env cid = false
    \/ (exists (retrieved : list Selector.expr_dict) (w1 : Selector.World),
           Selector.get_random_expressions env cid 10 w = (Ok retrieved, w1)
           /\ length retrieved < 10)
    \/ length (Selector.style_query (Selector.get_related_chat_ids env cid)
                                    (Selector.db w)) < 10 ->
    fst (Selector.select_suitable_expressions_llm
           env cid chat_info max_num target_message w)
    = Ok ([], [])
    /\ Selector.llm_prompts
         (snd (Selector.select_suitable_expressions_llm
                 env cid chat_info max_num target_message w))
       = Selector.llm_prompts w
    /\ Selector.db
         (snd (Selector.select_suitable_expressions_llm
                 env cid chat_info max_num target_message w))
       = Selector.db w.
Proof.
  intros env cid chat_info max_num target_message w H.
  unfold Selector.select_suitable_expressions_llm.
  destruct (Selector.can_use_expression_for_chat env cid) eqn:Ecan; simpl;
    [| now auto].
  assert (Hret : exists retrieved w1,
             Selector.get_random_expressions env cid 10 w = (Ok retrieved, w1)
             /\ length retrieved < 10).
  { destruct H as [H | [H | H]]; [discriminate | exact H |].
    eexists _, w. split.
    - apply get_random_expressions_small_pool; lia.
    - now rewrite length_map. }
  destruct Hret as (retrieved & w1 & Hget & Hlen).
  unfold Selector.bind. rewrite Hget.
  apply Nat.ltb_lt in Hlen. rewrite Hlen. simpl.
  apply get_random_expressions_frame in Hget.
  destruct Hget as (Hdb & _ & _ & Hllm). auto.
Qed.

(* ================================================================== *)
(** ** The table: queries and [save] *)

Section TableFacts.
Import Selector.

Lemma key_eqb_eq (k1 k2 : key) : key_eqb k1 k2 = true <-> k1 = k2.
Proof.
  destruct k1 as [[[a1 b1] c1] d1], k2 as [[[a2 b2] c2] d2]. simpl.
  rewrite !andb_true_iff, !String.eqb_eq. split.
  - intros [[[-> ->] ->] ->]. reflexivity.
  - intros H. inversion H. auto.
Qed.

Lemma query_get_some (k : key) (table : list Expression) (r : Expression) :
  query_get k table = Some r -> In r table /\ row_key r = k.
Proof.
  unfold query_get, key_query.
  destruct (filter (fun r0 => key_eqb (row_key r0) k) table) as [| x l] eqn:E;
    [discriminate |].
  intros H. inversion H; subst.
  assert (Hin : In r (filter (fun r0 => key_eqb (row_key r0) k) table))
    by (rewrite E; now left).
  apply filter_In in Hin. destruct Hin as [Hin Hk].
  apply key_eqb_eq in Hk. auto.
Qed.

Lemma query_get_none (k : key) (table : list Expression) :
  query_get k table = None ->
  forall r, In r table -> row_key r <> k.
Proof.
  unfold query_get, key_query.
  destruct (filter (fun r0 => key_eqb (row_key r0) k) table) as [| x l] eqn:E;
    [| discriminate].
  intros _ r Hin Hk.
  assert (H : In r (filter (fun r0 => key_eqb (row_key r0) k) table)).
  { apply filter_In. split; [assumption |]. now apply key_eqb_eq. }
  rewrite E in H. contradiction.
Qed.

(** A row of the key makes the query answer. *)
Lemma query_get_exists (k : key) (table : list Expression) (r : Expression) :
  In r table -> row_key r = k -> exists r0, query_get k table = Some r0.
Proof.
  intros Hin Hk. destruct (query_get k table) as [r0 |] eqn:E; [eauto |].
  exfalso. eapply query_get_none; eauto.
Qed.

(** The primary key identifies the row. *)
Lemma same_id_same_row (table : list Expression) (r x : Expression) :
  NoDup (map id table) -> In r table -> In x table -> id x = id r -> x = r.
Proof.
  induction table as [| a table IH]; simpl; intros Hnd Hr Hx Hid;
    [contradiction |].
  inversion Hnd as [| ? ? Hnotin Hnd']; subst.
  destruct Hr as [-> | Hr], Hx as [-> | Hx]; auto.
  - exfalso. apply Hnotin. rewrite <- Hid. now apply in_map.
  - exfalso. apply Hnotin. rewrite Hid. now apply in_map.
Qed.

Lemma save_ids (r' : Expression) (table : list Expression) :
  map id (save r' table) = map id table.
Proof.
  unfold save. rewrite map_map. apply map_ext. intros x.
  destruct (Z.eqb_spec (id x) (id r')); auto.
Qed.

Lemma filter_map_same (A : Type) (p : A -> bool) (f : A -> A) (l : list A) :
  (forall x, In x l -> p (f x) = p x) ->
  filter p (map f l) = map f (filter p l).
Proof.
  induction l as [| a l IH]; intros H; simpl; [reflexivity |].
  rewrite (H a (or_introl eq_refl)).
  destruct (p a); simpl; rewrite IH; auto; intros; apply H; now right.
Qed.

(** Saving a row under its own primary key and key fields: every query
    on a key answers as before, up to the rewritten row. *)
Lemma save_query_get (table : list Expression) (r r' : Expression) (k : key) :
  NoDup (map id table) -> In r table ->
  id r' = id r -> row_key r' = row_key r ->
  query_get k (save r' table)
  = match query_get k table with
    | Some x => Some (if Z.eqb (id x) (id r) then r' else x)
    | None => None
    end.
Proof.
  intros Hnd Hr Hid Hkey. unfold query_get, key_query, save.
  rewrite filter_map_same.
  - rewrite Hid.
    now destruct (filter (fun r0 => key_eqb (row_key r0) k) table).
  - intros x Hx. destruct (Z.eqb_spec (id x) (id r')) as [E | E]; auto.
    rewrite Hid in E. rewrite (@same_id_same_row table r x Hnd Hr Hx E). now rewrite Hkey.
Qed.

Lemma save_query_get_other (table : list Expression) (r r' : Expression)
      (k : key) :
  NoDup (map id table) -> In r table ->
  id r' = id r -> row_key r' = row_key r -> k <> row_key r ->
  query_get k (save r' table) = query_get k table.
Proof.
  intros Hnd Hr Hid Hkey Hk.
  rewrite (@save_query_get table r r' k Hnd Hr Hid Hkey).
  destruct (query_get k table) as [x |] eqn:E; [| reflexivity].
  apply query_get_some in E. destruct E as [Hx Hkx].
  destruct (Z.eqb_spec (id x) (id r)) as [E | E]; [| reflexivity].
  exfalso. apply Hk. rewrite <- Hkx. f_equal.
  exact (@same_id_same_row table r x Hnd Hr Hx E).
Qed.
End TableFacts.

(* ================================================================== *)
(** ** Batch reinforcement *)

Section ReinforcementFacts.
Import Selector.
Variable increment : Q.

Lemma update_one_matched (w : World) (k : key) (r : Expression) :
  query_get k (db w) = Some r ->
  update_one increment w k
  = {| db := save (reinforced increment (clock w O) r) (db w);
       gen := gen w;
       clock := fun i => clock w (S i);
       writes := writes w
                 ++ [mkWrite (id r) (py_min (count r + increment)%Q 5%Q)
                             (clock w O)];
       llm_prompts := llm_prompts w |}.
Proof. intros H. unfold update_one. rewrite H. reflexivity. Qed.

Lemma update_one_unmatched (w : World) (k : key) :
  query_get k (db w) = None -> update_one increment w k = w.
Proof. intros H. unfold update_one. now rewrite H. Qed.

Lemma matched_ids_ext (ks : list key) (t1 t2 : list Expression) :
  (forall k, In k ks -> query_get k t1 = query_get k t2) ->
  matched_ids ks t1 = matched_ids ks t2.
Proof.
  induction ks as [| k ks IH]; intros H; simpl; [reflexivity |].
  rewrite (H k (or_introl eq_refl)). f_equal.
  apply IH. intros k' Hk'. apply H. now right.
Qed.

(** What the second loop does, key by key. *)
Lemma update_keys_spec (ks : list key) :
  forall w : World,
    NoDup (map id (db w)) -> NoDup ks ->
    let w' := fold_left (update_one increment) ks w in
    map id (db w') = map id (db w)
    /\ gen w' = gen w
    /\ llm_prompts w' = llm_prompts w
    /\ (forall k, ~ In k ks -> query_get k (db w') = query_get k (db w))
    /\ exists new : list write,
        writes w' = writes w ++ new
        /\ map w_id new = matched_ids ks (db w)
        /\ (forall j wr, nth_error new j = Some wr -> w_time wr = clock w j)
        /\ (forall i, clock w' i = clock w (length new + i))
        /\ (forall k r,
               In k ks -> query_get k (db w) = Some r ->
               exists now,
                 query_get k (db w') = Some (reinforced increment now r)
                 /\ In (mkWrite (id r)
                                (py_min (count r + increment)%Q 5%Q) now)
                       new).
Proof.
  induction ks as [| k0 ks IH]; intros w Hids Hks; cbn zeta.
  - simpl. repeat split; auto. exists []. rewrite app_nil_r.
    repeat split; auto.
    + intros [| j] wr H; discriminate.
    + intros k r [].
  - inversion Hks as [| ? ? Hnotin Hks']; subst.
    cbn [fold_left].
    destruct (query_get k0 (db w)) as [r0 |] eqn:E0.
    + (* the key matches a row: it is saved *)
      pose proof (query_get_some _ _ E0) as [Hin0 Hkey0].
      set (r0' := reinforced increment (clock w O) r0).
      pose proof (update_one_matched _ _ E0) as Hw1. fold r0' in Hw1.
      remember (update_one increment w k0) as w1 eqn:Ew1.
      assert (Hdb1 : db w1 = save r0' (db w)) by now rewrite Hw1.
      assert (Hgen1 : gen w1 = gen w) by now rewrite Hw1.
      assert (Hllm1 : llm_prompts w1 = llm_prompts w) by now rewrite Hw1.
      assert (Hclock1 : forall i, clock w1 i = clock w (S i))
        by now rewrite Hw1.
      assert (Hwrites1 : writes w1
                         = writes w
                           ++ [mkWrite (id r0)
                                       (py_min (count r0 + increment)%Q 5%Q)
                                       (clock w O)]) by now rewrite Hw1.
      clear Hw1 Ew1.
      assert (Hother : forall k, k <> k0 ->
                 query_get k (db w1) = query_get k (db w)).
      { intros k Hk. rewrite Hdb1.
        apply (@save_query_get_other (db w) r0 r0' k); auto.
        congruence. }
      assert (Hsame : query_get k0 (db w1) = Some r0').
      { rewrite Hdb1.
        rewrite (@save_query_get (db w) r0 r0' k0); auto.
        rewrite E0. now rewrite Z.eqb_refl. }
      assert (Hids1 : NoDup (map id (db w1)))
        by now rewrite Hdb1, save_ids.
      destruct (IH w1 Hids1 Hks')
        as (Hid & Hgen & Hllm & Hframe & new & Hw & Hm & Ht & Hc & Hrows).
      rewrite Hdb1, save_ids in Hid.
      rewrite Hgen1 in Hgen. rewrite Hllm1 in Hllm. rewrite Hwrites1 in Hw.
      split; [assumption |]. split; [assumption |]. split; [assumption |].
      split.
      { intros k Hk. rewrite Hframe, Hother; auto.
        - intros ->. apply Hk. now left.
        - intros H. apply Hk. now right. }
      exists (mkWrite (id r0) (py_min (count r0 + increment)%Q 5%Q)
                      (clock w O) :: new).
      split; [now rewrite Hw, <- app_assoc |].
      split.
      { simpl. rewrite E0. simpl. f_equal. rewrite Hm.
        apply matched_ids_ext. intros k Hk. apply Hother.
        intros ->. contradiction. }
      split.
      { intros [| j] wr H; simpl in H.
        - inversion H; subst. reflexivity.
        - rewrite <- Hclock1. now apply Ht. }
      split.
      { intros i. rewrite Hc, Hclock1. reflexivity. }
      intros k r [<- | Hk] Hq.
      * rewrite E0 in Hq. inversion Hq; subst r.
        exists (clock w O). split; [| now left].
        rewrite Hframe; auto.
      * assert (Hne : k <> k0) by (intros ->; contradiction).
        rewrite <- (Hother k Hne) in Hq.
        destruct (Hrows k r Hk Hq) as (now & Hq' & Hin).
        exists now. split; [assumption | now right].
    + (* no row for the key: nothing happens *)
      rewrite (update_one_unmatched _ _ E0).
      destruct (IH w Hids Hks')
        as (Hid & Hgen & Hllm & Hframe & new & Hw & Hm & Ht & Hc & Hrows).
      split; [assumption |]. split; [assumption |]. split; [assumption |].
      split.
      { intros k Hk. apply Hframe. intros H. apply Hk. now right. }
      exists new. split; [assumption |].
      split; [simpl; now rewrite E0 |].
      split; [assumption |]. split; [assumption |].
      intros k r [<- | Hk] Hq; [congruence | now apply Hrows].
Qed.
End ReinforcementFacts.

Section BatchKeys.
Import Selector.

Lemma key_in_iff (k : key) (acc : list (key * expr_dict)) :
  key_in k acc = true <-> In k (map fst acc).
Proof.
  unfold key_in. rewrite existsb_exists, in_map_iff. split.
  - intros (kv & Hin & Heq). apply key_eqb_eq in Heq. eauto.
  - intros (kv & Heq & Hin). exists kv. split; [assumption |].
    now apply key_eqb_eq.
Qed.

Lemma key_in_false (k : key) (acc : list (key * expr_dict)) :
  key_in k acc = false -> ~ In k (map fst acc).
Proof. intros H Hin. apply key_in_iff in Hin. congruence. Qed.

Lemma NoDup_snoc (A : Type) (l : list A) (x : A) :
  NoDup l -> ~ In x l -> NoDup (l ++ [x]).
Proof.
  intros Hl Hx. induction Hl as [| a l Ha Hl IH]; simpl.
  - constructor; [easy | constructor].
  - constructor.
    + rewrite in_app_iff. simpl. intros [H | [H | []]]; [easy |].
      subst. apply Hx. now left.
    + apply IH. intros H. apply Hx. now right.
Qed.

(** The first loop keeps the keys pairwise distinct. *)
Lemma collect_updates_NoDup (batch : list expr_dict) :
  forall acc, NoDup (map fst acc) ->
              NoDup (map fst (collect_updates batch acc)).
Proof.
  induction batch as [| e batch IH]; intros acc Hacc; simpl; [assumption |].
  destruct (entry_key e) as [k |]; [| now apply IH].
  destruct (key_in k acc) eqn:E; [now apply IH |].
  apply IH. rewrite map_app. simpl.
  apply NoDup_snoc; [assumption | now apply key_in_false].
Qed.

(** It keeps exactly the keys of the entries the guard lets through. *)
Lemma collect_updates_keys (batch : list expr_dict) :
  forall acc k,
    In k (map fst (collect_updates batch acc))
    <-> In k (map fst acc) \/ exists e, In e batch /\ entry_key e = Some k.
Proof.
  induction batch as [| e batch IH]; intros acc k; simpl.
  - split; [auto | intros [H | (e & [] & _)]; assumption].
  - destruct (entry_key e) as [k0 |] eqn:Ek.
    + destruct (key_in k0 acc) eqn:E.
      * rewrite IH. split.
        -- intros [H | (e' & He' & Hk)]; [auto | right; eauto].
        -- intros [H | (e' & [<- | He'] & Hk)]; [auto | | right; eauto].
           left. rewrite Ek in Hk. inversion Hk; subst.
           now apply key_in_iff.
      * rewrite IH, map_app, in_app_iff. simpl. split.
        -- intros [[H | [<- | []]] | (e' & He' & Hk)]; [auto | | ];
             right; eauto.
        -- intros [H | (e' & [<- | He'] & Hk)]; [auto | | right; eauto].
           left. right. left. congruence.
    + rewrite IH. split.
      * intros [H | (e' & He' & Hk)]; [auto | right; eauto].
      * intros [H | (e' & [<- | He'] & Hk)]; [auto | congruence | right; eauto].
Qed.

(** The entry kept for a key is the first of the batch with that key. *)
Lemma collect_updates_first (batch : list expr_dict) :
  forall acc k e,
    In (k, e) (collect_updates batch acc) ->
    In (k, e) acc
    \/ (~ In k (map fst acc)
        /\ exists before after,
            batch = before ++ e :: after
            /\ entry_key e = Some k
            /\ forall e', In e' before -> entry_key e' <> Some k).
Proof.
  induction batch as [| e0 batch IH]; intros acc k e Hin; simpl in Hin;
    [now left |].
  destruct (entry_key e0) as [k0 |] eqn:Ek.
  - destruct (key_in k0 acc) eqn:E.
    + destruct (IH _ _ _ Hin) as [H | (Hk & before & after & -> & He & Hb)];
        [now left | right].
      split; [assumption |].
      exists (e0 :: before), after. repeat split; auto.
      intros e' [<- | He']; [| now apply Hb].
      rewrite Ek. intros Heq. inversion Heq; subst.
      apply Hk. now apply key_in_iff.
    + apply key_in_false in E.
      destruct (IH _ _ _ Hin) as [H | (Hk & before & after & -> & He & Hb)].
      * apply in_app_or in H. destruct H as [H | [H | []]]; [now left |].
        inversion H; subst. right. split; [assumption |].
        exists [], batch. repeat split; auto; intros e' [].
      * right. rewrite map_app, in_app_iff in Hk. simpl in Hk.
        split; [tauto |].
        exists (e0 :: before), after. repeat split; auto.
        intros e' [<- | He']; [| now apply Hb].
        rewrite Ek. intros Heq. inversion Heq; subst. tauto.
  - destruct (IH _ _ _ Hin) as [H | (Hk & before & after & -> & He & Hb)];
      [now left | right].
    split; [assumption |].
    exists (e0 :: before), after. repeat split; auto.
    intros e' [<- | He']; [congruence | now apply Hb].
Qed.

(** An entry the guard skips leaves the first loop as if it were not
    in the batch. *)
Lemma collect_updates_skip (before after : list expr_dict) (bad : expr_dict) :
  entry_key bad = None ->
  forall acc, collect_updates (before ++ bad :: after) acc
              = collect_updates (before ++ after) acc.
Proof.
  intros Hbad. induction before as [| e before IH]; intros acc; simpl.
  - now rewrite Hbad.
  - destruct (entry_key e) as [k |]; [| apply IH].
    destruct (key_in k acc); apply IH.
Qed.

Lemma batch_keys_NoDup (batch : list expr_dict) : NoDup (batch_keys batch).
Proof. apply collect_updates_NoDup. constructor. Qed.

Lemma batch_keys_In (batch : list expr_dict) (k : key) :
  In k (batch_keys batch) <-> exists e, In e batch /\ entry_key e = Some k.
Proof.
  unfold batch_keys. rewrite collect_updates_keys. simpl. tauto.
Qed.

Lemma update_batch_run (batch : list expr_dict) (increment : Q) (w : World) :
  update_expressions_count_batch batch increment w
  = (Ok tt, fold_left (update_one increment) (batch_keys batch) w).
Proof. destruct batch; reflexivity. Qed.

(** The guard: an entry has a key unless its source_id, situation or
    style is absent or empty. *)
Lemma entry_key_none (e : expr_dict) :
  entry_key e = None
  <-> PyStr.truthy_opt (d_source_id e) = false
      \/ PyStr.truthy_opt (d_situation e) = false
      \/ PyStr.truthy_opt (d_style e) = false.
Proof.
  unfold entry_key.
  destruct (d_source_id e) as [a |], (d_situation e) as [c |],
    (d_style e) as [d |]; simpl;
    try destruct (PyStr.truthy a); try destruct (PyStr.truthy c);
    try destruct (PyStr.truthy d); simpl;
    split; intros H; try discriminate; auto;
    destruct H as [H | [H | H]]; discriminate.
Qed.

Lemma In_matched_ids (ks : list key) (table : list Expression) (i : Z) :
  In i (matched_ids ks table)
  <-> exists k r, In k ks /\ query_get k table = Some r /\ id r = i.
Proof.
  unfold matched_ids. rewrite in_flat_map. split.
  - intros (k & Hk & Hi). destruct (query_get k table) as [r |] eqn:E.
    + destruct Hi as [<- | []]. eauto.
    + contradiction.
  - intros (k & r & Hk & Hq & <-). exists k. rewrite Hq. simpl. auto.
Qed.

(** Distinct keys match distinct rows. *)
Lemma matched_ids_NoDup (ks : list key) (table : list Expression) :
  NoDup (map id table) -> NoDup ks -> NoDup (matched_ids ks table).
Proof.
  intros Hids. induction 1 as [| k ks Hk Hks IH]; simpl; [constructor |].
  destruct (query_get k table) as [r |] eqn:E; simpl; [| assumption].
  constructor; [| assumption].
  intros Hin. apply In_matched_ids in Hin.
  destruct Hin as (k' & r' & Hk' & Hq' & Hid).
  apply query_get_some in E. apply query_get_some in Hq'.
  destruct E as [Hr Hkr], Hq' as [Hr' Hkr'].
  assert (r' = r) by exact (@same_id_same_row table r r' Hids Hr Hr' Hid).
  subst r'. congruence.
Qed.
End BatchKeys.

Section ReinforcementNoCreation.
Import Selector.
Variable increment : Q.

Lemma update_one_ids (w : World) (k : key) :
  map id (db (update_one increment w k)) = map id (db w).
Proof.
  destruct (query_get k (db w)) as [r |] eqn:E.
  - rewrite (update_one_matched _ _ _ E). cbn [db]. apply save_ids.
  - now rewrite (update_one_unmatched _ _ _ E).
Qed.

Lemma update_one_none (w : World) (k k' : key) :
  NoDup (map id (db w)) ->
  query_get k' (db w) = None ->
  query_get k' (db (update_one increment w k)) = None.
Proof.
  intros Hids Hnone.
  destruct (query_get k (db w)) as [r |] eqn:E.
  - rewrite (update_one_matched _ _ _ E). cbn [db].
    apply query_get_some in E. destruct E as [Hr _].
    rewrite (@save_query_get (db w) r _ k' Hids Hr); auto.
    now rewrite Hnone.
  - now rewrite (update_one_unmatched _ _ _ E).
Qed.

(** A key without row stays without row: the loop creates nothing. *)
Lemma update_keys_none (ks : list key) (k' : key) :
  forall w, NoDup (map id (db w)) ->
            query_get k' (db w) = None ->
            query_get k' (db (fold_left (update_one increment) ks w)) = None.
Proof.
  induction ks as [| k ks IH]; intros w Hids Hnone; simpl; [assumption |].
  apply IH.
  - now rewrite update_one_ids.
  - now apply update_one_none.
Qed.
End ReinforcementNoCreation.

Lemma py_min_le_cap (x : Q) : (Selector.py_min x 5 <= 5)%Q.
Proof.
  unfold Selector.py_min, Qlt_bool.
  destruct (Qle_bool x 5) eqn:E; simpl.
  - now apply Qle_bool_iff.
  - apply Qle_refl.
Qed.

Lemma py_min_grows (x increment : Q) :
  (0 <= increment)%Q -> (x <= 5)%Q ->
  (x <= Selector.py_min (x + increment) 5)%Q.
Proof.
  intros Hi Hx. unfold Selector.py_min.
  destruct (Qlt_bool 5 (x + increment)); [assumption |].
  rewrite <- (Qplus_0_r x) at 1. apply Qplus_le_compat; [apply Qle_refl | assumption].
Qed.

(** The reinforcement of the specification's example: from 4.95, three
    increments of 0.1 leave the count at 5. *)
Example clamp_three_times :
  let step c := Selector.py_min (c + (1 # 10))%Q 5%Q in
  step (step (step (495 # 100)%Q)) = 5%Q.
Proof. reflexivity. Qed.

(** C3. For a batch and an increment, take any row the batch matches:
    the row [query.get()] returns for the key of an entry the guard lets
    through.  After the call that row (same primary key) holds
    [min(old count + increment, 5.0)], which is at most 5.0, and its
    [last_active_time] is the reading of [time.time()] taken for its
    save; with a non-negative increment and an old count of at most 5.0
    the count did not decrease. *)
Theorem reinforcement_clamps_count :
  forall (batch : list Selector.expr_dict) (increment : Q)
         (w : Selector.World) (e : Selector.expr_dict) (k : Selector.key)
         (r : Selector.Expression),
    NoDup (map Selector.id (Selector.db w)) ->
    In e batch ->
    Selector.entry_key e = Some k ->
    Selector.query_get k (Selector.db w) = Some r ->
    (0 <= increment)%Q ->
    (Selector.count r <= 5)%Q ->
    exists (r' : Selector.Expression) (j : nat) (new : list Selector.write),
      Selector.query_get k
        (Selector.db (snd (Selector.update_expressions_count_batch
                             batch increment w))) = Some r'
      /\ In r' (Selector.db (snd (Selector.update_expressions_count_batch
                                    batch increment w)))
      /\ Selector.id r' = Selector.id r
      /\ Selector.count r'
         = Selector.py_min (Selector.count r + increment)%Q 5%Q
      /\ (Selector.count r' <= 5)%Q
      /\ (Selector.count r <= Selector.count r')%Q
      /\ Selector.last_active_time r' = Selector.clock w j
      /\ Selector.writes (snd (Selector.update_expressions_count_batch
                                 batch increment w))
         = Selector.writes w ++ new
      /\ nth_error new j
         = Some (Selector.mkWrite (Selector.id r) (Selector.count r')
                                  (Selector.clock w j)).
Proof.
  intros batch increment w e k r Hids He Hk Hq Hinc Hold.
  rewrite update_batch_run. cbn [snd].
  assert (Hin : In k (batch_keys batch)) by (apply batch_keys_In; eauto).
  destruct (@update_keys_spec increment (batch_keys batch) w Hids
                              (batch_keys_NoDup batch))
    as (_ & _ & _ & _ & new & Hw & _ & Ht & _ & Hrows).
  destruct (Hrows k r Hin Hq) as (now & Hq' & Hwr).
  destruct (In_nth_error _ _ Hwr) as (j & Hj).
  pose proof (Ht j _ Hj) as Hnow. cbn [Selector.w_time] in Hnow. subst now.
  exists (reinforced increment (Selector.clock w j) r), j, new.
  split; [exact Hq' |].
  split; [now apply query_get_some in Hq' |].
  split; [reflexivity |]. split; [reflexivity |].
  split; [apply py_min_le_cap |].
  split; [now apply py_min_grows |].
  split; [reflexivity |]. split; [exact Hw | exact Hj].
Qed.

(** C4. [update_expressions_count_batch] never raises and:
    - visits each key (source chat_id, type, situation, style) once, the
      keys being those of the entries the guard lets through, and the
      entry kept for a key is the first of the batch with that key;
    - saves one row per visited key that matches a row, and none for a
      key without row, so no row is saved twice;
    - creates no row: the primary keys of the table are unchanged and a
      key without row is still without row afterwards;
    - treats an entry whose source_id, situation or style is absent or
      empty as if it were not in the batch: the other entries are
      processed all the same. *)
Theorem reinforcement_batch_dedup :
  forall (batch : list Selector.expr_dict) (increment : Q)
         (w : Selector.World),
    NoDup (map Selector.id (Selector.db w)) ->
    fst (Selector.update_expressions_count_batch batch increment w) = Ok tt
    /\ NoDup (batch_keys batch)
    /\ (forall k, In k (batch_keys batch)
                  <-> exists e, In e batch /\ Selector.entry_key e = Some k)
    /\ (forall k e,
           In (k, e) (Selector.collect_updates batch []) ->
           exists before after,
             batch = before ++ e :: after
             /\ Selector.entry_key e = Some k
             /\ forall e', In e' before -> Selector.entry_key e' <> Some k)
    /\ (exists new : list Selector.write,
           Selector.writes (snd (Selector.update_expressions_count_batch
                                   batch increment w))
           = Selector.writes w ++ new
           /\ map Selector.w_id new
              = matched_ids (batch_keys batch) (Selector.db w)
           /\ NoDup (map Selector.w_id new))
    /\ map Selector.id
           (Selector.db (snd (Selector.update_expressions_count_batch
                                batch increment w)))
       = map Selector.id (Selector.db w)
    /\ (forall k,
           Selector.query_get k (Selector.db w) = None ->
           Selector.query_get k
             (Selector.db (snd (Selector.update_expressions_count_batch
                                  batch increment w))) = None)
    /\ (forall before bad after,
           batch = before ++ bad :: after ->
           PyStr.truthy_opt (Selector.d_source_id bad) = false
           \/ PyStr.truthy_opt (Selector.d_situation bad) = false
           \/ PyStr.truthy_opt (Selector.d_style bad) = false ->
           Selector.update_expressions_count_batch batch increment w
           = Selector.update_expressions_count_batch
               (before ++ after) increment w).
Proof.
  intros batch increment w Hids.
  rewrite update_batch_run. cbn [fst snd].
  destruct (@update_keys_spec increment (batch_keys batch) w Hids
                              (batch_keys_NoDup batch))
    as (Hid & _ & _ & _ & new & Hw & Hm & _ & _ & _).
  split; [reflexivity |].
  split; [apply batch_keys_NoDup |].
  split; [apply batch_keys_In |].
  split.
  { intros k e Hin.
    destruct (collect_updates_first _ _ _ _ Hin) as [[] | (_ & H)]. exact H. }
  split.
  { exists new. split; [assumption |]. split; [assumption |].
    rewrite Hm. apply matched_ids_NoDup; [assumption |].
    apply batch_keys_NoDup. }
  split; [assumption |].
  split; [intros k Hk; now apply update_keys_none |].
  intros before bad after -> Hbad.
  rewrite update_batch_run. unfold batch_keys.
  rewrite collect_updates_skip; [reflexivity |].
  now apply entry_key_none.
Qed.

(* ================================================================== *)
(** ** From the LLM's answer to the returned lists *)

Section SelectionFacts.
Import PyRandom Sampler Selector.

(** Whatever is sampled comes from the population. *)
Lemma sample_loop_In (A : Type) (k : nat) :
  forall (pc : list A) (wc : list Q) (sel out : list A) (g g' : rng),
    sample_loop k pc wc sel g = (Ok out, g') ->
    forall x, In x out -> In x sel \/ In x pc.
Proof.
  induction k as [| k IH]; intros pc wc sel out g g' H x Hx; simpl in H.
  - inversion H; subst. now left.
  - destruct pc as [| a pc0]; [inversion H; subst; now left |].
    destruct (choices_range (length (a :: pc0)) wc g) as [[idx | e] g1];
      [| discriminate].
    destruct (pop idx (a :: pc0)) as [[y pc'] |] eqn:Ep; [| discriminate].
    destruct (pop idx wc) as [[z wc'] |]; [| discriminate].
    destruct (IH _ _ _ _ _ _ H x Hx) as [Hin | Hin].
    + apply in_app_or in Hin. destruct Hin as [Hin | [<- | []]]; [now left |].
      right. destruct (Nat.lt_ge_cases idx (length (a :: pc0))) as [Hlt | Hge].
      * destruct (pop_some (a :: pc0) Hlt) as (y' & l' & Hp & Hn & _).
        rewrite Hp in Ep. inversion Ep; subst.
        eapply nth_error_In; eauto.
      * exfalso. clear - Ep Hge. revert idx y pc' Ep Hge.
        generalize (a :: pc0) as l.
        induction l as [| b l IHl]; intros idx y pc' Ep Hge;
          [destruct idx; discriminate |].
        destruct idx as [| idx]; simpl in *; [lia |].
        destruct (pop idx l) as [[y0 t] |] eqn:E; [| discriminate].
        eapply IHl; eauto. lia.
    + right. eapply pop_In; eauto.
Qed.

Lemma weighted_sample_In (A : Type) (population : list A) (weights : list Q)
      (k : Z) (g g' : rng) (out : list A) :
  weighted_sample population weights k g = (Ok out, g') ->
  forall x, In x out -> In x population.
Proof.
  unfold weighted_sample. intros H x Hx.
  destruct population as [| a p]; [inversion H; subst; contradiction |].
  destruct weights as [| w ws]; [inversion H; subst; contradiction |].
  destruct (k <=? 0)%Z; [inversion H; subst; contradiction |].
  destruct (Z.of_nat (length (a :: p)) <=? k)%Z;
    [inversion H; subst; assumption |].
  destruct (sample_loop_In _ _ _ _ _ H x Hx) as [[] | Hin]. exact Hin.
Qed.

(** Every candidate retrieval returns is the dictionary of a stored
    style row. *)
Lemma get_random_expressions_rows (env : Env) (cid : string) (n : Z)
      (w w1 : World) (cands : list expr_dict) :
  get_random_expressions env cid n w = (Ok cands, w1) ->
  forall c, In c cands ->
            exists r, In r (db w) /\ type r = "style"%string
                      /\ c = dict_of_row r.
Proof.
  unfold get_random_expressions. intros H c Hc.
  set (rows := style_query (get_related_chat_ids env cid) (db w)) in *.
  assert (Hpop : In c (map dict_of_row rows)).
  { destruct (map dict_of_row rows) as [| d ds] eqn:E.
    - inversion H; subst. contradiction.
    - destruct (weighted_sample (d :: ds) (map weight_of (d :: ds)) n (gen w))
        as [sel g'] eqn:Es.
      inversion H; subst. eapply weighted_sample_In; eauto. }
  apply in_map_iff in Hpop. destruct Hpop as (r & <- & Hr).
  apply filter_In in Hr. destruct Hr as [Hr Hf].
  apply andb_true_iff in Hf. destruct Hf as [_ Ht].
  apply String.eqb_eq in Ht. eauto.
Qed.

Lemma render_situations_total (l : list expr_dict) :
  (forall c, In c l -> exists r, c = dict_of_row r) ->
  forall n, exists sits, render_situations n l = Ok sits.
Proof.
  induction l as [| c l IH]; intros H n; simpl; [eauto |].
  destruct (H c (or_introl eq_refl)) as (r & ->). simpl.
  destruct (IH (fun c' Hc' => H c' (or_intror Hc')) (n + 1)%Z) as (sits & ->).
  simpl. eauto.
Qed.

Lemma designated_In (cands : list expr_dict) (idx : json) (c : expr_dict) :
  designated cands idx = Some c -> In c cands.
Proof.
  unfold designated. destruct (PyJson.as_int idx) as [i |]; [| discriminate].
  destruct ((1 <=? i) && (i <=? Z.of_nat (length cands)))%Z; [| discriminate].
  apply nth_error_In.
Qed.

Lemma designated_all_In (cands : list expr_dict) (items : list json)
      (c : expr_dict) :
  In c (designated_all cands items) -> In c cands.
Proof.
  unfold designated_all. rewrite in_flat_map. intros (idx & _ & Hc).
  destruct (designated cands idx) as [c' |] eqn:E; [| contradiction].
  destruct Hc as [<- | []]. eapply designated_In; eauto.
Qed.

(** The loop over [selected_indices]: entry by entry, the designated
    candidate and its id are appended, in order; nothing else is. *)
Lemma pick_loop_spec (cands : list expr_dict) :
  (forall c, In c cands -> exists i, d_id c = Some i) ->
  forall (items : list json) (valid : list expr_dict) (ids : list Z),
  exists ids',
    pick_loop cands items valid ids
    = Ok (valid ++ designated_all cands items, ids ++ ids')
    /\ map d_id (designated_all cands items) = map Some ids'.
Proof.
  intros Hid. induction items as [| idx items IH]; intros valid ids.
  - exists []. simpl. now rewrite !app_nil_r.
  - cbn [pick_loop].
    change (designated_all cands (idx :: items))
      with (match designated cands idx with
            | Some expression => [expression]
            | None => []
            end ++ designated_all cands items).
    unfold designated.
    destruct (PyJson.as_int idx) as [i |]; [| apply IH].
    destruct ((1 <=? i) && (i <=? Z.of_nat (length cands)))%Z eqn:Er;
      [| apply IH].
    destruct (nth_error cands (Z.to_nat (i - 1))) as [c |] eqn:En.
    + destruct (Hid c (nth_error_In _ _ En)) as (eid & Heid).
      rewrite Heid. simpl subscript. cbv iota.
      destruct (IH (valid ++ [c]) (ids ++ [eid])) as (ids' & Hrun & Hmap).
      exists (eid :: ids'). rewrite Hrun, <- !app_assoc. simpl.
      now rewrite Heid, Hmap.
    + exfalso. apply nth_error_None in En.
      apply andb_true_iff in Er. destruct Er as [E1 E2].
      apply Z.leb_le in E1, E2. lia.
Qed.

Lemma entry_key_dict_of_row (r : Expression) (k : key) :
  entry_key (dict_of_row r) = Some k ->
  k = (chat_id r, "style"%string, situation r, style r).
Proof.
  unfold entry_key, dict_of_row. simpl.
  destruct (negb (PyStr.truthy (chat_id r)) || negb (PyStr.truthy (situation r))
            || negb (PyStr.truthy (style r))); [discriminate |].
  intros H. now inversion H.
Qed.
End SelectionFacts.

Section SelectionRun.
Import Selector.

(** The guarded part, when the LLM answers a JSON object whose
    [selected_situations] is a list. *)
Lemma select_from_llm_run (env : Env) (cands : list expr_dict)
      (prompt content : string) (fields : list (string * json))
      (items : list json) (w : World) :
  (forall c, In c cands -> exists i, d_id c = Some i) ->
  llm_content env prompt = Ok content ->
  PyStr.truthy content = true ->
  loads_repaired env content = Ok (JDict fields) ->
  PyJson.lookup "selected_situations" fields = Some (JList items) ->
  exists ids,
    map d_id (designated_all cands items) = map Some ids
    /\ select_from_llm env cands prompt w
       = (Ok (designated_all cands items, ids),
          fold_left (update_one (3 # 500))
                    (batch_keys (designated_all cands items))
                    (prompt_sent prompt w)).
Proof.
  intros Hid Hllm Htruthy Hloads Hlookup.
  destruct (pick_loop_spec cands Hid items [] []) as (ids & Hpick & Hmap).
  simpl in Hpick.
  exists ids. split; [assumption |].
  unfold select_from_llm, bind, generate_response, lift, ret.
  rewrite Hllm, Htruthy. cbn [negb]. rewrite Hloads, Hlookup.
  cbn [PyJson.iterate]. rewrite Hpick.
  destruct (designated_all cands items) as [| c cs] eqn:E; [reflexivity |].
  rewrite update_batch_run. reflexivity.
Qed.

Lemma match_nonempty (A B : Type) (l : list A) (x y : B) :
  l <> [] -> match l with [] => x | _ :: _ => y end = y.
Proof. destruct l; [contradiction | reflexivity]. Qed.

(** The whole call, when the gates are passed and the LLM answers a
    list: the designated candidates are returned with their ids, and
    the keys of those candidates are reinforced with 0.006. *)
Lemma select_run (env : Env) (cid chat_info : string) (max_num : Z)
      (target_message : option string) (w w1 : World)
      (cands : list expr_dict) (content : string)
      (fields : list (string * json)) (items : list json) :
  can_use_expression_for_chat env cid = true ->
  get_random_expressions env cid 10 w = (Ok cands, w1) ->
  10 <= length cands ->
  (forall sits, render_situations 1 cands = Ok sits ->
                llm_content env (selection_prompt env chat_info max_num
                                                  target_message sits)
                = Ok content) ->
  PyStr.truthy content = true ->
  loads_repaired env content = Ok (JDict fields) ->
  PyJson.lookup "selected_situations" fields = Some (JList items) ->
  exists ids sits,
    render_situations 1 cands = Ok sits
    /\ map d_id (designated_all cands items) = map Some ids
    /\ select_suitable_expressions_llm env cid chat_info max_num
                                       target_message w
       = (Ok (designated_all cands items, ids),
          fold_left (update_one (3 # 500))
                    (batch_keys (designated_all cands items))
                    (prompt_sent (selection_prompt env chat_info max_num
                                                   target_message sits)
                                 w1)).
Proof.
  intros Hcan Hget Hlen Hllm Htruthy Hloads Hlookup.
  pose proof (get_random_expressions_rows _ _ _ _ Hget) as Hrows.
  destruct (@render_situations_total cands) with (n := 1%Z) as (sits & Hsits).
  { intros c Hc. destruct (Hrows c Hc) as (r & _ & _ & ->). eauto. }
  assert (Hid : forall c, In c cands -> exists i, d_id c = Some i).
  { intros c Hc. destruct (Hrows c Hc) as (r & _ & _ & ->).
    simpl. eauto. }
  destruct (select_from_llm_run env cands
              (selection_prompt env chat_info max_num target_message sits)
              w1 Hid (Hllm sits Hsits) Htruthy Hloads Hlookup)
    as (ids & Hmap & Hrun).
  exists ids, sits. split; [assumption |]. split; [assumption |].
  unfold select_suitable_expressions_llm.
  rewrite Hcan. cbn [negb]. unfold bind at 1. rewrite Hget.
  apply Nat.ltb_ge in Hlen. rewrite Hlen.
  unfold bind, lift. rewrite Hsits.
  rewrite match_nonempty
    by (intros ->; apply Nat.ltb_ge in Hlen; simpl in Hlen; lia).
  unfold try_except. now rewrite Hrun.
Qed.
End SelectionRun.

(** C10, as amended.  Let the gates be passed and the LLM answer a list.
    The call returns, entry after entry of that list, the candidate the
    entry designates and its id: an index met twice is returned twice.
    The reinforcement that follows works by key: each selected candidate
    whose source chat_id, situation and style are non-empty has a row
    matching its key, that row is saved exactly once in the call however
    many times the candidate was selected, with
    [min(old count + 0.006, 5.0)] as its count.  (A candidate with an
    empty field has no key and is not reinforced.) *)
Theorem duplicates_reinforced_once :
  forall (env : Selector.Env) (cid chat_info : string) (max_num : Z)
         (target_message : option string) (w w1 : Selector.World)
         (cands : list Selector.expr_dict) (content : string)
         (fields : list (string * json)) (items : list json),
    NoDup (map Selector.id (Selector.db w)) ->
    Selector.can_use_expression_for_chat env cid = true ->
    Selector.get_random_expressions env cid 10 w = (Ok cands, w1) ->
    10 <= length cands ->
    (forall sits,
        Selector.render_situations 1 cands = Ok sits ->
        Selector.llm_content env
          (Selector.selection_prompt env chat_info max_num target_message sits)
        = Ok content) ->
    PyStr.truthy content = true ->
    Selector.loads_repaired env content = Ok (JDict fields) ->
    PyJson.lookup "selected_situations" fields = Some (JList items) ->
    exists (ids : list Z) (new : list Selector.write),
      fst (Selector.select_suitable_expressions_llm
             env cid chat_info max_num target_message w)
      = Ok (designated_all cands items, ids)
      /\ map Selector.d_id (designated_all cands items) = map Some ids
      /\ Selector.writes
           (snd (Selector.select_suitable_expressions_llm
                   env cid chat_info max_num target_message w))
         = Selector.writes w ++ new
      /\ forall (c : Selector.expr_dict) (k : Selector.key),
          In c (designated_all cands items) ->
          Selector.entry_key c = Some k ->
          exists (r : Selector.Expression) (now : Q),
            Selector.query_get k (Selector.db w) = Some r
            /\ count_occ Z.eq_dec (map Selector.w_id new) (Selector.id r) = 1
            /\ Selector.query_get k
                 (Selector.db
                    (snd (Selector.select_suitable_expressions_llm
                            env cid chat_info max_num target_message w)))
               = Some (reinforced (3 # 500) now r).
Proof.
  intros env cid chat_info max_num target_message w w1 cands content fields
         items Hids Hcan Hget Hlen Hllm Htruthy Hloads Hlookup.
  destruct (select_run env cid chat_info max_num target_message w
                       Hcan Hget Hlen Hllm Htruthy Hloads Hlookup)
    as (ids & sits & _ & Hmap & Hrun).
  rewrite Hrun. cbn [fst snd].
  pose proof (get_random_expressions_frame _ _ _ _ Hget)
    as (Hdb & _ & Hwrites & _).
  set (w2 := Selector.prompt_sent
               (Selector.selection_prompt env chat_info max_num
                                          target_message sits) w1) in *.
  assert (Hdb2 : Selector.db w2 = Selector.db w) by exact Hdb.
  assert (Hwrites2 : Selector.writes w2 = Selector.writes w) by exact Hwrites.
  assert (Hids2 : NoDup (map Selector.id (Selector.db w2)))
    by now rewrite Hdb2.
  destruct (@update_keys_spec (3 # 500)
              (batch_keys (designated_all cands items)) w2 Hids2
              (batch_keys_NoDup _))
    as (_ & _ & _ & _ & new & Hw & Hm & _ & _ & Hrows).
  rewrite Hdb2 in Hm, Hrows. rewrite Hwrites2 in Hw.
  exists ids, new.
  split; [reflexivity |]. split; [assumption |]. split; [assumption |].
  intros c k Hc Hk.
  assert (Hin : In k (batch_keys (designated_all cands items)))
    by (apply batch_keys_In; eauto).
  destruct (get_random_expressions_rows _ _ _ _ Hget c
              (designated_all_In _ _ _ Hc)) as (r0 & Hr0 & Htype & ->).
  apply entry_key_dict_of_row in Hk.
  assert (Hkey : Selector.row_key r0 = k)
    by (unfold Selector.row_key; now rewrite Htype, Hk).
  destruct (query_get_exists _ Hr0 Hkey) as (r & Hq).
  destruct (Hrows k r Hin Hq) as (now & Hq' & Hwr).
  exists r, now. split; [assumption |]. split; [| assumption].
  apply NoDup_count_occ'.
  - rewrite Hm. apply matched_ids_NoDup; [assumption |].
    apply batch_keys_NoDup.
  - apply in_map_iff. eexists. split; [| exact Hwr]. reflexivity.
Qed.

(* ================================================================== *)
(** ** The statements at sample inputs *)

Ltac distinct_ids :=
  repeat (constructor; [simpl; intuition discriminate |]); constructor.

Lemma select_gates_skip_llm_witness :
  fst (Selector.select_suitable_expressions_llm
         (Fixtures.env_of false [] [JInt 1]) "chat" "info" 3 None
         (Fixtures.world_of Fixtures.table))
  = Ok ([], [])
  /\ Selector.llm_prompts
       (snd (Selector.select_suitable_expressions_llm
               (Fixtures.env_of false [] [JInt 1]) "chat" "info" 3 None
               (Fixtures.world_of Fixtures.table)))
     = Selector.llm_prompts (Fixtures.world_of Fixtures.table)
  /\ Selector.db
       (snd (Selector.select_suitable_expressions_llm
               (Fixtures.env_of false [] [JInt 1]) "chat" "info" 3 None
               (Fixtures.world_of Fixtures.table)))
     = Selector.db (Fixtures.world_of Fixtures.table).
Proof.
  apply (select_gates_skip_llm
           (Fixtures.env_of false [] [JInt 1]) "chat" "info" 3 None
           (Fixtures.world_of Fixtures.table)).
  left. reflexivity.
Defined.

(** Nine stored rows are below the threshold even when the caller asks
    for a single expression. *)
Example nine_rows_are_not_enough :
  Selector.select_suitable_expressions_llm
    (Fixtures.env_of true [] [JInt 1]) "chat" "info" 1 None
    (Fixtures.world_of (tl Fixtures.table))
  = (Ok ([], []), Fixtures.world_of (tl Fixtures.table)).
Proof. reflexivity. Qed.

Lemma reinforcement_clamps_count_witness :
  exists (r' : Selector.Expression) (j : nat) (new : list Selector.write),
    Selector.query_get ("chat", "style", "s8", "t8")%string
      (Selector.db
         (snd (Selector.update_expressions_count_batch
                 [Selector.dict_of_row
                    (Fixtures.style_row 8 "s8" "t8" (499 # 100))]
                 (1 # 10) (Fixtures.world_of Fixtures.table)))) = Some r'
    /\ In r' (Selector.db
                (snd (Selector.update_expressions_count_batch
                        [Selector.dict_of_row
                           (Fixtures.style_row 8 "s8" "t8" (499 # 100))]
                        (1 # 10) (Fixtures.world_of Fixtures.table))))
    /\ Selector.id r' = 8%Z
    /\ Selector.count r'
       = Selector.py_min ((499 # 100) + (1 # 10))%Q 5%Q
    /\ (Selector.count r' <= 5)%Q
    /\ ((499 # 100) <= Selector.count r')%Q
    /\ Selector.last_active_time r'
       = Selector.clock (Fixtures.world_of Fixtures.table) j
    /\ Selector.writes
         (snd (Selector.update_expressions_count_batch
                 [Selector.dict_of_row
                    (Fixtures.style_row 8 "s8" "t8" (499 # 100))]
                 (1 # 10) (Fixtures.world_of Fixtures.table)))
       = [] ++ new
    /\ nth_error new j
       = Some (Selector.mkWrite 8 (Selector.count r')
                 (Selector.clock (Fixtures.world_of Fixtures.table) j)).
Proof.
  apply (@reinforcement_clamps_count
           [Selector.dict_of_row (Fixtures.style_row 8 "s8" "t8" (499 # 100))]
           (1 # 10)%Q (Fixtures.world_of Fixtures.table)
           (Selector.dict_of_row (Fixtures.style_row 8 "s8" "t8" (499 # 100)))
           ("chat", "style", "s8", "t8")%string
           (Fixtures.style_row 8 "s8" "t8" (499 # 100))).
  - distinct_ids.
  - left. reflexivity.
  - reflexivity.
  - reflexivity.
  - unfold Qle. simpl. lia.
  - unfold Qle. simpl. lia.
Defined.

Lemma reinforcement_batch_dedup_witness :
  exists new : list Selector.write,
    Selector.writes
      (snd (Selector.update_expressions_count_batch
              [ Selector.dict_of_row (Fixtures.style_row 1 "s1" "t1" 1);
                Selector.dict_of_row (Fixtures.style_row 77 "s1" "t1" 3);
                Selector.dict_of_row (Fixtures.style_row 2 "" "t2" 1);
                Selector.dict_of_row (Fixtures.style_row 3 "nowhere" "t3" 1) ]
              (1 # 10) (Fixtures.world_of Fixtures.table)))
    = [] ++ new
    /\ map Selector.w_id new = [1%Z]
    /\ NoDup (map Selector.w_id new).
Proof.
  exact (proj1 (proj2 (proj2 (proj2 (proj2
           (@reinforcement_batch_dedup
              [ Selector.dict_of_row (Fixtures.style_row 1 "s1" "t1" 1);
                Selector.dict_of_row (Fixtures.style_row 77 "s1" "t1" 3);
                Selector.dict_of_row (Fixtures.style_row 2 "" "t2" 1);
                Selector.dict_of_row (Fixtures.style_row 3 "nowhere" "t3" 1) ]
              (1 # 10)%Q (Fixtures.world_of Fixtures.table)
              ltac:(distinct_ids))))))).
Defined.

Lemma get_related_chat_ids_spec_witness :
  Selector.get_related_chat_ids
    (Fixtures.env_of true [["qq:1:group"; "broken"; "qq:2:group"]]%string [])
    "5d71d793b424c68b49df1b7b3bf5d03b"
  = ["5d71d793b424c68b49df1b7b3bf5d03b";
     "30ed4fe7a08e96ade4bc82f4c658b40d"]%string
  /\ Selector.get_related_chat_ids
       (Fixtures.env_of true [["qq:1:group"; "broken"; "qq:2:group"]]%string [])
       "chat"
     = ["chat"%string].
Proof.
  split.
  - refine (eq_trans
              (proj1 (get_related_chat_ids_spec
                        (Fixtures.env_of
                           true [["qq:1:group"; "broken"; "qq:2:group"]]%string [])
                        "5d71d793b424c68b49df1b7b3bf5d03b")
                     [] [] ["qq:1:group"; "broken"; "qq:2:group"]%string
                     eq_refl _ _) _).
    + intros g [].
    + vm_compute. left. reflexivity.
    + vm_compute. reflexivity.
  - apply (proj2 (get_related_chat_ids_spec
                    (Fixtures.env_of
                       true [["qq:1:group"; "broken"; "qq:2:group"]]%string [])
                    "chat")).
    intros g [<- | []]. vm_compute. intros [H | [H | []]]; discriminate.
Defined.

Lemma generate_llm_fallback_witness :
  ReplyGenerator.generate
    (Fixtures.generator_of [Fixtures.heard (Some 1700000000%Q) "hi"]
                           (fun _ => Raise RuntimeError))
    "goal" [] (ReplyGenerator.KList []) None 0
  = Ok "抱歉，我现在有点混乱，让我重新思考一下..."%string.
Proof.
  assert (Hp : exists prompt,
             ReplyGenerator.compose_prompt
               (Fixtures.generator_of
                  [Fixtures.heard (Some 1700000000%Q) "hi"]
                  (fun _ => Raise RuntimeError))
               "goal" (ReplyGenerator.KList []) None = Ok prompt)
    by (eexists; reflexivity).
  destruct Hp as (prompt & Hp).
  exact (proj1 (@generate_llm_fallback
                  (Fixtures.generator_of
                     [Fixtures.heard (Some 1700000000%Q) "hi"]
                     (fun _ => Raise RuntimeError))
                  "goal" [] (ReplyGenerator.KList []) None 0 prompt Hp)
               RuntimeError eq_refl eq_refl).
Defined.

(** C9 as stated fails before the guarded call: a message of the history
    without its ["time"] key makes [msg["time"]] raise [KeyError], which
    [generate] lets through although the LLM would have answered. *)
Lemma generate_propagates_history_error :
  ReplyGenerator.generate
    (Fixtures.generator_of [Fixtures.heard None "hi"] (fun _ => Ok "fine"%string))
    "goal" [] (ReplyGenerator.KList []) None 0
  = Raise KeyError.
Proof. reflexivity. Qed.

(** The same holds for a failure of the chat observer. *)
Example generate_propagates_observer_error :
  ReplyGenerator.generate
    {| ReplyGenerator.name := "bot";
       ReplyGenerator.personality_info := "calm";
       ReplyGenerator.trigger_update := Ok tt;
       ReplyGenerator.wait_for_update := Ok false;
       ReplyGenerator.get_message_history := fun _ => Raise RuntimeError;
       ReplyGenerator.llm_generate := fun _ => Ok "fine"%string;
       ReplyGenerator.format_time := fun _ => Ok "00:00:00"%string |}
    "goal" [] (ReplyGenerator.KList []) None 0
  = Raise RuntimeError.
Proof. reflexivity. Qed.

(** The specification's example of index resolution: of
    [[1, 10, 11, 0, "x"]] over ten candidates, 1 and 10 are kept, in that
    order. *)
Example selection_indexing :
  fst (Selector.select_suitable_expressions_llm
         (Fixtures.env_of true [] [JInt 1; JInt 10; JInt 11; JInt 0; JStr "x"])
         "chat" "info" 10 None (Fixtures.world_of Fixtures.table))
  = Ok ([Selector.dict_of_row (Fixtures.style_row 1 "s1" "t1" 1);
         Selector.dict_of_row (Fixtures.style_row 10 "s10" "t10" 5)],
        [1%Z; 10%Z]).
Proof. vm_compute. reflexivity. Qed.

(** C2 at the input where the code departs from it: the answer
    [{"selected_situations": [true]}].  [isinstance(True, int)] holds and
    [1 <= True <= 10], so the boolean is kept and read as index 1: the
    first candidate and its id are returned, and its row is reinforced. *)
Theorem json_true_is_kept_as_index_1 :
  fst (Selector.select_suitable_expressions_llm
         (Fixtures.env_of true [] [JBool true])
         "chat" "info" 10 None (Fixtures.world_of Fixtures.table))
  = Ok ([Selector.dict_of_row (Fixtures.style_row 1 "s1" "t1" 1)], [1%Z])
  /\ map Selector.w_id
         (Selector.writes
            (snd (Selector.select_suitable_expressions_llm
                    (Fixtures.env_of true [] [JBool true])
                    "chat" "info" 10 None (Fixtures.world_of Fixtures.table))))
     = [1%Z].
Proof. vm_compute. split; reflexivity. Qed.

Lemma duplicates_reinforced_once_witness :
  exists (ids : list Z) (new : list Selector.write),
    fst (Selector.select_suitable_expressions_llm
           (Fixtures.env_of true [] [JInt 1; JInt 1])
           "chat" "info" 10 None (Fixtures.world_of Fixtures.table))
    = Ok (designated_all (map Selector.dict_of_row Fixtures.table)
                         [JInt 1; JInt 1], ids)
    /\ length ids = 2
    /\ Selector.writes
         (snd (Selector.select_suitable_expressions_llm
                 (Fixtures.env_of true [] [JInt 1; JInt 1])
                 "chat" "info" 10 None (Fixtures.world_of Fixtures.table)))
       = [] ++ new
    /\ count_occ Z.eq_dec (map Selector.w_id new) 1%Z = 1.
Proof.
  destruct (@duplicates_reinforced_once
              (Fixtures.env_of true [] [JInt 1; JInt 1])
              "chat" "info" 10 None
              (Fixtures.world_of Fixtures.table)
              (Fixtures.world_of Fixtures.table)
              (map Selector.dict_of_row Fixtures.table)
              "answer"
              [("selected_situations"%string, JList [JInt 1; JInt 1])]
              [JInt 1; JInt 1])
    as (ids & new & Hfst & Hmap & Hw & Hrows).
  - distinct_ids.
  - reflexivity.
  - reflexivity.
  - simpl. lia.
  - intros sits _. reflexivity.
  - reflexivity.
  - reflexivity.
  - reflexivity.
  - exists ids, new. split; [exact Hfst |].
    split.
    { apply (f_equal (@length _)) in Hmap. rewrite !length_map in Hmap.
      rewrite <- Hmap. reflexivity. }
    split; [exact Hw |].
    destruct (Hrows (Selector.dict_of_row (Fixtures.style_row 1 "s1" "t1" 1))
                    ("chat", "style", "s1", "t1")%string)
      as (r & now & Hq & Hcount & _).
    + left. reflexivity.
    + reflexivity.
    + inversion Hq; subst r. exact Hcount.
Defined.

(** C10 as stated fails for a candidate with an empty field.  The first
    row has an empty situation; the LLM selects it twice.  It is returned
    twice, but the batch skips it: no row is saved, the table is as
    before, its count was not incremented. *)
Lemma duplicates_of_blank_situation_not_reinforced :
  fst (Selector.select_suitable_expressions_llm
         (Fixtures.env_of true [] [JInt 1; JInt 1])
         "chat" "info" 10 None (Fixtures.world_of (Fixtures.table_with "")))
  = Ok ([Selector.dict_of_row (Fixtures.style_row 1 "" "t1" 1);
         Selector.dict_of_row (Fixtures.style_row 1 "" "t1" 1)],
        [1%Z; 1%Z])
  /\ Selector.writes
       (snd (Selector.select_suitable_expressions_llm
               (Fixtures.env_of true [] [JInt 1; JInt 1])
               "chat" "info" 10 None
               (Fixtures.world_of (Fixtures.table_with ""))))
     = []
  /\ Selector.db
       (snd (Selector.select_suitable_expressions_llm
               (Fixtures.env_of true [] [JInt 1; JInt 1])
               "chat" "info" 10 None
               (Fixtures.world_of (Fixtures.table_with ""))))
     = Fixtures.table_with "".
Proof. vm_compute. repeat split; reflexivity. Qed.

(* ================================================================== *)
(** ** Further properties of retrieval and sampling *)

(** When at most [total_num] style rows are stored for the chat and its
    related chats, [get_random_expressions] returns the dictionaries of
    all of them, each row once, in the order of the store's answer
    (which the query leaves open), and draws nothing. *)
Theorem small_pool_is_returned_whole :
  forall (env : Selector.Env) (cid : string) (total_num : Z)
         (w : Selector.World),
    (0 < total_num)%Z ->
    (Z.of_nat (length (Selector.style_query
                         (Selector.get_related_chat_ids env cid)
                         (Selector.db w))) <= total_num)%Z ->
    exists rows : list Selector.Expression,
      Selector.get_random_expressions env cid total_num w
      = (Ok (map Selector.dict_of_row rows), w)
      /\ Permutation rows
                     (Selector.style_query
                        (Selector.get_related_chat_ids env cid)
                        (Selector.db w)).
Proof.
  intros env cid total_num w Hn Hlen.
  exists (Selector.style_query (Selector.get_related_chat_ids env cid)
                               (Selector.db w)).
  split; [now apply get_random_expressions_small_pool | apply Permutation_refl].
Qed.

Lemma small_pool_is_returned_whole_witness :
  exists rows : list Selector.Expression,
    Selector.get_random_expressions
      (Fixtures.env_of true [] []) "chat" 10 (Fixtures.world_of Fixtures.table)
    = (Ok (map Selector.dict_of_row rows), Fixtures.world_of Fixtures.table)
    /\ Permutation rows
                   (Selector.style_query
                      (Selector.get_related_chat_ids
                         (Fixtures.env_of true [] []) "chat")
                      (Selector.db (Fixtures.world_of Fixtures.table))).
Proof.
  apply (@small_pool_is_returned_whole
           (Fixtures.env_of true [] []) "chat" 10
           (Fixtures.world_of Fixtures.table)).
  - lia.
  - simpl. lia.
Defined.

Lemma weighted_sample_positive_weights_witness :
  exists (selected : list string) (positions : list nat),
    fst (Sampler.weighted_sample ["a"; "b"; "c"]%string [1%Q; 2%Q; (1 # 2)%Q]
                                 2 (fun _ => 7%Q)) = Ok selected
    /\ length selected = 2
    /\ NoDup positions
    /\ map (nth_error ["a"; "b"; "c"]%string) positions = map Some selected.
Proof.
  apply (@weighted_sample_positive_weights string
           ["a"; "b"; "c"]%string [1%Q; 2%Q; (1 # 2)%Q] 2 (fun _ => 7%Q)).
  - discriminate.
  - reflexivity.
  - intros w [<- | [<- | [<- | []]]]; reflexivity.
  - vm_compute. discriminate.
  - lia.
Defined.

Lemma chat_id_is_32_lowercase_hex_witness :
  String.length "7deee6a540a5e383b216d80b7e89efa6" = 32
  /\ all_chars is_lower_hex "7deee6a540a5e383b216d80b7e89efa6" = true.
Proof.
  apply (@chat_id_is_32_lowercase_hex "qq:12345:group"
                                      "7deee6a540a5e383b216d80b7e89efa6").
  vm_compute. reflexivity.
Defined.

(* ################################################################## *)
(** * Further properties *)

(* ================================================================== *)
(** ** The sampler: its outcomes, zero weights, refusals and shares *)

Section SamplerOutcome.
Import PyRandom Sampler.

(** Whatever the weights, one draw answers a position of both lists or
    raises [ValueError]. *)
Lemma choices_range_outcome (n : nat) (weights : list Q) (g : rng) :
  0 < n ->
  (exists idx, choices_range n weights g = (Ok idx, snd (random g))
               /\ idx < n /\ length weights = n)
  \/ choices_range n weights g = (Raise ValueError, g).
Proof.
  intros Hn. unfold choices_range.
  destruct (Nat.eqb_spec (length (accumulate weights)) n) as [E | E];
    [| now right].
  cbn [negb]. rewrite accumulate_length in E.
  destruct (rev (accumulate weights)) as [| total rest] eqn:Er.
  - apply (f_equal (@length Q)) in Er.
    rewrite length_rev, accumulate_length in Er. simpl in Er. lia.
  - destruct (Qle_bool total 0); [now right |].
    destruct (isfinite total); cbn [negb]; [| now right].
    left. eexists. split; [reflexivity |]. split; [| assumption].
    pose proof (bisect_bounds (accumulate weights) (g O * total)%Q (n - 1)).
    lia.
Qed.

Variable A : Type.

Lemma sample_loop_outcome (k : nat) :
  forall (pc : list A) (wc : list Q) (sel : list A) (g : rng),
    (exists picked positions g',
        sample_loop k pc wc sel g = (Ok (sel ++ picked), g')
        /\ length picked = Nat.min k (length pc)
        /\ NoDup positions
        /\ map (nth_error pc) positions = map Some picked)
    \/ exists g', sample_loop k pc wc sel g = (Raise ValueError, g').
Proof.
  induction k as [| k IH]; intros pc wc sel g.
  - left. exists [], [], g. simpl. rewrite app_nil_r.
    repeat split; constructor.
  - destruct pc as [| a pc0].
    + left. exists [], [], g. simpl. rewrite app_nil_r.
      repeat split; constructor.
    + cbn [sample_loop]. remember (a :: pc0) as pc eqn:Epc.
      assert (Hn : 0 < length pc) by (rewrite Epc; simpl; lia).
      destruct (choices_range_outcome wc g Hn)
        as [(idx & Hc & Hidx & Hlen) | Hc]; rewrite Hc; [| right; eauto].
      destruct (@pop_some A idx pc Hidx) as (x & pc' & Hp & Hx & Hl & Hj).
      assert (Hidx' : idx < length wc) by lia.
      destruct (@pop_some Q idx wc Hidx') as (y & wc' & Hp' & _ & Hl' & _).
      rewrite Hp, Hp'.
      destruct (IH pc' wc' (sel ++ [x]) (snd (random g)))
        as [(picked & positions & g' & Hrun & Hlp & Hnd & Hmap) | (g' & Hrun)];
        [| right; eauto].
      left. exists (x :: picked), (idx :: map (unpop idx) positions), g'.
      rewrite Hrun, <- app_assoc.
      split; [reflexivity |].
      split; [cbn [length]; rewrite Hlp, Hl; reflexivity |].
      split; [now apply NoDup_map_unpop |].
      cbn [map]. rewrite Hx. f_equal. rewrite map_map, <- Hmap.
      apply map_ext. intros j. symmetry. apply Hj.
Qed.
End SamplerOutcome.

(** The two outcomes of the sampler, with the generator it leaves. *)
Lemma weighted_sample_cases (A : Type) (population : list A) (weights : list Q)
      (k : Z) (g : PyRandom.rng) :
  (exists (selected : list A) (positions : list nat) (g' : PyRandom.rng),
      Sampler.weighted_sample population weights k g = (Ok selected, g')
      /\ NoDup positions
      /\ map (nth_error population) positions = map Some selected
      /\ (Z.of_nat (length selected) <= Z.max 0 k)%Z
      /\ (population <> [] -> weights <> [] -> (0 < k)%Z ->
          length selected
          = Z.to_nat (Z.min k (Z.of_nat (length population)))))
  \/ exists g' : PyRandom.rng,
       Sampler.weighted_sample population weights k g = (Raise ValueError, g').
Proof.
  unfold Sampler.weighted_sample.
  destruct population as [| a p] eqn:Ep.
  { left. exists [], [], g. simpl.
    repeat split; try constructor; try lia; intros; contradiction. }
  destruct weights as [| w ws] eqn:Ew.
  { left. exists [], [], g. simpl.
    repeat split; try constructor; try lia; intros; contradiction. }
  rewrite <- Ep, <- Ew in *.
  destruct (Z.leb_spec k 0) as [Hk | Hk].
  { left. exists [], [], g. simpl.
    repeat split; try constructor; try lia; intros; lia. }
  destruct (Z.leb_spec (Z.of_nat (length population)) k) as [Hle | Hgt].
  - left. exists population, (seq 0 (length population)), g. simpl.
    split; [reflexivity |]. split; [apply seq_NoDup |].
    split; [apply nth_error_all_positions |]. split; lia.
  - destruct (@sample_loop_outcome A (Z.to_nat k) population weights [] g)
      as [(picked & positions & g' & Hrun & Hlp & Hnd & Hmap) | (g' & Hrun)];
      rewrite Hrun; [left | right; eauto].
    exists picked, positions, g'. simpl.
    split; [reflexivity |]. split; [assumption |]. split; [assumption |].
    split; lia.
Qed.

(** Whatever the population, the weights (parallel or not), [k] and the
    draws, [weighted_sample] either returns items read at pairwise
    distinct positions of the population, at most [k] of them and
    exactly [min k (length population)] when there is something to draw,
    or it raises [ValueError].  It raises nothing else: the [pop]s are
    always in range. *)
Theorem weighted_sample_outcome :
  forall (A : Type) (population : list A) (weights : list Q) (k : Z)
         (g : PyRandom.rng),
    (exists (selected : list A) (positions : list nat),
        fst (Sampler.weighted_sample population weights k g) = Ok selected
        /\ NoDup positions
        /\ map (nth_error population) positions = map Some selected
        /\ (Z.of_nat (length selected) <= Z.max 0 k)%Z
        /\ (population <> [] -> weights <> [] -> (0 < k)%Z ->
            length selected
            = Z.to_nat (Z.min k (Z.of_nat (length population)))))
    \/ fst (Sampler.weighted_sample population weights k g) = Raise ValueError.
Proof.
  intros A population weights k g.
  destruct (weighted_sample_cases population weights k g)
    as [(selected & positions & g' & -> & H) | (g' & ->)];
    [left; exists selected, positions; split; [reflexivity | exact H]
    | now right].
Qed.

Section ZeroWeights.
Import PyRandom Sampler.
Variable A : Type.

(** The loop under [enough_positive]: every position it reads carries a
    positive weight. *)
Lemma sample_loop_positive_positions (k : nat) :
  forall (pc : list A) (wc : list Q) (sel : list A) (g : rng),
    length wc = length pc ->
    enough_positive k wc g ->
    exists (picked : list A) (positions : list nat) (g' : rng),
      sample_loop k pc wc sel g = (Ok (sel ++ picked), g')
      /\ map (nth_error pc) positions = map Some picked
      /\ Forall (fun p => exists w, nth_error wc p = Some w /\ (0 < w)%Q)
                positions.
Proof.
  induction k as [| k IH]; intros pc wc sel g Hlen Hinv.
  - exists [], [], g. simpl. rewrite app_nil_r. repeat split; constructor.
  - destruct Hinv as (Hnn & Hk & Hg & Hfin).
    assert (Hpos : 0 < positives wc) by lia.
    destruct (@choices_range_nonneg (length wc) wc g eq_refl Hnn Hpos (Hg O)
                Hfin)
      as (idx & Hc & Hidx & Hw).
    destruct pc as [| a pc0]; [simpl in Hlen; lia |].
    cbn [sample_loop]. remember (a :: pc0) as pc eqn:Epc.
    rewrite <- Hlen, Hc.
    assert (Hidx' : idx < length pc) by lia.
    destruct (@pop_some A idx pc Hidx') as (x & pc' & Hp & Hx & Hl & Hj).
    destruct (@pop_some Q idx wc Hidx) as (y & wc' & Hp' & Hy & Hl' & Hj').
    rewrite Hp, Hp'.
    assert (Hyw : (0 < y)%Q).
    { rewrite (nth_error_nth _ _ 0%Q Hy) in Hw. exact Hw. }
    destruct (IH pc' wc' (sel ++ [x]) (snd (random g)))
      as (picked & positions & g' & Hrun & Hmap & Hall).
    + lia.
    + split; [| split; [| split]].
      * rewrite Forall_forall in *. intros v Hv. apply Hnn.
        eapply pop_In; eauto.
      * rewrite (@pop_positives idx wc wc' y Hp') in Hk.
        apply Qlt_bool_iff in Hyw. rewrite Hyw in Hk. lia.
      * intros j. apply Hg.
      * pose proof (pop_total _ _ Hp') as Ht. lra.
    + exists (x :: picked), (idx :: map (unpop idx) positions), g'.
      rewrite Hrun, <- app_assoc. split; [reflexivity |]. split.
      * cbn [map]. rewrite Hx. f_equal. rewrite map_map, <- Hmap.
        apply map_ext. intros j. symmetry. apply Hj.
      * constructor; [eauto |].
        rewrite Forall_forall in *. intros p Hin.
        apply in_map_iff in Hin. destruct Hin as (j & <- & Hjin).
        rewrite <- Hj'. now apply Hall.
Qed.
End ZeroWeights.

(** When sampling takes place (more items than [k]), with weights that
    are zero or at least [2^-1021] and whose sums stay finite, at least
    [k] of them positive, and draws that [random.random()] can return,
    no item of weight zero is ever selected: every selected item is
    read at a position whose weight is strictly positive.  (The two
    float conditions keep [r * total] below the total also when it is
    rounded; without them the last item can be drawn with weight
    zero.) *)
Theorem weighted_sample_skips_zero_weights :
  forall (A : Type) (population : list A) (weights : list Q) (k : Z)
         (g : PyRandom.rng),
    length weights = length population ->
    (forall w, In w weights -> (w == 0)%Q \/ (float_tiny <= w)%Q) ->
    sums_stay_finite weights ->
    (0 < k < Z.of_nat (length population))%Z ->
    (k <= Z.of_nat (positives weights))%Z ->
    (forall j, (0 <= g j <= random_max)%Q) ->
    exists (selected : list A) (positions : list nat),
      fst (Sampler.weighted_sample population weights k g) = Ok selected
      /\ map (nth_error population) positions = map Some selected
      /\ Forall (fun p => exists w, nth_error weights p = Some w /\ (0 < w)%Q)
                positions.
Proof.
  intros A population weights k g Hlen Hw Hfin [Hk Hgt] Hpos Hg.
  apply sums_stay_finite_total in Hfin.
  assert (Hnn : Forall (fun w => (0 <= w)%Q) weights).
  { apply Forall_forall. intros w Hin.
    destruct (Hw w Hin) as [E | E]; [rewrite E; apply Qle_refl |].
    apply Qle_trans with float_tiny; [discriminate | exact E]. }
  assert (Hg' : forall j, (0 <= g j < 1)%Q).
  { intros j. destruct (Hg j) as [H0 H1]. split; [assumption |].
    apply Qle_lt_trans with random_max; [assumption | reflexivity]. }
  unfold Sampler.weighted_sample.
  destruct population as [| a p] eqn:Ep; [simpl in Hgt; lia |].
  destruct weights as [| w ws] eqn:Ew; [discriminate |].
  rewrite <- Ep, <- Ew in *.
  apply Z.leb_gt in Hk as Hk'. rewrite Hk'.
  apply Z.leb_gt in Hgt as Hgt'. rewrite Hgt'.
  destruct (@sample_loop_positive_positions A (Z.to_nat k) population weights
              [] g Hlen)
    as (picked & positions & g' & Hrun & Hmap & Hall).
  { split; [assumption |]. split; [lia |]. split; assumption. }
  exists picked, positions. rewrite Hrun. simpl. auto.
Qed.

Lemma weighted_sample_skips_zero_weights_witness :
  exists (selected : list string) (positions : list nat),
    fst (Sampler.weighted_sample ["a"; "b"; "c"]%string [0%Q; 3%Q; 0%Q] 1
                                 (fun _ => (1 # 3)%Q)) = Ok selected
    /\ map (nth_error ["a"; "b"; "c"]%string) positions = map Some selected
    /\ Forall (fun p => exists w, nth_error [0%Q; 3%Q; 0%Q] p = Some w
                                  /\ (0 < w)%Q) positions.
Proof.
  apply (@weighted_sample_skips_zero_weights string
           ["a"; "b"; "c"]%string [0%Q; 3%Q; 0%Q] 1 (fun _ => (1 # 3)%Q)).
  - reflexivity.
  - intros w [<- | [<- | [<- | []]]];
      [left; reflexivity | right; vm_compute; discriminate | left; reflexivity].
  - vm_compute. discriminate.
  - simpl. lia.
  - unfold positives. simpl. lia.
  - intros j. split; vm_compute; discriminate.
Defined.

Section SamplerTotals.
Import PyRandom Sampler.

Lemma choices_range_raises (n : nat) (weights : list Q) (g : rng) :
  0 < n ->
  length weights <> n \/ Forall (fun w => (w <= 0)%Q) weights ->
  choices_range n weights g = (Raise ValueError, g).
Proof.
  intros Hn H. unfold choices_range. rewrite accumulate_length.
  destruct (Nat.eqb_spec (length weights) n) as [E | E]; [| reflexivity].
  cbn [negb]. destruct H as [H | H]; [contradiction |].
  destruct (rev (accumulate weights)) as [| total rest] eqn:Er.
  - apply (f_equal (@length Q)) in Er.
    rewrite length_rev, accumulate_length in Er. simpl in Er. lia.
  - apply accumulate_total in Er.
    assert (Hsum : (fold_right Qplus 0 weights <= 0)%Q).
    { clear - H. induction H as [| w t Hw _ IH]; simpl; [apply Qle_refl |].
      setoid_replace 0%Q with (0 + 0)%Q at 2 by ring.
      now apply Qplus_le_compat. }
    assert (Hle : Qle_bool total 0 = true)
      by (apply Qle_bool_iff; rewrite Er; exact Hsum).
    now rewrite Hle.
Qed.
End SamplerTotals.

Lemma weighted_sample_refused (A : Type) (population : list A)
      (weights : list Q) (k : Z) (g : PyRandom.rng) :
  weights <> [] ->
  (0 < k < Z.of_nat (length population))%Z ->
  length weights <> length population
  \/ Forall (fun w => (w <= 0)%Q) weights ->
  Sampler.weighted_sample population weights k g = (Raise ValueError, g).
Proof.
  intros Hw [Hk Hlt] H.
  unfold Sampler.weighted_sample.
  destruct population as [| a p] eqn:Ep; [simpl in Hlt; lia |].
  destruct weights as [| w ws] eqn:Ew; [contradiction |].
  rewrite <- Ep, <- Ew in *.
  apply Z.leb_gt in Hk as Hk'. rewrite Hk'.
  apply Z.leb_gt in Hlt as Hlt'. rewrite Hlt'.
  destruct (Z.to_nat k) as [| k'] eqn:Ek; [lia |].
  rewrite Ep at 1. cbn [Sampler.sample_loop]. rewrite <- Ep.
  rewrite choices_range_raises;
    [reflexivity | rewrite Ep; simpl; lia | exact H].
Qed.

(** Once the sampling loop is reached (more items than [k > 0]),
    [random.choices] refuses a weight list of another length than the
    population, and one without a positive weight: the sampler raises
    [ValueError] and has read no random number. *)
Theorem weighted_sample_raises :
  forall (A : Type) (population : list A) (weights : list Q) (k : Z)
         (g : PyRandom.rng),
    weights <> [] ->
    (0 < k < Z.of_nat (length population))%Z ->
    length weights <> length population
    \/ (forall w, In w weights -> (w <= 0)%Q) ->
    Sampler.weighted_sample population weights k g = (Raise ValueError, g).
Proof.
  intros A population weights k g Hw Hk H.
  apply weighted_sample_refused; [assumption | assumption |].
  destruct H as [H | H]; [now left | right; now apply Forall_forall].
Qed.

Lemma weighted_sample_raises_witness :
  Sampler.weighted_sample ["a"; "b"; "c"]%string [1%Q; (-1)%Q] 2
                          (fun _ => (1 # 2)%Q)
  = (Raise ValueError, fun _ => (1 # 2)%Q).
Proof.
  apply (@weighted_sample_raises string ["a"; "b"; "c"]%string [1%Q; (-1)%Q] 2
           (fun _ => (1 # 2)%Q)).
  - discriminate.
  - simpl. lia.
  - left. simpl. lia.
Defined.

(* ================================================================== *)
(** ** Stream descriptors and groups, continued *)

Section DescriptorFacts.
Import PyStr.
Local Open Scope string_scope.

Lemma count_char_app (c : ascii) (a b : string) :
  count_char c (a ++ b) = (count_char c a + count_char c b)%nat.
Proof. induction a as [| d a IH]; simpl; [reflexivity |]. rewrite IH. lia. Qed.

Lemma string_app_assoc (a b c : string) : (a ++ b) ++ c = a ++ (b ++ c).
Proof. induction a as [| d a IH]; simpl; [reflexivity |]. now rewrite IH. Qed.

(** The chat_id of a well-formed triple. *)
Lemma parse_triple (platform id_str stream_type : string) :
  count_char ":" platform = 0%nat ->
  count_char ":" id_str = 0%nat ->
  count_char ":" stream_type = 0%nat ->
  Selector._parse_stream_config_to_chat_id
    (platform ++ ":" ++ id_str ++ ":" ++ stream_type)
  = Some (MD5.hexdigest
            (join "_" (if String.eqb stream_type "group"
                       then [platform; id_str]
                       else [platform; id_str; "private"]))).
Proof.
  intros Hp Hi Ht. unfold Selector._parse_stream_config_to_chat_id.
  change (platform ++ ":" ++ id_str ++ ":" ++ stream_type)
    with (platform ++ String ":" (id_str ++ String ":" stream_type)).
  rewrite (@split_field _ _ _ Hp), (@split_field _ _ _ Hi),
    (@split_last_field _ _ Ht).
  reflexivity.
Qed.
End DescriptorFacts.

(** The canonical key joins its parts with ["_"] and does not escape
    them, so different descriptors can share a chat_id: an underscore
    can move between platform and id, and a group whose id ends in
    [_private] is taken for the private stream of the shorter id. *)
Theorem chat_id_key_is_ambiguous :
  forall a b c stream_type : string,
    PyStr.count_char ":" a = 0 ->
    PyStr.count_char ":" b = 0 ->
    PyStr.count_char ":" c = 0 ->
    PyStr.count_char ":" stream_type = 0 ->
    Selector._parse_stream_config_to_chat_id
      ((a ++ "_" ++ b) ++ ":" ++ c ++ ":" ++ stream_type)%string
    = Selector._parse_stream_config_to_chat_id
        (a ++ ":" ++ (b ++ "_" ++ c) ++ ":" ++ stream_type)%string
    /\ (stream_type <> "group"%string ->
        Selector._parse_stream_config_to_chat_id
          (a ++ ":" ++ (b ++ "_private") ++ ":" ++ "group")%string
        = Selector._parse_stream_config_to_chat_id
            (a ++ ":" ++ b ++ ":" ++ stream_type)%string).
Proof.
  intros a b c stream_type Ha Hb Hc Ht.
  assert (Hab : PyStr.count_char ":" (a ++ "_" ++ b)%string = 0)
    by (rewrite !count_char_app, Ha, Hb; reflexivity).
  assert (Hbc : PyStr.count_char ":" (b ++ "_" ++ c)%string = 0)
    by (rewrite !count_char_app, Hb, Hc; reflexivity).
  assert (Hbp : PyStr.count_char ":" (b ++ "_private")%string = 0)
    by (rewrite count_char_app, Hb; reflexivity).
  split.
  - rewrite !parse_triple by assumption.
    destruct (String.eqb stream_type "group"); cbn [PyStr.join];
      now rewrite !string_app_assoc.
  - intros Hne. rewrite !parse_triple by (assumption || reflexivity).
    apply String.eqb_neq in Hne. rewrite Hne. cbn [PyStr.join String.eqb].
    reflexivity.
Qed.

Lemma chat_id_key_is_ambiguous_witness :
  Selector._parse_stream_config_to_chat_id "wx_work:7:private"%string
  = Selector._parse_stream_config_to_chat_id "wx:work_7:private"%string
  /\ ("private"%string <> "group"%string ->
      Selector._parse_stream_config_to_chat_id "wx:work_private:group"%string
      = Selector._parse_stream_config_to_chat_id "wx:work:private"%string).
Proof.
  apply (@chat_id_key_is_ambiguous "wx" "work" "7" "private"); reflexivity.
Defined.

Section RelatedFacts.
Import Selector.

Lemma derived_chat_ids_origin (group : list string) (x : string) :
  In x (derived_chat_ids group)
  <-> exists descriptor,
        In descriptor group
        /\ _parse_stream_config_to_chat_id descriptor = Some x.
Proof.
  unfold derived_chat_ids. rewrite in_flat_map. split.
  - intros (d & Hd & Hx). exists d. split; [assumption |].
    destruct (_parse_stream_config_to_chat_id d) as [c |]; [| contradiction].
    destruct Hx as [<- | []]. reflexivity.
  - intros (d & Hd & Hx). exists d. split; [assumption |].
    rewrite Hx. now left.
Qed.

(** The result is the list of some group that holds [cid], or [[cid]]. *)
Lemma related_in_cases (groups : list (list string)) (cid : string) :
  (exists before group after,
      groups = before ++ group :: after
      /\ (forall g, In g before -> ~ In cid (derived_chat_ids g))
      /\ In cid (derived_chat_ids group)
      /\ related_in groups cid = derived_chat_ids group)
  \/ ((forall g, In g groups -> ~ In cid (derived_chat_ids g))
      /\ related_in groups cid = [cid]).
Proof.
  induction groups as [| group rest IH].
  - right. split; [intros g [] | reflexivity].
  - cbn [related_in]. rewrite group_chat_ids_of_derived.
    destruct (str_in cid (derived_chat_ids group)) eqn:E.
    + apply str_in_iff in E. left. exists [], group, rest.
      repeat split; auto; intros g [].
    + assert (Hn : ~ In cid (derived_chat_ids group)).
      { intros Hin. apply str_in_iff in Hin. congruence. }
      destruct IH as [(before & g0 & after & -> & Hb & Hin & Hr) | [Hall Hr]].
      * left. exists (group :: before), g0, after.
        repeat split; auto. intros g [<- | Hg]; auto.
      * right. split; [| assumption]. intros g [<- | Hg]; auto.
Qed.
End RelatedFacts.

(** Whatever the configuration, the chat itself is among its related
    chats, and every other related chat comes from a descriptor of a
    configured group: nothing else is ever returned. *)
Theorem related_chat_ids_contain_the_chat :
  forall (env : Selector.Env) (cid : string),
    In cid (Selector.get_related_chat_ids env cid)
    /\ forall x, In x (Selector.get_related_chat_ids env cid) ->
                 x = cid
                 \/ exists group descriptor,
                      In group (Selector.expression_groups env)
                      /\ In descriptor group
                      /\ Selector._parse_stream_config_to_chat_id descriptor
                         = Some x.
Proof.
  intros env cid. unfold Selector.get_related_chat_ids.
  destruct (related_in_cases (Selector.expression_groups env) cid)
    as [(before & group & after & Hg & _ & Hin & ->) | [_ ->]].
  - split; [assumption |]. intros x Hx. right.
    apply derived_chat_ids_origin in Hx. destruct Hx as (d & Hd & Hp).
    exists group, d. rewrite Hg. repeat split; auto.
    apply in_or_app. right. now left.
  - split; [now left |]. intros x [<- | []]. now left.
Qed.

(** When no chat_id is derived by two groups, being related is
    symmetric: a chat found among the related chats of another has the
    same list of related chats. *)
Theorem related_chat_ids_symmetric :
  forall (env : Selector.Env) (cid other : string),
    ForallOrdPairs
      (fun g1 g2 => forall c, In c (derived_chat_ids g1) ->
                              ~ In c (derived_chat_ids g2))
      (Selector.expression_groups env) ->
    In other (Selector.get_related_chat_ids env cid) ->
    Selector.get_related_chat_ids env other
    = Selector.get_related_chat_ids env cid.
Proof.
  intros env cid other. unfold Selector.get_related_chat_ids.
  generalize (Selector.expression_groups env) as groups.
  induction groups as [| group rest IH]; intros Hdis Hin.
  - destruct Hin as [<- | []]. reflexivity.
  - cbn [Selector.related_in] in *.
    rewrite group_chat_ids_of_derived in *.
    inversion Hdis as [| g l Hhead Htail]; subst.
    destruct (Selector.str_in cid (derived_chat_ids group)) eqn:Ec.
    + apply str_in_iff in Hin. now rewrite Hin.
    + destruct (Selector.str_in other (derived_chat_ids group)) eqn:Eo.
      * exfalso. apply str_in_iff in Eo.
        destruct (related_in_cases rest cid)
          as [(before & g0 & after & Hg & _ & _ & Hr) | [_ Hr]];
          rewrite Hr in Hin.
        -- rewrite Forall_forall in Hhead.
           refine (Hhead g0 _ other Eo Hin).
           rewrite Hg. apply in_or_app. right. now left.
        -- destruct Hin as [<- | []]. apply str_in_iff in Eo. congruence.
      * now apply IH.
Qed.

Lemma related_chat_ids_symmetric_witness :
  Selector.get_related_chat_ids
    (Fixtures.env_of true [["qq:1:group"; "qq:2:group"]; ["qq:3:group"]]%string
                     [])
    "30ed4fe7a08e96ade4bc82f4c658b40d"
  = Selector.get_related_chat_ids
      (Fixtures.env_of true
         [["qq:1:group"; "qq:2:group"]; ["qq:3:group"]]%string [])
      "5d71d793b424c68b49df1b7b3bf5d03b".
Proof.
  apply (@related_chat_ids_symmetric
           (Fixtures.env_of true
              [["qq:1:group"; "qq:2:group"]; ["qq:3:group"]]%string [])
           "5d71d793b424c68b49df1b7b3bf5d03b"
           "30ed4fe7a08e96ade4bc82f4c658b40d").
  - repeat constructor.
    intros c Hc Hc'. vm_compute in Hc, Hc'.
    destruct Hc' as [<- | []].
    destruct Hc as [Hc | [Hc | []]]; discriminate Hc.
  - vm_compute. right. now left.
Defined.

(* ================================================================== *)
(** ** Retrieval, continued *)

Lemma weighted_sample_positive_run (A : Type) (population : list A)
      (weights : list Q) (k : Z) (g : PyRandom.rng) :
  population <> [] ->
  length weights = length population ->
  Forall (fun w => (0 < w)%Q) weights ->
  (total_weight weights <= PyRandom.float_max)%Q ->
  (0 < k)%Z ->
  exists (selected : list A) (positions : list nat) (g' : PyRandom.rng),
    Sampler.weighted_sample population weights k g = (Ok selected, g')
    /\ length selected = Z.to_nat (Z.min k (Z.of_nat (length population)))
    /\ NoDup positions
    /\ map (nth_error population) positions = map Some selected.
Proof.
  intros Hne Hlen Hpos Hfin Hk.
  unfold Sampler.weighted_sample.
  destruct population as [| a p] eqn:Ep; [contradiction |].
  destruct weights as [| w ws] eqn:Ew; [discriminate |].
  rewrite <- Ep, <- Ew in *.
  apply Z.leb_gt in Hk as Hk'. rewrite Hk'.
  destruct (Z.leb_spec (Z.of_nat (length population)) k) as [Hle | Hgt].
  - exists population, (seq 0 (length population)), g.
    split; [reflexivity |]. split; [lia |].
    split; [apply seq_NoDup | apply nth_error_all_positions].
  - destruct (@sample_loop_invariant A
                (fun _ wc _ => Forall (fun w => (0 < w)%Q) wc
                               /\ (total_weight wc <= PyRandom.float_max)%Q)
                (fun k wc g => @all_positive_draw k wc g)
                (Z.to_nat k) population weights [] g Hlen (conj Hpos Hfin))
      as (picked & positions & g' & Hrun & Hlp & Hnd & Hmap).
    exists picked, positions, g'. rewrite Hrun. simpl.
    split; [reflexivity |]. split; [lia |]. now split.
Qed.

Section RetrievalOutcome.
Import Selector.

(** Positions read in a mapped list are positions read in the list. *)
Lemma positions_of_map (A B : Type) (f : A -> B) (l : list A)
      (positions : list nat) :
  forall selected : list B,
    map (nth_error (map f l)) positions = map Some selected ->
    exists rows : list A,
      selected = map f rows /\ map (nth_error l) positions = map Some rows.
Proof.
  induction positions as [| p ps IH]; intros selected H.
  - destruct selected; [| discriminate]. exists []. now split.
  - destruct selected as [| b bs]; [discriminate |].
    cbn [map] in H. injection H as Hp Hps.
    destruct (IH bs Hps) as (rows & -> & Hrows).
    rewrite nth_error_map in Hp.
    destruct (nth_error l p) as [a |] eqn:Ea; [| discriminate].
    injection Hp as <-.
    exists (a :: rows). cbn [map]. rewrite Ea, Hrows. now split.
Qed.

Lemma positions_In (A : Type) (l : list A) (positions : list nat) :
  forall rows : list A,
    map (nth_error l) positions = map Some rows ->
    forall r, In r rows -> In r l.
Proof.
  induction positions as [| p ps IH]; intros rows H r Hr.
  - destruct rows; [contradiction | discriminate].
  - destruct rows as [| a rows]; [contradiction |].
    cbn [map] in H. injection H as Hp Hps.
    destruct Hr as [<- | Hr]; [eapply nth_error_In; eauto | eauto].
Qed.

Lemma style_query_In (ids : list string) (table : list Expression)
      (r : Expression) :
  In r (style_query ids table)
  <-> In r table /\ In (chat_id r) ids /\ type r = "style"%string.
Proof.
  unfold style_query. rewrite filter_In, andb_true_iff, str_in_iff.
  rewrite String.eqb_eq. tauto.
Qed.

Lemma weight_of_row (rows : list Expression) :
  map weight_of (map dict_of_row rows) = map count rows.
Proof. rewrite map_map. apply map_ext. reflexivity. Qed.

(** Retrieval, reduced to the sampler over the pool. *)
Lemma get_random_expressions_run (env : Env) (cid : string) (n : Z)
      (w : World) :
  get_random_expressions env cid n w
  = let pool := style_query (get_related_chat_ids env cid) (db w) in
    let (selected, g') :=
      Sampler.weighted_sample (map dict_of_row pool) (map count pool) n (gen w)
    in (selected,
        {| db := db w; gen := g'; clock := clock w; writes := writes w;
           llm_prompts := llm_prompts w |}).
Proof.
  unfold get_random_expressions. cbv zeta.
  rewrite <- weight_of_row.
  destruct (map dict_of_row (style_query (get_related_chat_ids env cid) (db w)))
    as [| d ds]; [| reflexivity].
  simpl. now destruct w.
Qed.
End RetrievalOutcome.

(** Retrieval only reads: the table, the clock and the two logs are
    left as they were.  It answers the dictionaries of rows read at
    pairwise distinct positions of the pool (the style rows of the chat
    and its related chats, in table order), at most [total_num] of
    them, or it raises [ValueError]; it raises nothing else. *)
Theorem retrieval_outcome :
  forall (env : Selector.Env) (cid : string) (total_num : Z)
         (w : Selector.World),
    (Selector.db (snd (Selector.get_random_expressions env cid total_num w))
     = Selector.db w
     /\ Selector.writes
          (snd (Selector.get_random_expressions env cid total_num w))
        = Selector.writes w
     /\ Selector.llm_prompts
          (snd (Selector.get_random_expressions env cid total_num w))
        = Selector.llm_prompts w)
    /\ ((exists (rows : list Selector.Expression) (positions : list nat),
            fst (Selector.get_random_expressions env cid total_num w)
            = Ok (map Selector.dict_of_row rows)
            /\ NoDup positions
            /\ map (nth_error
                      (Selector.style_query
                         (Selector.get_related_chat_ids env cid)
                         (Selector.db w))) positions
               = map Some rows
            /\ (Z.of_nat (length rows) <= Z.max 0 total_num)%Z
            /\ forall r, In r rows ->
                         In r (Selector.db w)
                         /\ In (Selector.chat_id r)
                               (Selector.get_related_chat_ids env cid)
                         /\ Selector.type r = "style"%string)
        \/ fst (Selector.get_random_expressions env cid total_num w)
           = Raise ValueError).
Proof.
  intros env cid total_num w.
  rewrite get_random_expressions_run. cbv zeta.
  set (pool := Selector.style_query (Selector.get_related_chat_ids env cid)
                                    (Selector.db w)).
  destruct (weighted_sample_cases (map Selector.dict_of_row pool)
                                  (map Selector.count pool) total_num
                                  (Selector.gen w))
    as [(selected & positions & g' & -> & Hnd & Hmap & Hle & _) | (g' & ->)];
    (split; [simpl; auto |]); [left | now right].
  destruct (@positions_of_map _ _ _ _ _ _ Hmap) as (rows & -> & Hrows).
  exists rows, positions. simpl.
  split; [reflexivity |]. split; [assumption |]. split; [assumption |].
  split; [now rewrite length_map in Hle |].
  intros r Hr. apply style_query_In.
  eapply positions_In; eauto.
Qed.

(** When every style row of the chat and its related chats has a
    positive count and the sums of these counts stay finite (as they do
    for counts capped at 5.0), retrieval never fails and returns
    exactly [min total_num (size of the pool)] rows, no row twice,
    whatever the random generator returns. *)
Theorem retrieval_with_positive_counts :
  forall (env : Selector.Env) (cid : string) (total_num : Z)
         (w : Selector.World),
    (0 < total_num)%Z ->
    (forall r, In r (Selector.style_query
                       (Selector.get_related_chat_ids env cid)
                       (Selector.db w)) ->
               (0 < Selector.count r)%Q) ->
    sums_stay_finite
      (map Selector.count
           (Selector.style_query (Selector.get_related_chat_ids env cid)
                                 (Selector.db w))) ->
    exists (rows : list Selector.Expression) (positions : list nat),
      fst (Selector.get_random_expressions env cid total_num w)
      = Ok (map Selector.dict_of_row rows)
      /\ NoDup positions
      /\ map (nth_error
                (Selector.style_query (Selector.get_related_chat_ids env cid)
                                      (Selector.db w))) positions
         = map Some rows
      /\ length rows
         = Z.to_nat
             (Z.min total_num
                (Z.of_nat (length (Selector.style_query
                                     (Selector.get_related_chat_ids env cid)
                                     (Selector.db w))))).
Proof.
  intros env cid total_num w Hn Hpos Hfin.
  apply sums_stay_finite_total in Hfin.
  rewrite get_random_expressions_run. cbv zeta.
  remember (Selector.style_query (Selector.get_related_chat_ids env cid)
                                 (Selector.db w)) as pool eqn:Epool.
  destruct (list_eq_dec Z.eq_dec (map Selector.id pool) []) as [Hnil | Hne].
  { destruct pool; [| discriminate]. exists [], []. simpl.
    repeat split; try constructor. lia. }
  assert (Hw : Forall (fun c => (0 < c)%Q) (map Selector.count pool)).
  { apply Forall_forall. intros c Hc. apply in_map_iff in Hc.
    destruct Hc as (r & <- & Hr). now apply Hpos. }
  destruct (@weighted_sample_positive_run Selector.expr_dict
              (map Selector.dict_of_row pool) (map Selector.count pool)
              total_num (Selector.gen w))
    as (selected & positions & g' & -> & Hlen & Hnd & Hmap);
    [destruct pool; [contradiction | discriminate]
    | now rewrite !length_map | assumption | assumption | assumption |].
  destruct (@positions_of_map _ _ _ _ _ _ Hmap) as (rows & -> & Hrows).
  exists rows, positions. simpl.
  split; [reflexivity |]. split; [assumption |]. split; [assumption |].
  now rewrite !length_map in Hlen.
Qed.

Lemma retrieval_with_positive_counts_witness :
  exists (rows : list Selector.Expression) (positions : list nat),
    fst (Selector.get_random_expressions
           (Fixtures.env_of true [] []) "chat" 3
           (Fixtures.world_of Fixtures.table))
    = Ok (map Selector.dict_of_row rows)
    /\ NoDup positions
    /\ map (nth_error
              (Selector.style_query
                 (Selector.get_related_chat_ids (Fixtures.env_of true [] [])
                                                "chat")
                 (Selector.db (Fixtures.world_of Fixtures.table)))) positions
       = map Some rows
    /\ length rows
       = Z.to_nat
           (Z.min 3
              (Z.of_nat
                 (length (Selector.style_query
                            (Selector.get_related_chat_ids
                               (Fixtures.env_of true [] []) "chat")
                            (Selector.db
                               (Fixtures.world_of Fixtures.table)))))).
Proof.
  apply (@retrieval_with_positive_counts
           (Fixtures.env_of true [] []) "chat" 3
           (Fixtures.world_of Fixtures.table)).
  - lia.
  - intros r Hr. vm_compute in Hr.
    repeat (destruct Hr as [<- | Hr]; [reflexivity |]). contradiction.
  - vm_compute. discriminate.
Defined.

(* ================================================================== *)
(** ** The whole selection *)

Section SelectionCases.
Import Selector.

(** Retrieval with the world it leaves: only the generator moves. *)
Lemma get_random_expressions_cases (env : Env) (cid : string) (n : Z)
      (w : World) :
  exists g' : PyRandom.rng,
    let w1 := {| db := db w; gen := g'; clock := clock w;
                 writes := writes w; llm_prompts := llm_prompts w |} in
    (exists (rows : list Expression) (positions : list nat),
        get_random_expressions env cid n w = (Ok (map dict_of_row rows), w1)
        /\ NoDup positions
        /\ map (nth_error (style_query (get_related_chat_ids env cid) (db w)))
               positions = map Some rows
        /\ (Z.of_nat (length rows) <= Z.max 0 n)%Z
        /\ forall r, In r rows ->
                     In r (db w)
                     /\ In (chat_id r) (get_related_chat_ids env cid)
                     /\ type r = "style"%string)
    \/ get_random_expressions env cid n w = (Raise ValueError, w1).
Proof.
  rewrite get_random_expressions_run. cbv zeta.
  remember (style_query (get_related_chat_ids env cid) (db w)) as pool.
  destruct (weighted_sample_cases (map dict_of_row pool) (map count pool) n
                                  (gen w))
    as [(selected & positions & g' & -> & Hnd & Hmap & Hle & _) | (g' & ->)];
    exists g'; [left | now right].
  destruct (@positions_of_map _ _ _ _ _ _ Hmap) as (rows & -> & Hrows).
  exists rows, positions.
  split; [reflexivity |]. split; [assumption |]. split; [assumption |].
  split; [now rewrite length_map in Hle |].
  intros r Hr. apply style_query_In. rewrite <- Heqpool.
  eapply positions_In; eauto.
Qed.

(** The loop over [selected_indices] on any candidates: an entry that
    designates a candidate without ["id"] raises [KeyError]; nothing
    else can go wrong. *)
Lemma pick_loop_cases (cands : list expr_dict) :
  forall (items : list json) (valid : list expr_dict) (ids : list Z),
    (exists ids',
        pick_loop cands items valid ids
        = Ok (valid ++ designated_all cands items, ids ++ ids')
        /\ map d_id (designated_all cands items) = map Some ids')
    \/ pick_loop cands items valid ids = Raise KeyError.
Proof.
  induction items as [| idx items IH]; intros valid ids.
  - left. exists []. simpl. now rewrite !app_nil_r.
  - cbn [pick_loop].
    change (designated_all cands (idx :: items))
      with (match designated cands idx with
            | Some expression => [expression]
            | None => []
            end ++ designated_all cands items).
    unfold designated.
    destruct (PyJson.as_int idx) as [i |]; [| apply IH].
    destruct ((1 <=? i) && (i <=? Z.of_nat (length cands)))%Z eqn:Er;
      [| apply IH].
    destruct (nth_error cands (Z.to_nat (i - 1))) as [c |] eqn:En.
    + destruct (d_id c) as [eid |] eqn:Heid; [| now right].
      simpl subscript. cbv iota.
      destruct (IH (valid ++ [c]) (ids ++ [eid]))
        as [(ids' & Hrun & Hmap) | Hrun]; [left | now right].
      exists (eid :: ids'). rewrite Hrun, <- !app_assoc. simpl.
      now rewrite Heid, Hmap.
    + exfalso. apply nth_error_None in En.
      apply andb_true_iff in Er. destruct Er as [E1 E2].
      apply Z.leb_le in E1, E2. lia.
Qed.

(** The guarded part: the prompt is sent; then either nothing is
    selected, or an exception is on its way to the handler, or the
    selected candidates are reinforced and returned. *)
Lemma select_from_llm_cases (env : Env) (cands : list expr_dict)
      (prompt : string) (w : World) :
  select_from_llm env cands prompt w
  = (Ok empty_selection, prompt_sent prompt w)
  \/ (exists e,
         select_from_llm env cands prompt w = (Raise e, prompt_sent prompt w)
         /\ (llm_content env prompt = Raise e
             \/ (exists content, loads_repaired env content = Raise e)
             \/ e = TypeError \/ e = KeyError))
  \/ (exists (items : list json) (ids : list Z),
         designated_all cands items <> []
         /\ map d_id (designated_all cands items) = map Some ids
         /\ select_from_llm env cands prompt w
            = (Ok (designated_all cands items, ids),
               fold_left (update_one (3 # 500))
                         (batch_keys (designated_all cands items))
                         (prompt_sent prompt w))).
Proof.
  unfold select_from_llm, bind, generate_response, lift, ret.
  destruct (llm_content env prompt) as [content | e] eqn:Ellm;
    [| right; left; exists e; auto].
  destruct (PyStr.truthy content); cbn [negb]; [| now left].
  destruct (loads_repaired env content) as [j | e] eqn:Eloads;
    [| right; left; exists e; split; [reflexivity | right; left; eauto]].
  destruct j as [| b | n | q | s | l | fields]; try now left.
  destruct (PyJson.lookup "selected_situations" fields) as [v |];
    [| now left].
  destruct (PyJson.iterate v) as [items | e] eqn:Eit.
  - destruct (pick_loop_cases cands items [] [])
      as [(ids & Hrun & Hmap) | Hrun]; rewrite Hrun.
    + cbn [app].
      destruct (designated_all cands items) as [| c cs] eqn:Ed.
      { destruct ids; [now left | discriminate]. }
      right; right. exists items, ids. rewrite Ed.
      split; [discriminate |]. split; [assumption |].
      rewrite update_batch_run. reflexivity.
    + right; left. exists KeyError. auto.
  - right; left. exists e. split; [reflexivity |].
    destruct v; try discriminate; injection Eit as <-; auto.
Qed.

Lemma update_keys_frame (increment : Q) (ks : list key) :
  forall w : World,
    let w' := fold_left (update_one increment) ks w in
    map id (db w') = map id (db w)
    /\ gen w' = gen w
    /\ llm_prompts w' = llm_prompts w
    /\ exists new : list write,
        writes w' = writes w ++ new /\ length new <= length ks.
Proof.
  induction ks as [| k ks IH]; intros w; cbn [fold_left].
  - repeat split. exists []. now rewrite app_nil_r.
  - destruct (IH (update_one increment w k)) as (Hid & Hg & Hp & new & Hw & Hl).
    cbv zeta. rewrite Hid, Hg, Hp, Hw.
    rewrite update_one_ids.
    unfold update_one. destruct (query_get k (db w)) as [r |].
    + cbn [time_time gen llm_prompts writes]. repeat split.
      eexists. rewrite <- app_assoc. split; [reflexivity |].
      simpl. lia.
    + repeat split. exists new. split; [reflexivity |]. simpl. lia.
Qed.

(** The keys of a batch drawn from [cands] are keys of [cands]. *)
Lemma batch_keys_bounded (valid cands : list expr_dict) :
  (forall c, In c valid -> In c cands) ->
  length (batch_keys valid) <= length cands.
Proof.
  intros Hsub.
  set (keys_of := flat_map (fun c => match entry_key c with
                                     | Some k => [k]
                                     | None => []
                                     end) cands).
  assert (Hlen : length keys_of <= length cands).
  { subst keys_of. clear. induction cands as [| c cs IH]; simpl; [lia |].
    rewrite length_app. destruct (entry_key c); simpl; lia. }
  transitivity (length keys_of); [| assumption].
  apply NoDup_incl_length; [apply batch_keys_NoDup |].
  intros k Hk. apply batch_keys_In in Hk. destruct Hk as (e & He & Hk).
  subst keys_of. apply in_flat_map. exists e. split; [auto |].
  rewrite Hk. now left.
Qed.
End SelectionCases.

Section SelectionWhole.
Import Selector.

Lemma render_situations_length (l : list expr_dict) :
  forall (n : Z) (sits : list string),
    render_situations n l = Ok sits -> length sits = length l.
Proof.
  induction l as [| c l IH]; intros n sits H; simpl in H.
  - injection H as <-. reflexivity.
  - destruct (d_situation c) as [sit |]; [| discriminate].
    destruct (d_style c) as [sty |]; [| discriminate]. simpl in H.
    destruct (render_situations (n + 1) l) as [rest |] eqn:E; [| discriminate].
    simpl in H. injection H as <-. simpl. f_equal. eapply IH; eauto.
Qed.

Lemma render_rows_total (rows : list Expression) (n : Z) :
  exists sits, render_situations n (map dict_of_row rows) = Ok sits.
Proof.
  apply render_situations_total. intros c Hc. apply in_map_iff in Hc.
  destruct Hc as (r & <- & _). eauto.
Qed.

(** The whole call up to the guarded part: either a gate answers, or
    retrieval raises, or ten candidates are numbered and the guarded
    part runs on them. *)
Lemma select_cases (env : Env) (cid chat_info : string) (max_num : Z)
      (target_message : option string) (w : World) :
  exists g' : PyRandom.rng,
    let w1 := {| db := db w; gen := g'; clock := clock w;
                 writes := writes w; llm_prompts := llm_prompts w |} in
    select_suitable_expressions_llm env cid chat_info max_num target_message w
    = (Ok empty_selection, w1)
    \/ select_suitable_expressions_llm env cid chat_info max_num
                                       target_message w
       = (Raise ValueError, w1)
    \/ exists (rows : list Expression) (sits : list string),
        can_use_expression_for_chat env cid = true
        /\ get_random_expressions env cid 10 w = (Ok (map dict_of_row rows), w1)
        /\ length rows = 10
        /\ (forall r, In r rows ->
                      In r (db w)
                      /\ In (chat_id r) (get_related_chat_ids env cid)
                      /\ type r = "style"%string)
        /\ render_situations 1 (map dict_of_row rows) = Ok sits
        /\ select_suitable_expressions_llm env cid chat_info max_num
                                           target_message w
           = try_except
               (select_from_llm env (map dict_of_row rows)
                  (selection_prompt env chat_info max_num target_message sits))
               (fun _ => ret empty_selection) w1.
Proof.
  unfold select_suitable_expressions_llm.
  destruct (can_use_expression_for_chat env cid); cbn [negb];
    [| exists (gen w); left; now destruct w].
  destruct (get_random_expressions_cases env cid 10 w) as (g' & Hcases).
  exists g'. cbv zeta in *.
  destruct Hcases as [(rows & positions & Hget & _ & _ & Hle & Hrows) | Hget].
  2: { right; left. unfold bind at 1. now rewrite Hget. }
  destruct (Nat.ltb_spec (length rows) 10) as [Hlt | Hge].
  { left. unfold bind at 1. rewrite Hget, length_map.
    apply Nat.ltb_lt in Hlt. now rewrite Hlt. }
  right; right.
  destruct (render_rows_total rows 1) as (sits & Hsits).
  exists rows, sits. split; [reflexivity |]. split; [assumption |].
  split; [lia |]. split; [assumption |]. split; [assumption |].
  unfold bind at 1. rewrite Hget, length_map.
  apply Nat.ltb_ge in Hge as Hge'. rewrite Hge'.
  unfold bind, lift. rewrite Hsits.
  destruct rows as [| r rs]; [simpl in Hge; lia | reflexivity].
Qed.
End SelectionWhole.

(** Every call of [select_suitable_expressions_llm] ends in one of three
    ways.  It returns two empty lists, and the table and the log of
    saved rows are as before.  Or it raises, again with nothing saved:
    the [ValueError] of retrieval, which is outside the [try] (no prompt
    was sent then), or an exception [except Exception] does not catch,
    raised by the LLM client or by the JSON parser.  Or it returns a
    non-empty selection with the ids of its entries: each entry is the
    dictionary of a stored style row of the chat or a related chat, and
    exactly one prompt was sent.  (Failures of the database driver and
    of the prompt registry are outside the embedding.) *)
Theorem select_outcome :
  forall (env : Selector.Env) (cid chat_info : string) (max_num : Z)
         (target_message : option string) (w : Selector.World),
    (fst (Selector.select_suitable_expressions_llm
            env cid chat_info max_num target_message w) = Ok ([], [])
     /\ Selector.db (snd (Selector.select_suitable_expressions_llm
                            env cid chat_info max_num target_message w))
        = Selector.db w
     /\ Selector.writes (snd (Selector.select_suitable_expressions_llm
                                env cid chat_info max_num target_message w))
        = Selector.writes w)
    \/ (exists e : exn,
           fst (Selector.select_suitable_expressions_llm
                  env cid chat_info max_num target_message w) = Raise e
           /\ Selector.db (snd (Selector.select_suitable_expressions_llm
                                  env cid chat_info max_num target_message w))
              = Selector.db w
           /\ Selector.writes
                (snd (Selector.select_suitable_expressions_llm
                        env cid chat_info max_num target_message w))
              = Selector.writes w
           /\ ((e = ValueError
                /\ Selector.llm_prompts
                     (snd (Selector.select_suitable_expressions_llm
                             env cid chat_info max_num target_message w))
                   = Selector.llm_prompts w)
               \/ (is_Exception e = false
                   /\ ((exists prompt,
                           Selector.llm_content env prompt = Raise e)
                       \/ exists content,
                           Selector.loads_repaired env content = Raise e))))
    \/ (exists (valid : list Selector.expr_dict) (ids : list Z),
           fst (Selector.select_suitable_expressions_llm
                  env cid chat_info max_num target_message w)
           = Ok (valid, ids)
           /\ valid <> []
           /\ map Selector.d_id valid = map Some ids
           /\ (forall c, In c valid ->
                         exists r, In r (Selector.db w)
                                   /\ In (Selector.chat_id r)
                                         (Selector.get_related_chat_ids env cid)
                                   /\ Selector.type r = "style"%string
                                   /\ c = Selector.dict_of_row r)
           /\ exists prompt,
               Selector.llm_prompts
                 (snd (Selector.select_suitable_expressions_llm
                         env cid chat_info max_num target_message w))
               = Selector.llm_prompts w ++ [prompt]).
Proof.
  intros env cid chat_info max_num target_message w.
  destruct (select_cases env cid chat_info max_num target_message w)
    as (g' & [-> | [-> | (rows & sits & _ & _ & _ & Hrows & _ & ->)]]).
  - left. simpl. auto.
  - right; left. exists ValueError. simpl. auto 6.
  - unfold Selector.try_except.
    set (prompt := Selector.selection_prompt env chat_info max_num
                                             target_message sits).
    destruct (select_from_llm_cases env (map Selector.dict_of_row rows) prompt
                {| Selector.db := Selector.db w; Selector.gen := g';
                   Selector.clock := Selector.clock w;
                   Selector.writes := Selector.writes w;
                   Selector.llm_prompts := Selector.llm_prompts w |})
      as [-> | [(e & -> & Hsrc) | (items & ids & Hne & Hmap & ->)]].
    + left. simpl. auto.
    + destruct (is_Exception e) eqn:Ee; [left; simpl; auto |].
      right; left. exists e. simpl. repeat split; auto.
      right. split; [exact Ee |].
      destruct Hsrc as [H | [H | [-> | ->]]]; eauto; discriminate.
    + right; right.
      exists (designated_all (map Selector.dict_of_row rows) items), ids.
      split; [reflexivity |]. split; [assumption |]. split; [assumption |].
      split.
      * intros c Hc. apply designated_all_In in Hc.
        apply in_map_iff in Hc. destruct Hc as (r & <- & Hr).
        destruct (Hrows r Hr) as (H1 & H2 & H3). eauto 6.
      * exists prompt. cbn [snd].
        destruct (update_keys_frame (3 # 500)
                    (batch_keys (designated_all (map Selector.dict_of_row rows)
                                                items))
                    (Selector.prompt_sent prompt
                       {| Selector.db := Selector.db w; Selector.gen := g';
                          Selector.clock := Selector.clock w;
                          Selector.writes := Selector.writes w;
                          Selector.llm_prompts := Selector.llm_prompts w |}))
          as (_ & _ & Hp & _).
        rewrite Hp. reflexivity.
Qed.

(** Whatever happens in a call, no row is added or removed, the logs
    only grow, at most one prompt is sent and at most ten rows are
    saved, and a row is saved only when a prompt was sent. *)
Theorem select_frame :
  forall (env : Selector.Env) (cid chat_info : string) (max_num : Z)
         (target_message : option string) (w : Selector.World),
    map Selector.id
        (Selector.db (snd (Selector.select_suitable_expressions_llm
                             env cid chat_info max_num target_message w)))
    = map Selector.id (Selector.db w)
    /\ exists (sent : list string) (new : list Selector.write),
        Selector.llm_prompts
          (snd (Selector.select_suitable_expressions_llm
                  env cid chat_info max_num target_message w))
        = Selector.llm_prompts w ++ sent
        /\ Selector.writes
             (snd (Selector.select_suitable_expressions_llm
                     env cid chat_info max_num target_message w))
           = Selector.writes w ++ new
        /\ length sent <= 1
        /\ length new <= 10
        /\ (new <> [] -> sent <> []).
Proof.
  intros env cid chat_info max_num target_message w.
  destruct (select_cases env cid chat_info max_num target_message w)
    as (g' & [-> | [-> | (rows & sits & _ & _ & Hlen & _ & _ & ->)]]).
  - split; [reflexivity |]. exists [], []. simpl. rewrite !app_nil_r.
    repeat split; auto; lia.
  - split; [reflexivity |]. exists [], []. simpl. rewrite !app_nil_r.
    repeat split; auto; lia.
  - unfold Selector.try_except.
    set (prompt := Selector.selection_prompt env chat_info max_num
                                             target_message sits).
    destruct (select_from_llm_cases env (map Selector.dict_of_row rows) prompt
                {| Selector.db := Selector.db w; Selector.gen := g';
                   Selector.clock := Selector.clock w;
                   Selector.writes := Selector.writes w;
                   Selector.llm_prompts := Selector.llm_prompts w |})
      as [-> | [(e & -> & Hsrc) | (items & ids & Hne & Hmap & ->)]].
    + split; [reflexivity |]. exists [prompt], []. simpl. rewrite app_nil_r.
      repeat split; auto; lia.
    + assert (H : snd (if is_Exception e
                       then Selector.ret Selector.empty_selection
                              (Selector.prompt_sent prompt
                                 {| Selector.db := Selector.db w;
                                    Selector.gen := g';
                                    Selector.clock := Selector.clock w;
                                    Selector.writes := Selector.writes w;
                                    Selector.llm_prompts :=
                                      Selector.llm_prompts w |})
                       else (Raise e,
                             Selector.prompt_sent prompt
                               {| Selector.db := Selector.db w;
                                  Selector.gen := g';
                                  Selector.clock := Selector.clock w;
                                  Selector.writes := Selector.writes w;
                                  Selector.llm_prompts :=
                                    Selector.llm_prompts w |}))
                  = Selector.prompt_sent prompt
                      {| Selector.db := Selector.db w; Selector.gen := g';
                         Selector.clock := Selector.clock w;
                         Selector.writes := Selector.writes w;
                         Selector.llm_prompts := Selector.llm_prompts w |})
        by (destruct (is_Exception e); reflexivity).
      rewrite H. split; [reflexivity |]. exists [prompt], []. simpl.
      rewrite app_nil_r. repeat split; auto; lia.
    + cbn [snd].
      destruct (update_keys_frame (3 # 500)
                  (batch_keys (designated_all (map Selector.dict_of_row rows)
                                              items))
                  (Selector.prompt_sent prompt
                     {| Selector.db := Selector.db w; Selector.gen := g';
                        Selector.clock := Selector.clock w;
                        Selector.writes := Selector.writes w;
                        Selector.llm_prompts := Selector.llm_prompts w |}))
        as (Hid & _ & Hp & new & Hw & Hl).
      rewrite Hid, Hp, Hw. split; [reflexivity |].
      exists [prompt], new. simpl.
      split; [reflexivity |]. split; [reflexivity |]. split; [lia |].
      split; [| discriminate].
      etransitivity; [exact Hl |].
      etransitivity;
        [apply (@batch_keys_bounded _ (map Selector.dict_of_row rows));
         intros c Hc; eapply designated_all_In; eauto |].
      rewrite length_map. lia.
Qed.

Section SelectionFailures.
Import Selector.

(** The guarded part when the answer cannot be used. *)
Lemma select_from_llm_unusable (env : Env) (cands : list expr_dict)
      (prompt : string) (w : World) :
  match llm_content env prompt with
  | Raise e => is_Exception e = true
  | Ok content =>
      PyStr.truthy content = false
      \/ match loads_repaired env content with
         | Raise e => is_Exception e = true
         | Ok (JDict fields) =>
             match PyJson.lookup "selected_situations" fields with
             | None => True
             | Some selected_indices =>
                 match PyJson.iterate selected_indices with
                 | Ok items => designated_all cands items = []
                 | Raise _ => True
                 end
             end
         | Ok _ => True
         end
  end ->
  try_except (select_from_llm env cands prompt)
             (fun _ => ret empty_selection) w
  = (Ok empty_selection, prompt_sent prompt w).
Proof.
  unfold try_except, select_from_llm, bind, generate_response, lift, ret.
  destruct (llm_content env prompt) as [content | e]; [| now intros ->].
  destruct (PyStr.truthy content); cbn [negb]; [| reflexivity].
  intros [H | H]; [discriminate |].
  destruct (loads_repaired env content) as [j | e]; [| now rewrite H].
  destruct j as [| b | n | q | s | l | fields]; try reflexivity.
  destruct (PyJson.lookup "selected_situations" fields) as [v |];
    [| reflexivity].
  destruct (PyJson.iterate v) as [items | e] eqn:Eit.
  - destruct (pick_loop_cases cands items [] [])
      as [(ids & Hrun & Hmap) | Hrun]; rewrite Hrun; [| reflexivity].
    rewrite H in *. destruct ids; [reflexivity | discriminate].
  - destruct v; try discriminate; injection Eit as <-; reflexivity.
Qed.
End SelectionFailures.

(** Past the gates, an answer that cannot be used is swallowed: when
    the LLM client raises an [Exception], or answers nothing, or the
    parser raises an [Exception], or the parsed answer is not an object,
    or has no ["selected_situations"], or that value cannot be iterated,
    or no entry of it designates a candidate, the call returns two empty
    lists; the prompt was sent, nothing is saved and the table is as it
    was. *)
Theorem select_swallows_unusable_answers :
  forall (env : Selector.Env) (cid chat_info : string) (max_num : Z)
         (target_message : option string) (w w1 : Selector.World)
         (cands : list Selector.expr_dict),
    Selector.can_use_expression_for_chat env cid = true ->
    Selector.get_random_expressions env cid 10 w = (Ok cands, w1) ->
    10 <= length cands ->
    (forall sits,
        Selector.render_situations 1 cands = Ok sits ->
        match Selector.llm_content env
                (Selector.selection_prompt env chat_info max_num
                                           target_message sits) with
        | Raise e => is_Exception e = true
        | Ok content =>
            PyStr.truthy content = false
            \/ match Selector.loads_repaired env content with
               | Raise e => is_Exception e = true
               | Ok (JDict fields) =>
                   match PyJson.lookup "selected_situations" fields with
                   | None => True
                   | Some selected_indices =>
                       match PyJson.iterate selected_indices with
                       | Ok items => designated_all cands items = []
                       | Raise _ => True
                       end
                   end
               | Ok _ => True
               end
        end) ->
    fst (Selector.select_suitable_expressions_llm
           env cid chat_info max_num target_message w) = Ok ([], [])
    /\ Selector.db (snd (Selector.select_suitable_expressions_llm
                           env cid chat_info max_num target_message w))
       = Selector.db w
    /\ Selector.writes (snd (Selector.select_suitable_expressions_llm
                               env cid chat_info max_num target_message w))
       = Selector.writes w
    /\ exists prompt,
        Selector.llm_prompts
          (snd (Selector.select_suitable_expressions_llm
                  env cid chat_info max_num target_message w))
        = Selector.llm_prompts w ++ [prompt].
Proof.
  intros env cid chat_info max_num target_message w w1 cands
         Hcan Hget Hlen Hbad.
  pose proof (get_random_expressions_rows _ _ _ _ Hget) as Hrows.
  destruct (@render_situations_total cands) with (n := 1%Z) as (sits & Hsits).
  { intros c Hc. destruct (Hrows c Hc) as (r & _ & _ & ->). eauto. }
  apply get_random_expressions_frame in Hget as Hframe.
  destruct Hframe as (Hdb & _ & Hwr & Hpr).
  assert (Hrun : Selector.select_suitable_expressions_llm
                   env cid chat_info max_num target_message w
                 = (Ok Selector.empty_selection,
                    Selector.prompt_sent
                      (Selector.selection_prompt env chat_info max_num
                                                 target_message sits) w1)).
  { unfold Selector.select_suitable_expressions_llm.
    rewrite Hcan. cbn [negb]. unfold Selector.bind at 1. rewrite Hget.
    apply Nat.ltb_ge in Hlen as Hlen'. rewrite Hlen'.
    unfold Selector.bind, Selector.lift. rewrite Hsits.
    rewrite match_nonempty by (intros ->; simpl in Hlen; lia).
    apply select_from_llm_unusable, Hbad, Hsits. }
  rewrite Hrun. simpl. rewrite Hdb, Hwr, Hpr. eauto.
Qed.

Lemma select_swallows_unusable_answers_witness :
  fst (Selector.select_suitable_expressions_llm
         (Fixtures.env_of true [] [JInt 0; JInt 11; JStr "2"; JFloat 3])
         "chat" "info" 10 None (Fixtures.world_of Fixtures.table))
  = Ok ([], [])
  /\ Selector.db
       (snd (Selector.select_suitable_expressions_llm
               (Fixtures.env_of true [] [JInt 0; JInt 11; JStr "2"; JFloat 3])
               "chat" "info" 10 None (Fixtures.world_of Fixtures.table)))
     = Selector.db (Fixtures.world_of Fixtures.table)
  /\ Selector.writes
       (snd (Selector.select_suitable_expressions_llm
               (Fixtures.env_of true [] [JInt 0; JInt 11; JStr "2"; JFloat 3])
               "chat" "info" 10 None (Fixtures.world_of Fixtures.table)))
     = Selector.writes (Fixtures.world_of Fixtures.table)
  /\ exists prompt,
      Selector.llm_prompts
        (snd (Selector.select_suitable_expressions_llm
                (Fixtures.env_of true [] [JInt 0; JInt 11; JStr "2"; JFloat 3])
                "chat" "info" 10 None (Fixtures.world_of Fixtures.table)))
      = Selector.llm_prompts (Fixtures.world_of Fixtures.table) ++ [prompt].
Proof.
  apply (@select_swallows_unusable_answers
           (Fixtures.env_of true [] [JInt 0; JInt 11; JStr "2"; JFloat 3])
           "chat" "info" 10 None (Fixtures.world_of Fixtures.table)
           (Fixtures.world_of Fixtures.table)
           (map Selector.dict_of_row Fixtures.table)).
  - reflexivity.
  - reflexivity.
  - simpl. lia.
  - intros sits _. right. reflexivity.
Defined.

(** Retrieval is outside the [try]: with more than ten style rows in
    the pool and no positive count among them, the [ValueError] of
    [random.choices] leaves [select_suitable_expressions_llm]; the world
    is untouched. *)
Theorem select_raises_without_positive_count :
  forall (env : Selector.Env) (cid chat_info : string) (max_num : Z)
         (target_message : option string) (w : Selector.World),
    Selector.can_use_expression_for_chat env cid = true ->
    10 < length (Selector.style_query (Selector.get_related_chat_ids env cid)
                                      (Selector.db w)) ->
    (forall r, In r (Selector.style_query
                       (Selector.get_related_chat_ids env cid)
                       (Selector.db w)) ->
               (Selector.count r <= 0)%Q) ->
    Selector.select_suitable_expressions_llm
      env cid chat_info max_num target_message w
    = (Raise ValueError, w).
Proof.
  intros env cid chat_info max_num target_message w Hcan Hlen Hzero.
  unfold Selector.select_suitable_expressions_llm.
  rewrite Hcan. cbn [negb]. unfold Selector.bind at 1.
  rewrite get_random_expressions_run. cbv zeta.
  rewrite weighted_sample_refused.
  - now destruct w.
  - intros E. apply (f_equal (@length Q)) in E.
    rewrite length_map in E. simpl in E. lia.
  - rewrite length_map. lia.
  - right. apply Forall_forall. intros c Hc. apply in_map_iff in Hc.
    destruct Hc as (r & <- & Hr). now apply Hzero.
Qed.

Lemma select_raises_without_positive_count_witness :
  Selector.select_suitable_expressions_llm
    (Fixtures.env_of true [] [JInt 1]) "chat" "info" 10 None
    (Fixtures.world_of
       (map (fun i => Fixtures.style_row i "s" "t" 0)
            [1; 2; 3; 4; 5; 6; 7; 8; 9; 10; 11]%Z))
  = (Raise ValueError,
     Fixtures.world_of
       (map (fun i => Fixtures.style_row i "s" "t" 0)
            [1; 2; 3; 4; 5; 6; 7; 8; 9; 10; 11]%Z)).
Proof.
  apply (@select_raises_without_positive_count
           (Fixtures.env_of true [] [JInt 1]) "chat" "info" 10 None
           (Fixtures.world_of
              (map (fun i => Fixtures.style_row i "s" "t" 0)
                   [1; 2; 3; 4; 5; 6; 7; 8; 9; 10; 11]%Z))).
  - reflexivity.
  - simpl. lia.
  - intros r Hr. vm_compute in Hr.
    repeat (destruct Hr as [<- | Hr]; [discriminate |]). contradiction.
Defined.

Lemma render_rows_lines (rows : list Selector.Expression) :
  forall (n : Z) (sits : list string),
    Selector.render_situations n (map Selector.dict_of_row rows) = Ok sits ->
    forall j r,
      nth_error rows j = Some r ->
      nth_error sits j
      = Some (PyStr.str_of_int (n + Z.of_nat j) ++ ".当 "
                ++ Selector.situation r ++ " 时，使用 " ++ Selector.style r)%string.
Proof.
  induction rows as [| r0 rows IH]; intros n sits H j r Hj;
    [destruct j; discriminate |].
  cbn [map Selector.render_situations Selector.dict_of_row
         Selector.d_situation Selector.d_style Selector.subscript] in H.
  destruct (Selector.render_situations (n + 1) (map Selector.dict_of_row rows))
    as [rest |] eqn:E; [| discriminate].
  cbn [result_map] in H. injection H as <-.
  destruct j as [| j].
  - injection Hj as <-. rewrite Z.add_0_r. reflexivity.
  - cbn [nth_error] in *.
    rewrite (IH (n + 1)%Z rest E j r Hj). do 3 f_equal. lia.
Qed.

(** With permission, ten or more style rows in the pool, positive counts
    and sums of counts that stay finite, the LLM is asked exactly once
    whatever it answers.  The prompt is built from the ten lines the
    numbering loop gives for ten rows read at distinct positions of the
    pool: line [j] (from 0) is the number [j + 1] followed by the
    situation and the style of the row at place [j]. *)
Theorem select_asks_once_about_ten :
  forall (env : Selector.Env) (cid chat_info : string) (max_num : Z)
         (target_message : option string) (w : Selector.World),
    Selector.can_use_expression_for_chat env cid = true ->
    10 <= length (Selector.style_query (Selector.get_related_chat_ids env cid)
                                       (Selector.db w)) ->
    (forall r, In r (Selector.style_query
                       (Selector.get_related_chat_ids env cid)
                       (Selector.db w)) ->
               (0 < Selector.count r)%Q) ->
    sums_stay_finite
      (map Selector.count
           (Selector.style_query (Selector.get_related_chat_ids env cid)
                                 (Selector.db w))) ->
    exists (rows : list Selector.Expression) (positions : list nat)
           (sits : list string),
      NoDup positions
      /\ map (nth_error
                (Selector.style_query (Selector.get_related_chat_ids env cid)
                                      (Selector.db w))) positions
         = map Some rows
      /\ length rows = 10
      /\ Selector.render_situations 1 (map Selector.dict_of_row rows) = Ok sits
      /\ length sits = 10
      /\ (forall j r,
             nth_error rows j = Some r ->
             nth_error sits j
             = Some (PyStr.str_of_int (1 + Z.of_nat j) ++ ".当 "
                       ++ Selector.situation r ++ " 时，使用 "
                       ++ Selector.style r)%string)
      /\ Selector.llm_prompts
           (snd (Selector.select_suitable_expressions_llm
                   env cid chat_info max_num target_message w))
         = Selector.llm_prompts w
           ++ [Selector.selection_prompt env chat_info max_num target_message
                                         sits].
Proof.
  intros env cid chat_info max_num target_message w Hcan Hlen Hpos Hfin.
  apply sums_stay_finite_total in Hfin.
  remember (Selector.style_query (Selector.get_related_chat_ids env cid)
                                 (Selector.db w)) as pool eqn:Epool.
  assert (Hw : Forall (fun c => (0 < c)%Q) (map Selector.count pool)).
  { apply Forall_forall. intros c Hc. apply in_map_iff in Hc.
    destruct Hc as (r & <- & Hr). now apply Hpos. }
  destruct (@weighted_sample_positive_run Selector.expr_dict
              (map Selector.dict_of_row pool) (map Selector.count pool)
              10 (Selector.gen w))
    as (selected & positions & g' & Hrun & Hsel & Hnd & Hmap);
    [destruct pool; [simpl in Hlen; lia | discriminate]
    | now rewrite !length_map | assumption | assumption | lia |].
  rewrite length_map in Hsel.
  destruct (@positions_of_map _ _ _ _ _ _ Hmap) as (rows & -> & Hrows).
  rewrite length_map in Hsel.
  destruct (render_rows_total rows 1) as (sits & Hsits).
  exists rows, positions, sits.
  split; [assumption |]. split; [assumption |]. split; [lia |].
  split; [assumption |].
  split; [rewrite (render_situations_length _ _ Hsits), length_map; lia |].
  split; [exact (render_rows_lines rows 1 Hsits) |].
  unfold Selector.select_suitable_expressions_llm.
  rewrite Hcan. cbn [negb]. unfold Selector.bind at 1.
  rewrite get_random_expressions_run. cbv zeta.
  rewrite <- Epool, Hrun, length_map.
  assert (Hge : (length rows <? 10) = false) by (apply Nat.ltb_ge; lia).
  rewrite Hge. unfold Selector.bind, Selector.lift. rewrite Hsits.
  rewrite match_nonempty
    by (destruct rows; [simpl in Hsel; lia | discriminate]).
  unfold Selector.try_except.
  match goal with
  | |- context [Selector.select_from_llm ?e ?c ?p ?w0] =>
      destruct (select_from_llm_cases e c p w0)
        as [-> | [(e0 & -> & _) | (items & ids & _ & _ & ->)]]
  end.
  - reflexivity.
  - destruct (is_Exception e0); reflexivity.
  - cbn [snd].
    match goal with
    | |- context [fold_left (Selector.update_one ?i) ?ks ?w0] =>
        destruct (update_keys_frame i ks w0) as (_ & _ & Hp & _)
    end.
    rewrite Hp. reflexivity.
Qed.

Lemma select_asks_once_about_ten_witness :
  exists (rows : list Selector.Expression) (positions : list nat)
         (sits : list string),
    NoDup positions
    /\ map (nth_error
              (Selector.style_query
                 (Selector.get_related_chat_ids
                    (Fixtures.env_of true [] [JInt 1]) "chat")
                 (Selector.db (Fixtures.world_of Fixtures.table)))) positions
       = map Some rows
    /\ length rows = 10
    /\ Selector.render_situations 1 (map Selector.dict_of_row rows) = Ok sits
    /\ length sits = 10
    /\ (forall j r,
           nth_error rows j = Some r ->
           nth_error sits j
           = Some (PyStr.str_of_int (1 + Z.of_nat j) ++ ".当 "
                     ++ Selector.situation r ++ " 时，使用 "
                     ++ Selector.style r)%string)
    /\ Selector.llm_prompts
         (snd (Selector.select_suitable_expressions_llm
                 (Fixtures.env_of true [] [JInt 1]) "chat" "info" 10 None
                 (Fixtures.world_of Fixtures.table)))
       = Selector.llm_prompts (Fixtures.world_of Fixtures.table)
         ++ [Selector.selection_prompt (Fixtures.env_of true [] [JInt 1])
                                       "info" 10 None sits].
Proof.
  apply (@select_asks_once_about_ten
           (Fixtures.env_of true [] [JInt 1]) "chat" "info" 10 None
           (Fixtures.world_of Fixtures.table)).
  - reflexivity.
  - simpl. lia.
  - intros r Hr. vm_compute in Hr.
    repeat (destruct Hr as [<- | Hr]; [reflexivity |]). contradiction.
  - vm_compute. discriminate.
Defined.

(** The number printed before a situation in the prompt is the index
    that selects it: line [i] of the numbered list shows the situation
    and style of the candidate that the entry [i] of
    [selected_situations] picks. *)
Theorem prompt_numbers_select_their_candidates :
  forall (cands : list Selector.expr_dict) (lines : list string) (i : Z),
    Selector.render_situations 1 cands = Ok lines ->
    (1 <= i <= Z.of_nat (length cands))%Z ->
    exists (c : Selector.expr_dict) (sit sty : string),
      Selector.d_situation c = Some sit
      /\ Selector.d_style c = Some sty
      /\ nth_error lines (Z.to_nat (i - 1))
         = Some (PyStr.str_of_int i ++ ".当 " ++ sit ++ " 时，使用 " ++ sty)%string
      /\ forall eid, Selector.d_id c = Some eid ->
                     Selector.pick_loop cands [JInt i] [] []
                     = Ok ([c], [eid]).
Proof.
  intros cands lines i Hlines Hi.
  assert (Hgen : forall (l : list Selector.expr_dict) (n : Z) (ls : list string),
             Selector.render_situations n l = Ok ls ->
             forall j, j < length l ->
               exists c sit sty,
                 nth_error l j = Some c
                 /\ Selector.d_situation c = Some sit
                 /\ Selector.d_style c = Some sty
                 /\ nth_error ls j
                    = Some (PyStr.str_of_int (n + Z.of_nat j) ++ ".当 " ++ sit
                              ++ " 时，使用 " ++ sty)%string).
  { clear. induction l as [| c l IH]; intros n ls H j Hj;
      [simpl in Hj; lia |].
    simpl in H.
    destruct (Selector.d_situation c) as [sit |] eqn:Es; [| discriminate].
    destruct (Selector.d_style c) as [sty |] eqn:Et; [| discriminate].
    simpl in H.
    destruct (Selector.render_situations (n + 1) l) as [rest |] eqn:E;
      [| discriminate].
    simpl in H. injection H as <-.
    destruct j as [| j].
    - exists c, sit, sty. rewrite Z.add_0_r. simpl. auto.
    - destruct (IH (n + 1)%Z rest E j) as (c' & sit' & sty' & H1 & H2 & H3 & H4);
        [simpl in Hj; lia |].
      exists c', sit', sty'.
      replace (n + Z.of_nat (S j))%Z with (n + 1 + Z.of_nat j)%Z by lia.
      simpl. auto. }
  destruct (Hgen cands 1%Z lines Hlines (Z.to_nat (i - 1)))
    as (c & sit & sty & Hc & Hs & Ht & Hl); [lia |].
  exists c, sit, sty. split; [assumption |]. split; [assumption |].
  split.
  - rewrite Hl. do 3 f_equal. lia.
  - intros eid Heid. cbn [Selector.pick_loop PyJson.as_int].
    assert (Hr : ((1 <=? i) && (i <=? Z.of_nat (length cands)))%Z = true)
      by (apply andb_true_iff; split; apply Z.leb_le; lia).
    rewrite Hr, Hc, Heid. reflexivity.
Qed.

Lemma prompt_numbers_select_their_candidates_witness :
  exists (c : Selector.expr_dict) (sit sty : string),
    Selector.d_situation c = Some sit
    /\ Selector.d_style c = Some sty
    /\ nth_error ["1.当 s1 时，使用 t1"; "2.当 s2 时，使用 t2"]%string
                 (Z.to_nat (2 - 1))
       = Some (PyStr.str_of_int 2 ++ ".当 " ++ sit ++ " 时，使用 " ++ sty)%string
    /\ forall eid, Selector.d_id c = Some eid ->
                   Selector.pick_loop
                     [Selector.dict_of_row (Fixtures.style_row 1 "s1" "t1" 1);
                      Selector.dict_of_row (Fixtures.style_row 2 "s2" "t2" 1)]
                     [JInt 2] [] []
                   = Ok ([c], [eid]).
Proof.
  apply (@prompt_numbers_select_their_candidates
           [Selector.dict_of_row (Fixtures.style_row 1 "s1" "t1" 1);
            Selector.dict_of_row (Fixtures.style_row 2 "s2" "t2" 1)]
           ["1.当 s1 时，使用 t1"; "2.当 s2 时，使用 t2"]%string 2).
  - reflexivity.
  - simpl. lia.
Defined.

(* ================================================================== *)
(** ** Reinforcement: what it leaves alone, and what it does over time *)

Section ReinforcementFrame.
Import Selector.
Variable increment : Q.

(** Saving a reinforced row touches that row only, and only its count
    and its time. *)
Lemma save_reinforced_fields (table : list Expression) (r0 : Expression)
      (now : Q) :
  NoDup (map id table) -> In r0 table ->
  map row_key (save (reinforced increment now r0) table) = map row_key table
  /\ map create_date (save (reinforced increment now r0) table)
     = map create_date table
  /\ forall i r, nth_error table i = Some r -> id r <> id r0 ->
                 nth_error (save (reinforced increment now r0) table) i = Some r.
Proof.
  intros Hnd Hin. unfold save. rewrite !map_map.
  split; [| split].
  - apply map_ext_in. intros x Hx. cbn [reinforced id].
    destruct (Z.eqb_spec (id x) (id r0)) as [E | E]; [| reflexivity].
    now rewrite (@same_id_same_row table r0 x Hnd Hin Hx E).
  - apply map_ext_in. intros x Hx. cbn [reinforced id].
    destruct (Z.eqb_spec (id x) (id r0)) as [E | E]; [| reflexivity].
    now rewrite (@same_id_same_row table r0 x Hnd Hin Hx E).
  - intros i r Hi Hne. rewrite nth_error_map, Hi. cbn [option_map reinforced id].
    destruct (Z.eqb_spec (id r) (id r0)); [contradiction | reflexivity].
Qed.

Lemma update_keys_fields (ks : list key) :
  forall w : World,
    NoDup (map id (db w)) ->
    let w' := fold_left (update_one increment) ks w in
    map row_key (db w') = map row_key (db w)
    /\ map create_date (db w') = map create_date (db w)
    /\ forall i r,
        nth_error (db w) i = Some r ->
        (forall k x, In k ks -> query_get k (db w) = Some x -> id x <> id r) ->
        nth_error (db w') i = Some r.
Proof.
  induction ks as [| k0 ks IH]; intros w Hnd; cbn [fold_left]; cbv zeta.
  - auto.
  - assert (Hnd1 : NoDup (map id (db (update_one increment w k0))))
      by now rewrite update_one_ids.
    destruct (IH _ Hnd1) as (Hk & Hc & Hrest). clear IH.
    destruct (query_get k0 (db w)) as [r0 |] eqn:E0.
    + pose proof (query_get_some _ _ E0) as [Hin0 Hkey0].
      rewrite (update_one_matched increment _ _ E0) in *.
      cbn [db] in *.
      destruct (@save_reinforced_fields (db w) r0 (clock w O) Hnd Hin0)
        as (Hk1 & Hc1 & Hn1).
      rewrite Hk, Hc, Hk1, Hc1. split; [reflexivity |].
      split; [reflexivity |].
      intros i r Hi Hfree. apply Hrest.
      * apply Hn1; [assumption |]. intros E.
        apply (Hfree k0 r0 (or_introl eq_refl) E0). now symmetry.
      * intros k x Hkin Hq.
        rewrite (@save_query_get (db w) r0
                   (reinforced increment (clock w O) r0) k Hnd Hin0
                   eq_refl eq_refl) in Hq.
        destruct (query_get k (db w)) as [y |] eqn:Ey; [| discriminate].
        injection Hq as <-.
        destruct (Z.eqb_spec (id y) (id r0)) as [E | E].
        -- cbn [reinforced id]. rewrite <- E.
           apply (Hfree k y (or_intror Hkin) Ey).
        -- apply (Hfree k y (or_intror Hkin) Ey).
    + rewrite (update_one_unmatched increment _ _ E0) in *.
      split; [assumption |]. split; [assumption |].
      intros i r Hi Hfree. apply Hrest; [assumption |].
      intros k x Hkin Hq. apply (Hfree k x (or_intror Hkin) Hq).
Qed.

(** Whatever the increment, a table capped at 5 stays capped. *)
Lemma update_keys_cap (ks : list key) :
  forall w : World,
    (forall r, In r (db w) -> (count r <= 5)%Q) ->
    forall r, In r (db (fold_left (update_one increment) ks w)) ->
              (count r <= 5)%Q.
Proof.
  induction ks as [| k0 ks IH]; intros w Hcap; cbn [fold_left]; [assumption |].
  apply IH. intros r. unfold update_one.
  destruct (query_get k0 (db w)) as [r0 |]; [| exact (Hcap r)].
  cbn [time_time db]. unfold save. intros Hr.
  apply in_map_iff in Hr. destruct Hr as (x & <- & Hx).
  cbn [id].
  destruct (id x =? id r0)%Z; [| exact (Hcap x Hx)].
  cbn [count]. apply py_min_le_cap.
Qed.
End ReinforcementFrame.

(** A batch changes nothing but counts and activity times: with
    distinct primary keys, every row keeps its place, its id, its chat,
    type, situation, style and creation date; a row that no key of the
    batch matches is left exactly as it was; the random generator and
    the log of prompts are not touched. *)
Theorem reinforcement_changes_only_count_and_time :
  forall (batch : list Selector.expr_dict) (increment : Q)
         (w : Selector.World),
    NoDup (map Selector.id (Selector.db w)) ->
    map Selector.id
        (Selector.db (snd (Selector.update_expressions_count_batch
                             batch increment w)))
    = map Selector.id (Selector.db w)
    /\ map Selector.row_key
           (Selector.db (snd (Selector.update_expressions_count_batch
                                batch increment w)))
       = map Selector.row_key (Selector.db w)
    /\ map Selector.create_date
           (Selector.db (snd (Selector.update_expressions_count_batch
                                batch increment w)))
       = map Selector.create_date (Selector.db w)
    /\ (forall i r,
           nth_error (Selector.db w) i = Some r ->
           ~ In (Selector.id r)
                (matched_ids (batch_keys batch) (Selector.db w)) ->
           nth_error
             (Selector.db (snd (Selector.update_expressions_count_batch
                                  batch increment w))) i
           = Some r)
    /\ Selector.gen (snd (Selector.update_expressions_count_batch
                            batch increment w))
       = Selector.gen w
    /\ Selector.llm_prompts
         (snd (Selector.update_expressions_count_batch batch increment w))
       = Selector.llm_prompts w.
Proof.
  intros batch increment w Hnd. rewrite update_batch_run. cbn [snd].
  destruct (update_keys_frame increment (batch_keys batch) w)
    as (Hid & Hg & Hp & _).
  destruct (@update_keys_fields increment (batch_keys batch) w Hnd)
    as (Hk & Hc & Hrest).
  repeat split; try assumption.
  intros i r Hi Hfree. apply Hrest; [assumption |].
  intros k x Hkin Hq E. apply Hfree. apply In_matched_ids. eauto.
Qed.

Lemma reinforcement_changes_only_count_and_time_witness :
  map Selector.id
      (Selector.db (snd (Selector.update_expressions_count_batch
                           [Selector.dict_of_row
                              (Fixtures.style_row 8 "s8" "t8" (499 # 100))]
                           (1 # 10) (Fixtures.world_of Fixtures.table))))
  = map Selector.id (Selector.db (Fixtures.world_of Fixtures.table))
  /\ map Selector.row_key
         (Selector.db (snd (Selector.update_expressions_count_batch
                              [Selector.dict_of_row
                                 (Fixtures.style_row 8 "s8" "t8" (499 # 100))]
                              (1 # 10) (Fixtures.world_of Fixtures.table))))
     = map Selector.row_key (Selector.db (Fixtures.world_of Fixtures.table))
  /\ map Selector.create_date
         (Selector.db (snd (Selector.update_expressions_count_batch
                              [Selector.dict_of_row
                                 (Fixtures.style_row 8 "s8" "t8" (499 # 100))]
                              (1 # 10) (Fixtures.world_of Fixtures.table))))
     = map Selector.create_date
           (Selector.db (Fixtures.world_of Fixtures.table))
  /\ (forall i r,
         nth_error (Selector.db (Fixtures.world_of Fixtures.table)) i = Some r ->
         ~ In (Selector.id r)
              (matched_ids
                 (batch_keys [Selector.dict_of_row
                                (Fixtures.style_row 8 "s8" "t8" (499 # 100))])
                 (Selector.db (Fixtures.world_of Fixtures.table))) ->
         nth_error
           (Selector.db (snd (Selector.update_expressions_count_batch
                                [Selector.dict_of_row
                                   (Fixtures.style_row 8 "s8" "t8" (499 # 100))]
                                (1 # 10) (Fixtures.world_of Fixtures.table)))) i
         = Some r)
  /\ Selector.gen (snd (Selector.update_expressions_count_batch
                          [Selector.dict_of_row
                             (Fixtures.style_row 8 "s8" "t8" (499 # 100))]
                          (1 # 10) (Fixtures.world_of Fixtures.table)))
     = Selector.gen (Fixtures.world_of Fixtures.table)
  /\ Selector.llm_prompts
       (snd (Selector.update_expressions_count_batch
               [Selector.dict_of_row
                  (Fixtures.style_row 8 "s8" "t8" (499 # 100))]
               (1 # 10) (Fixtures.world_of Fixtures.table)))
     = Selector.llm_prompts (Fixtures.world_of Fixtures.table).
Proof.
  apply (@reinforcement_changes_only_count_and_time
           [Selector.dict_of_row (Fixtures.style_row 8 "s8" "t8" (499 # 100))]
           (1 # 10) (Fixtures.world_of Fixtures.table)).
  distinct_ids.
Defined.

(** The cap is an invariant of the table: when no stored count exceeds
    5, none does after a batch, whatever the batch and the increment,
    nor after a call of [select_suitable_expressions_llm], whatever the
    LLM answers. *)
Theorem count_cap_is_invariant :
  forall w : Selector.World,
    (forall r, In r (Selector.db w) -> (Selector.count r <= 5)%Q) ->
    (forall (batch : list Selector.expr_dict) (increment : Q) r,
        In r (Selector.db (snd (Selector.update_expressions_count_batch
                                  batch increment w))) ->
        (Selector.count r <= 5)%Q)
    /\ (forall (env : Selector.Env) (cid chat_info : string) (max_num : Z)
               (target_message : option string) r,
           In r (Selector.db (snd (Selector.select_suitable_expressions_llm
                                     env cid chat_info max_num target_message
                                     w))) ->
           (Selector.count r <= 5)%Q).
Proof.
  intros w Hcap. split.
  - intros batch increment r. rewrite update_batch_run. cbn [snd].
    now apply update_keys_cap.
  - intros env cid chat_info max_num target_message r.
    destruct (select_cases env cid chat_info max_num target_message w)
      as (g' & [-> | [-> | (rows & sits & _ & _ & _ & _ & _ & ->)]]);
      [exact (Hcap r) | exact (Hcap r) |].
    unfold Selector.try_except.
    match goal with
    | |- context [Selector.select_from_llm ?e ?c ?p ?w0] =>
        destruct (select_from_llm_cases e c p w0)
          as [-> | [(e0 & -> & _) | (items & ids & _ & _ & ->)]]
    end.
    + exact (Hcap r).
    + destruct (is_Exception e0); exact (Hcap r).
    + cbn [snd]. apply update_keys_cap. exact Hcap.
Qed.

Lemma count_cap_is_invariant_witness :
  (forall (batch : list Selector.expr_dict) (increment : Q) r,
      In r (Selector.db (snd (Selector.update_expressions_count_batch
                                batch increment
                                (Fixtures.world_of Fixtures.table)))) ->
      (Selector.count r <= 5)%Q)
  /\ (forall (env : Selector.Env) (cid chat_info : string) (max_num : Z)
             (target_message : option string) r,
         In r (Selector.db (snd (Selector.select_suitable_expressions_llm
                                   env cid chat_info max_num target_message
                                   (Fixtures.world_of Fixtures.table)))) ->
         (Selector.count r <= 5)%Q).
Proof.
  apply (@count_cap_is_invariant (Fixtures.world_of Fixtures.table)).
  intros r Hr. vm_compute in Hr.
  repeat (destruct Hr as [<- | Hr]; [discriminate |]). contradiction.
Defined.

Section Saturation.
Import Selector.

Lemma reinforce_times_run (n : nat) (batch : list expr_dict) (increment : Q) :
  (0 <= increment)%Q ->
  forall (w : World) (k : key) (r : Expression),
    NoDup (map id (db w)) ->
    In k (batch_keys batch) ->
    query_get k (db w) = Some r ->
    (count r <= 5)%Q ->
    exists r',
      query_get k (db (reinforce_times n batch increment w)) = Some r'
      /\ id r' = id r
      /\ (count r <= count r')%Q
      /\ (count r' <= 5)%Q.
Proof.
  intros Hi. induction n as [| n IH]; intros w k r Hnd Hk Hq Hc.
  - exists r. simpl. repeat split; auto; apply Qle_refl.
  - cbn [reinforce_times]. rewrite update_batch_run. cbn [snd].
    destruct (@update_keys_spec increment (batch_keys batch) w Hnd
                (batch_keys_NoDup batch))
      as (Hid & _ & _ & _ & new & _ & _ & _ & _ & Hrows).
    destruct (Hrows k r Hk Hq) as (now & Hq1 & _).
    destruct (IH (fold_left (update_one increment) (batch_keys batch) w) k
                 (reinforced increment now r))
      as (r' & Hq' & Hid' & Hlo & Hhi);
      [now rewrite Hid | assumption | assumption
       | cbn [reinforced count]; apply py_min_le_cap |].
    exists r'. split; [assumption |]. split; [assumption |].
    split; [| assumption].
    apply Qle_trans with (count (reinforced increment now r));
      [| assumption].
    cbn [reinforced count]. now apply py_min_grows.
Qed.
End Saturation.

(** Reinforcing the same batch [n] times with a non-negative increment
    never lowers the count of a matched row and never takes it above
    the cap: from a count [c <= 5] it ends between [c] and 5, so a
    count that has reached 5.0 stays there, however often the
    expression is selected again.  (How fast it climbs depends on the
    rounding of each addition and is not stated.) *)
Theorem repeated_reinforcement_saturates :
  forall (n : nat) (batch : list Selector.expr_dict) (increment : Q)
         (w : Selector.World) (e : Selector.expr_dict) (k : Selector.key)
         (r : Selector.Expression),
    NoDup (map Selector.id (Selector.db w)) ->
    In e batch ->
    Selector.entry_key e = Some k ->
    Selector.query_get k (Selector.db w) = Some r ->
    (0 <= increment)%Q ->
    (Selector.count r <= 5)%Q ->
    exists r' : Selector.Expression,
      Selector.query_get k (Selector.db (reinforce_times n batch increment w))
      = Some r'
      /\ Selector.id r' = Selector.id r
      /\ (Selector.count r <= Selector.count r' <= 5)%Q
      /\ ((Selector.count r == 5)%Q -> (Selector.count r' == 5)%Q).
Proof.
  intros n batch increment w e k r Hnd He Hk Hq Hi Hc.
  assert (Hin : In k (batch_keys batch)) by (apply batch_keys_In; eauto).
  destruct (@reinforce_times_run n batch increment Hi w k r Hnd Hin Hq Hc)
    as (r' & Hq' & Hid & Hlo & Hhi).
  exists r'. split; [assumption |]. split; [assumption |].
  split; [now split |].
  intros E. apply Qle_antisym; [assumption |]. now rewrite <- E.
Qed.

Lemma repeated_reinforcement_saturates_witness :
  exists r' : Selector.Expression,
    Selector.query_get ("chat", "style", "s10", "t10")%string
      (Selector.db
         (reinforce_times 3
            [Selector.dict_of_row (Fixtures.style_row 10 "s10" "t10" 5)]
            (1 # 10) (Fixtures.world_of Fixtures.table)))
    = Some r'
    /\ Selector.id r' = Selector.id (Fixtures.style_row 10 "s10" "t10" 5)
    /\ (Selector.count (Fixtures.style_row 10 "s10" "t10" 5)
        <= Selector.count r' <= 5)%Q
    /\ ((Selector.count (Fixtures.style_row 10 "s10" "t10" 5) == 5)%Q ->
        (Selector.count r' == 5)%Q).
Proof.
  apply (@repeated_reinforcement_saturates 3
           [Selector.dict_of_row (Fixtures.style_row 10 "s10" "t10" 5)]
           (1 # 10) (Fixtures.world_of Fixtures.table)
           (Selector.dict_of_row (Fixtures.style_row 10 "s10" "t10" 5))
           ("chat", "style", "s10", "t10")%string
           (Fixtures.style_row 10 "s10" "t10" 5)).
  - distinct_ids.
  - now left.
  - reflexivity.
  - reflexivity.
  - unfold Qle. simpl. lia.
  - unfold Qle. simpl. lia.
Defined.

Section ByKey.
Import Selector.

Lemma key_in_keys (k : key) (acc1 acc2 : list (key * expr_dict)) :
  map fst acc1 = map fst acc2 -> key_in k acc1 = key_in k acc2.
Proof.
  intros H. unfold key_in.
  assert (Hmap : forall acc : list (key * expr_dict),
             existsb (fun kv => key_eqb (fst kv) k) acc
             = existsb (fun k' => key_eqb k' k) (map fst acc)).
  { induction acc as [| a l IH]; simpl; [reflexivity | now rewrite IH]. }
  now rewrite !Hmap, H.
Qed.

Lemma collect_updates_by_key (batch1 : list expr_dict) :
  forall (batch2 : list expr_dict) (acc1 acc2 : list (key * expr_dict)),
    map entry_key batch1 = map entry_key batch2 ->
    map fst acc1 = map fst acc2 ->
    map fst (collect_updates batch1 acc1)
    = map fst (collect_updates batch2 acc2).
Proof.
  induction batch1 as [| e1 b1 IH]; intros [| e2 b2] acc1 acc2 Hb Ha;
    try discriminate; [assumption |].
  cbn [map] in Hb. injection Hb as He Hb. cbn [collect_updates].
  rewrite <- He. destruct (entry_key e1) as [k |]; [| now apply IH].
  rewrite (key_in_keys k acc1 acc2 Ha).
  destruct (key_in k acc2); apply IH; auto.
  rewrite !map_app, Ha. reflexivity.
Qed.
End ByKey.

(** Reinforcement goes by key, not by id: two batches whose entries
    have, one by one, the same source chat, type, situation and style
    (or are both skipped) have the same effect, whatever their ["id"],
    ["count"] and dates say; the count that is raised is the stored
    one. *)
Theorem reinforcement_goes_by_key :
  forall (batch1 batch2 : list Selector.expr_dict) (increment : Q)
         (w : Selector.World),
    map Selector.entry_key batch1 = map Selector.entry_key batch2 ->
    Selector.update_expressions_count_batch batch1 increment w
    = Selector.update_expressions_count_batch batch2 increment w.
Proof.
  intros batch1 batch2 increment w H. rewrite !update_batch_run.
  unfold batch_keys.
  now rewrite (@collect_updates_by_key batch1 batch2 [] [] H eq_refl).
Qed.

Lemma reinforcement_goes_by_key_witness :
  Selector.update_expressions_count_batch
    [Selector.dict_of_row (Fixtures.style_row 8 "s8" "t8" (499 # 100))]
    (1 # 10) (Fixtures.world_of Fixtures.table)
  = Selector.update_expressions_count_batch
      [Selector.mkDict None (Some "s8") (Some "t8") (Some 0%Q) None
                       (Some "chat") None None]%string
      (1 # 10) (Fixtures.world_of Fixtures.table).
Proof.
  apply (@reinforcement_goes_by_key
           [Selector.dict_of_row (Fixtures.style_row 8 "s8" "t8" (499 # 100))]
           [Selector.mkDict None (Some "s8") (Some "t8") (Some 0%Q) None
                            (Some "chat") None None]%string
           (1 # 10) (Fixtures.world_of Fixtures.table)).
  reflexivity.
Defined.

(* ================================================================== *)
(** ** The reply generator, continued *)

Section HistoryFacts.
Import ReplyGenerator.

Lemma render_message_raises (env : Env) (msg : message) (e : exn) :
  render_message env msg = Raise e ->
  (msg_time msg = None /\ e = KeyError)
  \/ exists t, msg_time msg = Some t /\ format_time env t = Raise e.
Proof.
  unfold render_message. destruct (msg_time msg) as [t |].
  - destruct (format_time env t) as [s | e0] eqn:Ef; [discriminate |].
    intros H. injection H as <-. right. eauto.
  - intros H. injection H as <-. now left.
Qed.

(** The loop over the history stops at the first message that cannot be
    rendered. *)
Lemma render_history_first_failure (env : Env) (before : list message) :
  forall (msg : message) (after : list message) (acc : string) (e : exn),
    Forall (fun m => exists t s,
                msg_time m = Some t /\ format_time env t = Ok s) before ->
    render_message env msg = Raise e ->
    render_history env (before ++ msg :: after) acc = Raise e.
Proof.
  induction before as [| m before IH]; intros msg after acc e Hb Hm.
  - cbn [app render_history]. now rewrite Hm.
  - inversion Hb as [| ? ? (t & s0 & Ht & Hs) Hb']; subst.
    cbn [app render_history]. unfold render_message at 1.
    rewrite Ht, Hs. now apply IH.
Qed.

Lemma render_history_raises (env : Env) (messages : list message) :
  forall (acc : string) (e : exn),
    render_history env messages acc = Raise e ->
    exists msg, In msg messages /\ render_message env msg = Raise e.
Proof.
  induction messages as [| m rest IH]; intros acc e H; [discriminate |].
  cbn [render_history] in H.
  destruct (render_message env m) as [line | e0] eqn:Em.
  - destruct (IH _ _ H) as (msg & Hin & Hr).
    exists msg. split; [now right | assumption].
  - injection H as <-. exists m. split; [now left | assumption].
Qed.

Lemma fold_left_append (A : Type) (f : A -> string) (items : list A) :
  forall acc : string,
    fold_left (fun acc x => (acc ++ f x)%string) items acc
    = (acc ++ fold_right String.append EmptyString (map f items))%string.
Proof.
  induction items as [| x items IH]; intros acc; cbn [fold_left map fold_right].
  - clear. induction acc as [| c acc IH]; simpl; [reflexivity | now rewrite <- IH].
  - rewrite IH. clear. induction acc as [| c acc IH]; simpl;
      [reflexivity | now rewrite IH].
Qed.

Lemma knowledge_text_of_values (items : list (string * string)) :
  knowledge_text_of (KDict items) = knowledge_text_of (KList (map snd items)).
Proof.
  unfold knowledge_text_of. destruct items as [| kv items]; [reflexivity |].
  change (map snd (kv :: items)) with (snd kv :: map snd items). cbv iota.
  change (snd kv :: map snd items) with (map snd (kv :: items)).
  generalize (kv :: items) as l. generalize (Selector.nl ++ "相关知识：")%string.
  intros acc l. revert acc.
  induction l as [| x l IH]; intros acc; cbn [fold_left map];
    [reflexivity | apply IH].
Qed.
End HistoryFacts.

(** An exception leaves [generate] only from the code before its [try]
    (a call of the observer that raises, a message of the history
    without ["time"], which gives [KeyError], or one whose timestamp
    cannot be converted, which gives what the conversion raises) or
    from the LLM call when [except Exception] does not catch it. *)
Theorem generate_raises_only :
  forall (env : ReplyGenerator.Env) (goal : string)
         (chat_history : list ReplyGenerator.message)
         (knowledge_cache : ReplyGenerator.knowledge)
         (previous_reply : option string) (retry_count : Z) (e : exn),
    ReplyGenerator.generate env goal chat_history knowledge_cache
                            previous_reply retry_count = Raise e ->
    ReplyGenerator.trigger_update env = Raise e
    \/ ReplyGenerator.wait_for_update env = Raise e
    \/ ReplyGenerator.get_message_history env 20 = Raise e
    \/ (exists messages msg,
           ReplyGenerator.get_message_history env 20 = Ok messages
           /\ In msg messages
           /\ ((ReplyGenerator.msg_time msg = None /\ e = KeyError)
               \/ exists t,
                   ReplyGenerator.msg_time msg = Some t
                   /\ ReplyGenerator.format_time env t = Raise e))
    \/ (is_Exception e = false
        /\ exists prompt,
            ReplyGenerator.compose_prompt env goal knowledge_cache
                                          previous_reply = Ok prompt
            /\ ReplyGenerator.llm_generate env prompt = Raise e).
Proof.
  intros env goal chat_history knowledge_cache previous_reply retry_count e.
  unfold ReplyGenerator.generate.
  destruct (ReplyGenerator.compose_prompt env goal knowledge_cache
                                          previous_reply)
    as [prompt | e0] eqn:Ec; cbn [ReplyGenerator.rbind].
  - unfold ReplyGenerator.try_except.
    destruct (ReplyGenerator.llm_generate env prompt) as [reply | e1] eqn:El;
      [discriminate |].
    destruct (is_Exception e1) eqn:Ee; [discriminate |].
    intros H. injection H as <-. do 4 right. eauto.
  - intros H. injection H as <-.
    unfold ReplyGenerator.compose_prompt in Ec.
    destruct (ReplyGenerator.trigger_update env) as [[] | e1];
      cbn [ReplyGenerator.rbind] in Ec; [| left; congruence].
    destruct (ReplyGenerator.wait_for_update env) as [b | e1];
      cbn [ReplyGenerator.rbind] in Ec; [| right; left; congruence].
    destruct (ReplyGenerator.get_message_history env 20) as [messages | e1];
      cbn [ReplyGenerator.rbind] in Ec; [| right; right; left; congruence].
    destruct (ReplyGenerator.render_history env messages "") as [text | e1]
      eqn:Er; cbn [ReplyGenerator.rbind] in Ec; [discriminate |].
    injection Ec as <-.
    destruct (render_history_raises _ _ _ Er) as (msg & Hin & Hm).
    apply render_message_raises in Hm.
    do 3 right. left. exists messages, msg. auto.
Qed.

Lemma generate_raises_only_witness :
  ReplyGenerator.trigger_update
    (Fixtures.generator_of [Fixtures.heard (Some 253402300800%Q) "hi"]
                           (fun _ => Ok "fine"%string))
  = Raise ValueError
  \/ ReplyGenerator.wait_for_update
       (Fixtures.generator_of [Fixtures.heard (Some 253402300800%Q) "hi"]
                              (fun _ => Ok "fine"%string))
     = Raise ValueError
  \/ ReplyGenerator.get_message_history
       (Fixtures.generator_of [Fixtures.heard (Some 253402300800%Q) "hi"]
                              (fun _ => Ok "fine"%string)) 20
     = Raise ValueError
  \/ (exists messages msg,
         ReplyGenerator.get_message_history
           (Fixtures.generator_of [Fixtures.heard (Some 253402300800%Q) "hi"]
                                  (fun _ => Ok "fine"%string)) 20
         = Ok messages
         /\ In msg messages
         /\ ((ReplyGenerator.msg_time msg = None /\ ValueError = KeyError)
             \/ exists t,
                 ReplyGenerator.msg_time msg = Some t
                 /\ ReplyGenerator.format_time
                      (Fixtures.generator_of
                         [Fixtures.heard (Some 253402300800%Q) "hi"]
                         (fun _ => Ok "fine"%string)) t
                    = Raise ValueError))
  \/ (is_Exception ValueError = false
      /\ exists prompt,
          ReplyGenerator.compose_prompt
            (Fixtures.generator_of [Fixtures.heard (Some 253402300800%Q) "hi"]
                                   (fun _ => Ok "fine"%string))
            "goal" (ReplyGenerator.KList []) None
          = Ok prompt
          /\ ReplyGenerator.llm_generate
               (Fixtures.generator_of [Fixtures.heard (Some 253402300800%Q) "hi"]
                                      (fun _ => Ok "fine"%string))
               prompt
             = Raise ValueError).
Proof.
  apply (@generate_raises_only
           (Fixtures.generator_of [Fixtures.heard (Some 253402300800%Q) "hi"]
                                  (fun _ => Ok "fine"%string))
           "goal" [] (ReplyGenerator.KList []) None 0 ValueError).
  reflexivity.
Defined.

(** The first message of the observed history that cannot be rendered
    decides: when the messages before it carry times that can be
    formatted and it has no ["time"], [generate] raises [KeyError],
    whatever follows and whatever the LLM would have answered: the
    prompt is never composed and the apology does not cover it. *)
Theorem generate_needs_timed_messages :
  forall (env : ReplyGenerator.Env) (goal : string)
         (chat_history : list ReplyGenerator.message)
         (knowledge_cache : ReplyGenerator.knowledge)
         (previous_reply : option string) (retry_count : Z)
         (updated : bool) (before after : list ReplyGenerator.message)
         (msg : ReplyGenerator.message),
    ReplyGenerator.trigger_update env = Ok tt ->
    ReplyGenerator.wait_for_update env = Ok updated ->
    ReplyGenerator.get_message_history env 20 = Ok (before ++ msg :: after) ->
    (forall m, In m before ->
               exists t s,
                 ReplyGenerator.msg_time m = Some t
                 /\ ReplyGenerator.format_time env t = Ok s) ->
    ReplyGenerator.msg_time msg = None ->
    ReplyGenerator.compose_prompt env goal knowledge_cache previous_reply
    = Raise KeyError
    /\ ReplyGenerator.generate env goal chat_history knowledge_cache
                               previous_reply retry_count
       = Raise KeyError.
Proof.
  intros env goal chat_history knowledge_cache previous_reply retry_count
         updated before after msg Ht Hw Hm Hbefore Hnone.
  assert (Hc : ReplyGenerator.compose_prompt env goal knowledge_cache
                                             previous_reply = Raise KeyError).
  { unfold ReplyGenerator.compose_prompt.
    rewrite Ht, Hw, Hm. cbn [ReplyGenerator.rbind].
    rewrite (@render_history_first_failure env before msg after
               EmptyString KeyError).
    - reflexivity.
    - now apply Forall_forall.
    - unfold ReplyGenerator.render_message. now rewrite Hnone. }
  split; [assumption |].
  unfold ReplyGenerator.generate. now rewrite Hc.
Qed.

Lemma generate_needs_timed_messages_witness :
  ReplyGenerator.compose_prompt
    (Fixtures.generator_of
       ([Fixtures.heard (Some 1700000000%Q) "hi"]
          ++ Fixtures.heard None "there" :: [Fixtures.heard (Some 1%Q) "x"])
       (fun _ => Ok "fine"%string))
    "goal" (ReplyGenerator.KList []) None
  = Raise KeyError
  /\ ReplyGenerator.generate
       (Fixtures.generator_of
          ([Fixtures.heard (Some 1700000000%Q) "hi"]
             ++ Fixtures.heard None "there" :: [Fixtures.heard (Some 1%Q) "x"])
          (fun _ => Ok "fine"%string))
       "goal" [] (ReplyGenerator.KList []) None 0
     = Raise KeyError.
Proof.
  apply (@generate_needs_timed_messages
           (Fixtures.generator_of
              ([Fixtures.heard (Some 1700000000%Q) "hi"]
                 ++ Fixtures.heard None "there"
                 :: [Fixtures.heard (Some 1%Q) "x"])
              (fun _ => Ok "fine"%string))
           "goal" [] (ReplyGenerator.KList []) None 0 true
           [Fixtures.heard (Some 1700000000%Q) "hi"]
           [Fixtures.heard (Some 1%Q) "x"]
           (Fixtures.heard None "there")).
  - reflexivity.
  - reflexivity.
  - reflexivity.
  - intros m [<- | []]. exists 1700000000%Q, "12:00:00"%string.
    split; reflexivity.
  - reflexivity.
Defined.

(** The names of the knowledge sources never reach the prompt: a cache
    given as a dict yields the reply of the list of its values.  An
    empty cache adds nothing; otherwise the text is the header followed
    by each content on a line of its own. *)
Theorem knowledge_sources_are_dropped :
  forall (env : ReplyGenerator.Env) (goal : string)
         (chat_history : list ReplyGenerator.message)
         (items : list (string * string))
         (previous_reply : option string) (retry_count : Z),
    ReplyGenerator.generate env goal chat_history (ReplyGenerator.KDict items)
                            previous_reply retry_count
    = ReplyGenerator.generate env goal chat_history
                              (ReplyGenerator.KList (map snd items))
                              previous_reply retry_count
    /\ ReplyGenerator.knowledge_text_of (ReplyGenerator.KDict items)
       = match items with
         | [] => EmptyString
         | _ :: _ =>
             (Selector.nl ++ "相关知识："
                ++ fold_right String.append EmptyString
                     (map (fun kv => Selector.nl ++ snd kv) items))%string
         end.
Proof.
  intros env goal chat_history items previous_reply retry_count. split.
  - unfold ReplyGenerator.generate, ReplyGenerator.compose_prompt.
    now rewrite knowledge_text_of_values.
  - unfold ReplyGenerator.knowledge_text_of.
    destruct items as [| kv items]; [reflexivity |].
    rewrite (fold_left_append
               (fun kv => (Selector.nl ++ snd kv)%string)).
    clear. generalize (fold_right String.append EmptyString
              (map (fun kv : string * string => (Selector.nl ++ snd kv)%string)
                   (kv :: items))).
    intros s. cbn. reflexivity.
Qed.
